(** * Task Manager (Remix + Mongoose): connection cache, Task model, route handlers

    A shallow embedding of the three pieces of the application that carry logic:

    - [app/utils/db.server]  : module initialisation and [connectToDatabase];
    - [app/models/task.server] : [TaskSchema] and the [Task] model;
    - [app/routes/_index]    : the [loader] (read path) and the [action] (write path).

    JavaScript strings are sequences of UTF-16 code units, promises are entries
    of a promise table indexed by identity, the module-level [cachedDb] object is
    a field of the process state, and everything the outside world decides during
    a request (how the network answers, what the form contains, the clock) is an
    explicit environment record. *)

From Stdlib Require Import ZArith Lia.
From stdpp Require Import base decidable option list list_numbers gmap strings sorting.

Open Scope Z_scope.

(** ** JavaScript values *)

(** A JS string: a list of UTF-16 code units. *)
Abbreviation jsstring := (list N).

(** An ASCII literal of the source as a JS string. *)
Definition lit (s : string) : jsstring :=
  map Ascii.N_of_ascii (String.list_ascii_of_string s).

(** ECMAScript [WhiteSpace] and [LineTerminator] code points, the ones
    [String.prototype.trim] strips: TAB, LF, VT, FF, CR, SP, NBSP, OGHAM SPACE,
    U+2000..U+200A, LS, PS, NNBSP, MMSP, IDEOGRAPHIC SPACE, BOM. *)
Definition is_white_space (c : N) : bool :=
  ((9 <=? c) && (c <=? 13) || (c =? 32) || (c =? 160) || (c =? 5760)
   || (8192 <=? c) && (c <=? 8202) || (c =? 8232) || (c =? 8233)
   || (c =? 8239) || (c =? 8287) || (c =? 12288) || (c =? 65279))%N.

Fixpoint trimStart (s : jsstring) : jsstring :=
  match s with
  | c :: s' => if is_white_space c then trimStart s' else s
  | [] => []
  end.

Definition trimEnd (s : jsstring) : jsstring := reverse (trimStart (reverse s)).

(** [String.prototype.trim] *)
Definition trim (s : jsstring) : jsstring := trimEnd (trimStart s).

(** What a [throw] carries. *)
Inductive js_error :=
| Error (message : string)
| TypeError (message : string)
| RangeError (message : string)
| MongooseError (message : string)
| ValidatorError (path : string).

(** Completion of an evaluation: a value, or an exception. *)
Inductive outcome (A : Type) :=
| Return (a : A)
| Throw (e : js_error).
Arguments Return {A} a.
Arguments Throw {A} e.

(** ** app/utils/db.server *)

(** A Mongoose connection object, identified by its identity on the heap. *)
Record Connection := { conn_id : nat }.

(** The mongoose instance [m] that [mongoose.connect] resolves to. *)
Record Mongoose := { connection : Connection }.

(** State of a promise [mongoose.connect(..).then(..).catch(..)]. *)
Inductive promise_state :=
| Pending
| Fulfilled (c : Connection)
| Rejected (e : js_error).

(** The object [{ conn, promise }] shared as [global.mongoose] and [cachedDb];
    [promise] holds a reference into the promise table, [None] is [null]. *)
Record Cached := { conn : option Connection; promise : option nat }.

Inductive log_line :=
| console_log (s : string)
| console_error (s : string) (e : js_error).

(** The part of the Node process the module touches. *)
Record Process := {
  MONGODB_URI : string;
  cachedDb : Cached;
  promises : list promise_state;
  connect_calls : list string;
  console : list log_line
}.

(** Module evaluation (source lines 5-25): [dotenv.config()] adds the variables
    of the .env file that [process.env] does not define, the URI is read and
    checked, and [cachedDb] aliases [global.mongoose], created when missing. *)
Definition dotenv_config (process_env dotenv_file : gmap string string)
  : gmap string string := process_env ∪ dotenv_file.

Definition db_module_init (process_env dotenv_file : gmap string string)
    (global_mongoose : option Cached) (heap : list promise_state)
  : outcome Process :=
  let env := dotenv_config process_env dotenv_file in
  let uri := env !! "MONGODB_URI"%string in
  match uri with
  | None | Some EmptyString =>
      Throw (Error "Please define the MONGODB_URI environment variable inside .env")
  | Some u =>
      let cached :=
        match global_mongoose with
        | Some c => c
        | None => {| conn := None; promise := None |}
        end in
      Return {| MONGODB_URI := u; cachedDb := cached; promises := heap;
                connect_calls := []; console := [] |}
  end.

(** What a call of the async function [connectToDatabase] hands to its caller:
    a promise already resolved with the cached connection, or a promise that
    follows entry [p] of the promise table. *)
Inductive acquired :=
| Ready (c : Connection)
| Awaiting (p : nat).

Definition set_cachedDb (f : Cached → Cached) (st : Process) : Process :=
  {| MONGODB_URI := MONGODB_URI st; cachedDb := f (cachedDb st);
     promises := promises st; connect_calls := connect_calls st;
     console := console st |}.

Definition write_console (l : log_line) (st : Process) : Process :=
  {| MONGODB_URI := MONGODB_URI st; cachedDb := cachedDb st;
     promises := promises st; connect_calls := connect_calls st;
     console := console st ++ [l] |}.

(** [mongoose.connect(MONGODB_URI, ..).then(..).catch(..)]: one more call of the
    driver, and a fresh pending promise whose reference is returned. *)
Definition mongoose_connect (st : Process) : nat * Process :=
  (length (promises st),
   {| MONGODB_URI := MONGODB_URI st; cachedDb := cachedDb st;
      promises := promises st ++ [Pending];
      connect_calls := connect_calls st ++ [MONGODB_URI st];
      console := console st |}).

(** The synchronous body of [connectToDatabase] (source lines 33-66). *)
Definition connectToDatabase (st : Process) : acquired * Process :=
  match conn (cachedDb st) with
  | Some c =>
      (Ready c, write_console (console_log "Using existing database connection") st)
  | None =>
      match promise (cachedDb st) with
      | None =>
          let '(p, st1) := mongoose_connect st in
          (Awaiting p,
           set_cachedDb (λ c, {| conn := conn c; promise := Some p |}) st1)
      | Some p => (Awaiting p, st)
      end
  end.

Definition set_promise (p : nat) (s : promise_state) (st : Process) : Process :=
  {| MONGODB_URI := MONGODB_URI st; cachedDb := cachedDb st;
     promises := <[p := s]> (promises st); connect_calls := connect_calls st;
     console := console st |}.

(** The [.then] callback (lines 51-55). *)
Definition on_connected (p : nat) (m : Mongoose) (st : Process) : Process :=
  let st1 := set_cachedDb (λ c, {| conn := Some (connection m); promise := promise c |}) st in
  let st2 := write_console (console_log "New database connection established") st1 in
  set_promise p (Fulfilled (connection m)) st2.

(** The [.catch] callback (lines 56-61). *)
Definition on_failed (p : nat) (error : js_error) (st : Process) : Process :=
  let st1 := set_cachedDb (λ c, {| conn := conn c; promise := None |}) st in
  let st2 := write_console (console_error "Database connection failed:" error) st1 in
  set_promise p (Rejected error) st2.

(** The driver settles the connection attempt behind promise [p]; a promise
    settles once, so nothing happens unless [p] is pending. *)
Definition settle (p : nat) (r : outcome Mongoose) (st : Process) : Process :=
  match promises st !! p with
  | Some Pending =>
      match r with
      | Return m => on_connected p m st
      | Throw error => on_failed p error st
      end
  | _ => st
  end.

(** What a caller holding [a] observes when it awaits: [None] while the
    promise is still pending. *)
Definition await (a : acquired) (st : Process) : option (outcome Connection) :=
  match a with
  | Ready c => Some (Return c)
  | Awaiting p =>
      match promises st !! p with
      | Some (Fulfilled c) => Some (Return c)
      | Some (Rejected e) => Some (Throw e)
      | _ => None
      end
  end.

(** Interleavings at the granularity of the event loop: a caller runs the
    synchronous body of [connectToDatabase], or the driver settles a promise. *)
Inductive event :=
| Call
| Settle (p : nat) (r : outcome Mongoose).

Definition step (e : event) (st : Process) : list acquired * Process :=
  match e with
  | Call => let '(a, st') := connectToDatabase st in ([a], st')
  | Settle p r => ([], settle p r st)
  end.

(** Runs the events in order and collects what each caller was handed. *)
Fixpoint run (es : list event) (st : Process) : list acquired * Process :=
  match es with
  | [] => ([], st)
  | e :: es' =>
      let '(as1, st1) := step e st in
      let '(as2, st2) := run es' st1 in
      (as1 ++ as2, st2)
  end.

(** The process as module evaluation leaves it on a fresh heap. *)
Definition fresh_process (uri : string) : Process :=
  {| MONGODB_URI := uri; cachedDb := {| conn := None; promise := None |};
     promises := []; connect_calls := []; console := [] |}.

(** States the module can be in: every pending promise is the cached one, a
    cached connection is the value of the cached (fulfilled) promise, and a
    cached promise is never a rejected one. *)
Definition cache_consistent (st : Process) : Prop :=
  match promise (cachedDb st) with
  | None => conn (cachedDb st) = None
  | Some p =>
      (promises st !! p = Some Pending ∧ conn (cachedDb st) = None)
      ∨ (∃ c, promises st !! p = Some (Fulfilled c) ∧ conn (cachedDb st) = Some c)
  end
  ∧ ∀ q, promises st !! q = Some Pending → promise (cachedDb st) = Some q.


(** ** Dates and identifiers as the driver hands them to the route *)

(** [ObjectId]: twelve bytes; [toString] is the lower-case hexadecimal form. *)
Record ObjectId := { id_bytes : list N }.

Definition hex_digit (d : N) : N :=
  (if d <? 10 then 48 + d else 87 + d)%N.

Definition ObjectId_toString (o : ObjectId) : jsstring :=
  flat_map (λ b, [hex_digit (b / 16 mod 16); hex_digit (b mod 16)]%N) (id_bytes o).

(** A date is kept as its time value, milliseconds since the epoch. The
    [Date] built from a time value beyond 8.64e15 in magnitude is invalid. *)
Definition msPerDay : Z := 86400000.
Definition maxTimeValue : Z := 8640000000000000.

Definition valid_time (t : Z) : bool :=
  (- maxTimeValue <=? t) && (t <=? maxTimeValue).

(** Proleptic Gregorian year, month (1-12) and day of month (1-31) of a day
    number counted from 1970-01-01, computed over 400-year eras that start
    on 1 March. *)
Definition civil_from_days (days : Z) : Z * Z * Z :=
  let z := days + 719468 in
  let era := z / 146097 in
  let doe := z mod 146097 in
  let yoe := (doe - doe / 1460 + doe / 36524 - doe / 146096) / 365 in
  let doy := doe - (365 * yoe + yoe / 4 - yoe / 100) in
  let mp := (5 * doy + 2) / 153 in
  let d := doy - (153 * mp + 2) / 5 + 1 in
  let m := if mp <? 10 then mp + 3 else mp - 9 in
  let y := yoe + era * 400 in
  (if m <=? 2 then y + 1 else y, m, d).

(** [w] decimal digits of [n], most significant first. *)
Fixpoint pad (w : nat) (n : Z) : jsstring :=
  match w with
  | O => []
  | S w' => pad w' (n / 10) ++ [Z.to_N (48 + n mod 10)]
  end.

Definition iso_year (y : Z) : jsstring :=
  if (0 <=? y) && (y <=? 9999) then pad 4 y
  else (if y <? 0 then lit "-" else lit "+") ++ pad 6 (Z.abs y).

(** [Date.prototype.toISOString]: YYYY-MM-DDTHH:mm:ss.sssZ, with a signed
    six-digit year outside 0..9999; throws a RangeError on an invalid date. *)
Definition toISOString (t : Z) : outcome jsstring :=
  if valid_time t then
    let '(y, m, d) := civil_from_days (t / msPerDay) in
    let ms := t mod msPerDay in
    Return (iso_year y ++ lit "-" ++ pad 2 m ++ lit "-" ++ pad 2 d ++ lit "T"
            ++ pad 2 (ms / 3600000) ++ lit ":" ++ pad 2 (ms / 60000 mod 60)
            ++ lit ":" ++ pad 2 (ms / 1000 mod 60) ++ lit "."
            ++ pad 3 (ms mod 1000) ++ lit "Z")
  else Throw (RangeError "Invalid time value").

(** ** app/models/task.server *)

(** A string path of a Mongoose schema with the options the source uses. *)
Record SchemaString := {
  required : bool;
  trim_setter : bool;
  default_value : option jsstring
}.

(** [TaskSchema] (source lines 5-31); [createdAt] is a Date path whose default
    is [Date.now]. *)
Definition TaskSchema_title : SchemaString :=
  {| required := true; trim_setter := true; default_value := None |}.
Definition TaskSchema_description : SchemaString :=
  {| required := false; trim_setter := true; default_value := Some [] |}.

(** A Task document, as stored and as [lean()] returns it. [__v] is the
    version key: the schema is built without options, so [versionKey] is on
    and Mongoose writes [__v: 0] into every document it inserts; a document
    that was not saved yet, or that came into the collection by other means,
    may lack it. *)
Record TaskDoc := {
  _id : ObjectId;
  title : jsstring;
  description : jsstring;
  createdAt : Z;
  __v : option Z
}.

#[global] Instance ObjectId_eq_dec : EqDecision ObjectId.
Proof. solve_decision. Defined.

#[global] Instance TaskDoc_eq_dec : EqDecision TaskDoc.
Proof. solve_decision. Defined.

(** Setting a string path: the [trim] setter runs when the option is on. *)
Definition set_path (p : SchemaString) (v : jsstring) : jsstring :=
  if trim_setter p then trim v else v.

(** The [required] validator of a string path rejects the empty string. *)
Definition validate_path (name : string) (p : SchemaString) (v : jsstring)
  : outcome unit :=
  if required p && bool_decide (v = []) then Throw (ValidatorError name)
  else Return ().

(** [new Task({ title, description })]: a fresh identifier, the setters of the
    two string paths, and the [Date.now] default of [createdAt]. *)
Definition new_Task (oid : ObjectId) (now : Z) (title description : jsstring)
  : TaskDoc :=
  {| _id := oid;
     title := set_path TaskSchema_title title;
     description := set_path TaskSchema_description description;
     createdAt := now;
     __v := None |}.

(** The document as an insert writes it: with the version key at 0. *)
Definition inserted (doc : TaskDoc) : TaskDoc :=
  {| _id := _id doc; title := title doc; description := description doc;
     createdAt := createdAt doc; __v := Some 0 |}.

(** [doc.save()] on a new document: validation, then one insert, which the
    store may refuse; the collection keeps insertion order. *)
Definition Task_save (store_fault : option js_error) (doc : TaskDoc)
    (coll : list TaskDoc) : outcome (list TaskDoc) :=
  match validate_path "title" TaskSchema_title (title doc),
        validate_path "description" TaskSchema_description (description doc) with
  | Throw e, _ | Return _, Throw e => Throw e
  | Return _, Return _ =>
      match store_fault with
      | Some e => Throw e
      | None => Return (coll ++ [inserted doc])
      end
  end.

(** [.sort({ createdAt: -1 })], which the store carries out: descending by
    [createdAt]. The source names no second key, so the order of documents
    with the same [createdAt] is the store's to choose, and may differ from
    one query to the next: [before d x] says whether the store puts [d]
    before [x], for [d] earlier in the collection than [x] and of the same
    [createdAt]. Whatever [before] is, the result is sorted, and every sorted
    arrangement of a collection of distinct documents is the result for some
    [before]. *)
Fixpoint insert_desc (before : TaskDoc → TaskDoc → bool) (d : TaskDoc)
    (sorted : list TaskDoc) : list TaskDoc :=
  match sorted with
  | [] => [d]
  | x :: rest =>
      if (createdAt x <? createdAt d) || (createdAt x =? createdAt d) && before d x
      then d :: sorted
      else x :: insert_desc before d rest
  end.

Definition sort_createdAt_desc (before : TaskDoc → TaskDoc → bool)
    (docs : list TaskDoc) : list TaskDoc :=
  foldr (insert_desc before) [] docs.

(** [Task.find({}).sort({ createdAt: -1 }).lean()]: every document of the
    collection (empty filter, no skip, no limit), sorted; fails as the store
    does. *)
Definition Task_find_sort_lean (store_fault : option js_error)
    (before : TaskDoc → TaskDoc → bool) (coll : list TaskDoc)
  : outcome (list TaskDoc) :=
  match store_fault with
  | Some e => Throw e
  | None => Return (sort_createdAt_desc before (filter (λ _, True) coll))
  end.

(** ** app/routes/_index *)

(** One record of the loader's answer: the fields of the document, with
    [_id] and [createdAt] as strings. The spread [...task] copies every
    field the document has, so the version key is there when the document
    has one. *)
Record SerializableTask := {
  s_id : jsstring;
  s_title : jsstring;
  s_description : jsstring;
  s_createdAt : jsstring;
  s__v : option Z
}.

Inductive json_body :=
| tasks_body (tasks : list SerializableTask)
| errors_body (title_error : string)
| message_body (message : string).

(** [json(data)] answers 200 unless a status is given; [redirect(url)] is a
    302 to [url]. *)
Inductive Response :=
| json (data : json_body) (status : Z)
| redirect (url : string).

(** A handler ends by returning a response or by throwing one. *)
Inductive completion :=
| Returned (r : Response)
| Thrown (r : Response).

(** A value of [formData.get(name)]: a string, or a File for a file input. *)
Inductive FormDataEntryValue :=
| FString (s : jsstring)
| FFile (name : jsstring).

(** Form data keeps its entries in order; [get] answers the first entry of
    the name, [None] standing for [null]. *)
Definition FormData := list (string * FormDataEntryValue).

Fixpoint formData_get (name : string) (fd : FormData) : option FormDataEntryValue :=
  match fd with
  | [] => None
  | (k, v) :: fd' => if decide (k = name) then Some v else formData_get name fd'
  end.

(** What the outside world decides during one request. *)
Record Env := {
  network : outcome Mongoose;       (* how a pending connection attempt ends *)
  form_data : outcome FormData;     (* [await request.formData()] *)
  store_fault : option js_error;    (* the failure of the store operation, if any *)
  tie_break : TaskDoc → TaskDoc → bool;
                                    (* the store's order among equal [createdAt] *)
  now : Z;                          (* [Date.now()] *)
  new_oid : ObjectId                (* the identifier generated for a new document *)
}.

(** The process and the tasks collection of the store. *)
Record World := { proc : Process; tasks : list TaskDoc }.

(** Request code: state passing over [World], exceptions as [Throw], and
    [None] for a request that is still suspended on a pending promise. *)
Definition M (A : Type) : Type := World → option (outcome A * World).

Definition ret {A} (a : A) : M A := λ w, Some (Return a, w).
Definition throw {A} (e : js_error) : M A := λ w, Some (Throw e, w).
Definition bind {A B} (m : M A) (k : A → M B) : M B :=
  λ w, match m w with
       | Some (Return a, w1) => k a w1
       | Some (Throw e, w1) => Some (Throw e, w1)
       | None => None
       end.
Definition lift {A} (o : outcome A) : M A := λ w, Some (o, w).

Declare Scope js_scope.
Delimit Scope js_scope with js.
Notation "'do' x <- m 'in' k" := (bind m (λ x, k))
  (at level 10, x name, m at level 100, k at level 200) : js_scope.

(** [try { body } catch (error) { handler }] around a handler body. *)
Definition try_catch (body : M Response) (handler : js_error → World → completion * World)
  : World → option (completion * World) :=
  λ w, match body w with
       | Some (Return r, w1) => Some (Returned r, w1)
       | Some (Throw e, w1) => Some (handler e w1)
       | None => None
       end.

Definition console_write (l : log_line) (w : World) : World :=
  {| proc := write_console l (proc w); tasks := tasks w |}.

(** [await connectToDatabase()] inside a request: the call, and then the
    settling of the promise it was handed, as the network decides. *)
Definition await_connectToDatabase (env : Env) : M Connection :=
  λ w,
    let '(a, p1) := connectToDatabase (proc w) in
    let p2 := match a with
              | Awaiting p => settle p (network env) p1
              | Ready _ => p1
              end in
    match await a p2 with
    | Some r => Some (r, {| proc := p2; tasks := tasks w |})
    | None => None
    end.

(** The callback of [tasks.map] (lines 78-82). *)
Definition serialize (task : TaskDoc) : outcome SerializableTask :=
  match toISOString (createdAt task) with
  | Return iso =>
      Return {| s_id := ObjectId_toString (_id task);
                s_title := title task;
                s_description := description task;
                s_createdAt := iso;
                s__v := __v task |}
  | Throw e => Throw e
  end.

(** [Array.prototype.map] with a callback that may throw: the first exception
    ends the whole map. *)
Fixpoint map_throwing {A B} (f : A → outcome B) (l : list A) : outcome (list B) :=
  match l with
  | [] => Return []
  | x :: l' =>
      match f x with
      | Throw e => Throw e
      | Return y =>
          match map_throwing f l' with
          | Throw e => Throw e
          | Return ys => Return (y :: ys)
          end
      end
  end.

Definition find_tasks (env : Env) : M (list TaskDoc) :=
  λ w, Some (Task_find_sort_lean (store_fault env) (tie_break env) (tasks w), w).

(** [loader] (lines 69-91). *)
Definition loader (env : Env) : World → option (completion * World) :=
  try_catch
    (do _ <- await_connectToDatabase env in
     do tasks <- find_tasks env in
     do serializableTasks <- lift (map_throwing serialize tasks) in
     ret (json (tasks_body serializableTasks) 200))%js
    (λ error w,
       (Thrown (json (message_body "Failed to load tasks.") 500),
        console_write (console_error "Failed to load tasks:" error) w)).

(** JS truthiness of a form value: [null] and the empty string are falsy. *)
Definition truthy (v : option FormDataEntryValue) : bool :=
  match v with
  | None => false
  | Some (FString s) => negb (bool_decide (s = []))
  | Some (FFile _) => true
  end.

Definition typeof_string (v : option FormDataEntryValue) : bool :=
  match v with
  | Some (FString _) => true
  | _ => false
  end.

(** The condition of line 120,
    [!title || typeof title !== 'string' || title.trim().length === 0];
    [||] evaluates its third operand on strings only. *)
Definition title_rejected (title : option FormDataEntryValue) : bool :=
  negb (truthy title)
  || negb (typeof_string title)
  || match title with
     | Some (FString s) => bool_decide (length (trim s) = 0%nat)
     | _ => false
     end.

(** [description ? description.trim() : ''] (line 125); a File has no [trim]. *)
Definition description_arg (description : option FormDataEntryValue)
  : outcome jsstring :=
  if truthy description then
    match description with
    | Some (FString s) => Return (trim s)
    | _ => Throw (TypeError "description.trim is not a function")
    end
  else Return [].

Definition save_task (env : Env) (doc : TaskDoc) : M unit :=
  λ w, match Task_save (store_fault env) doc (tasks w) with
       | Return coll => Some (Return (), {| proc := proc w; tasks := coll |})
       | Throw e => Some (Throw e, w)
       end.

(** [action] (lines 110-135). *)
Definition action (env : Env) : World → option (completion * World) :=
  try_catch
    (do _ <- await_connectToDatabase env in
     do formData <- lift (form_data env) in
     let title := formData_get "title" formData in
     let description := formData_get "description" formData in
     if title_rejected title then
       ret (json (errors_body "Title is required.") 400)
     else
       match title with
       | Some (FString t) =>
           do d <- lift (description_arg description) in
           let newTask := new_Task (new_oid env) (now env) (trim t) d in
           do _ <- save_task env newTask in
           ret (redirect "/")
       | _ => throw (TypeError "title.trim is not a function")
       end)%js
    (λ error w,
       (Returned (json (message_body "Failed to add task. Please try again.") 500),
        console_write (console_error "Failed to add task:" error) w)).

(** ** Notions used in the statements, and sample runs *)

(** What awaiting an attempt that ended as [r] gives. *)
Definition settled_as (r : outcome Mongoose) : outcome Connection :=
  match r with
  | Return m => Return (connection m)
  | Throw e => Throw e
  end.

(** A fresh process after one call: an attempt is in flight. *)
Definition in_flight_process : Process :=
  (connectToDatabase (fresh_process "mongodb://localhost/tasks")).2.

(** The same process once that attempt has succeeded. *)
Definition connected_process : Process :=
  settle 0 (Return {| connection := {| conn_id := 7 |} |}) in_flight_process.

(** A string that does not start with white space. *)
Definition starts_clean (s : jsstring) : Prop :=
  match s with
  | [] => True
  | c :: _ => is_white_space c = false
  end.

(** Newest first: the earlier element is at least as recent. *)
Definition newer_or_same (a b : TaskDoc) : Prop := createdAt b ≤ createdAt a.

(** A choice on ties read off an arrangement: whether [d] comes before [x]
    in [arranged]. *)
Fixpoint comes_before (arranged : list TaskDoc) (d x : TaskDoc) : bool :=
  match arranged with
  | [] => false
  | z :: rest =>
      if decide (z = d) then true
      else if decide (z = x) then false
      else comes_before rest d x
  end.

(** How [await connectToDatabase()] ends: with the cached connection when
    there is one, otherwise as the network settles the attempt. *)
Definition connect_result (env : Env) (w : World) : outcome Connection :=
  match conn (cachedDb (proc w)) with
  | Some c => Return c
  | None => settled_as (network env)
  end.

(** The three error answers of the route. *)
Definition load_failed : Response :=
  json (message_body "Failed to load tasks.") 500.

Definition add_failed : Response :=
  json (message_body "Failed to add task. Please try again.") 500.

Definition title_required : Response :=
  json (errors_body "Title is required.") 400.

(** The three ways line 120 rejects a title. *)
Definition title_invalid (v : option FormDataEntryValue) : Prop :=
  v = None ∨ (∃ f, v = Some (FFile f)) ∨ (∃ s, v = Some (FString s) ∧ trim s = []).

(** The characters 0-9, and 0-9 with a-f. *)
Definition is_digit (c : N) : bool := ((48 <=? c) && (c <=? 57))%N.

Definition is_hex (c : N) : bool :=
  (is_digit c || (97 <=? c) && (c <=? 102))%N.

(** [matches pat s]: [s] has the length of [pat], a decimal digit wherever
    [pat] has the letter d, and the character of [pat] elsewhere. *)
Fixpoint matches (pat s : jsstring) : bool :=
  match pat, s with
  | [], [] => true
  | p :: pat', c :: s' =>
      (if (p =? 100)%N then is_digit c else (c =? p)%N) && matches pat' s'
  | _, _ => false
  end.

(** The number a string of decimal digits denotes. *)
Definition digits_value (s : jsstring) : Z :=
  foldl (λ acc c, 10 * acc + (Z.of_N c - 48)) 0 s.

(** The two forms of the ISO 8601 profile of ECMAScript. *)
Definition iso_shape (s : jsstring) : bool :=
  matches (lit "dddd-dd-ddTdd:dd:dd.dddZ") s
  || matches (lit "+dddddd-dd-ddTdd:dd:dd.dddZ") s
  || matches (lit "-dddddd-dd-ddTdd:dd:dd.dddZ") s.

(** The record [serialize] returns when it returns. *)
Definition serialized (task : TaskDoc) : SerializableTask :=
  {| s_id := ObjectId_toString (_id task);
     s_title := title task;
     s_description := description task;
     s_createdAt := match toISOString (createdAt task) with
                    | Return iso => iso
                    | Throw _ => []
                    end;
     s__v := __v task |}.

(** A mongoose instance the driver may resolve to, and an empty store next
    to a freshly evaluated module. *)
Definition a_connection : Mongoose := {| connection := {| conn_id := 7 |} |}.

Definition fresh_world : World :=
  {| proc := fresh_process "mongodb://localhost/tasks"; tasks := [] |}.

(** A submission with a blank title, while the store cannot be reached. *)
Definition blank_title_refused : Env :=
  {| network := Throw (MongooseError "connect ECONNREFUSED");
     form_data := Return [("title"%string, FString (lit "  "))];
     store_fault := None; tie_break := λ _ _, true; now := 1700000000000;
     new_oid := {| id_bytes := [101; 76; 10; 0; 0; 0; 0; 0; 0; 0; 0; 1]%N |} |}.

(** The same submission with the store reachable. *)
Definition blank_title_reachable : Env :=
  {| network := Return a_connection;
     form_data := Return [("title"%string, FString (lit "  "))];
     store_fault := None; tie_break := λ _ _, true; now := 1700000000000;
     new_oid := {| id_bytes := [101; 76; 10; 0; 0; 0; 0; 0; 0; 0; 0; 1]%N |} |}.

(** A form value that is absent or a string. *)
Definition textual (v : option FormDataEntryValue) : Prop :=
  ∀ f, v ≠ Some (FFile f).

(** The description the action stores. *)
Definition stored_description (v : option FormDataEntryValue) : jsstring :=
  match v with
  | Some (FString d) => trim d
  | _ => []
  end.

(** A submission of "Buy milk" with an empty description. *)
Definition buy_milk (fault : option js_error) : Env :=
  {| network := Return a_connection;
     form_data := Return [("title"%string, FString (lit " Buy milk "));
                          ("description"%string, FString [])];
     store_fault := fault; tie_break := λ _ _, true; now := 1700000000000;
     new_oid := {| id_bytes := [101; 76; 10; 0; 0; 0; 0; 0; 0; 0; 0; 1]%N |} |}.

(** A submission whose description field carries an uploaded file. *)
Definition with_upload : Env :=
  {| network := Return a_connection;
     form_data := Return [("title"%string, FString (lit "Report"));
                          ("description"%string, FFile (lit "notes.txt"))];
     store_fault := None; tie_break := λ _ _, true; now := 1700000000000;
     new_oid := {| id_bytes := [101; 76; 10; 0; 0; 0; 0; 0; 0; 0; 0; 2]%N |} |}.

(** Every stored date is a valid one. *)
Definition all_valid (docs : list TaskDoc) : Prop :=
  Forall (λ d, valid_time (createdAt d) = true) docs.

(** Two submissions, one second apart, and a reading environment. *)
Definition task_A : Env :=
  {| network := Return a_connection;
     form_data := Return [("title"%string, FString (lit "A"))];
     store_fault := None; tie_break := λ _ _, true; now := 1700000000000;
     new_oid := {| id_bytes := [101; 76; 10; 0; 0; 0; 0; 0; 0; 0; 0; 1]%N |} |}.

Definition task_B : Env :=
  {| network := Return a_connection;
     form_data := Return [("title"%string, FString (lit "B"));
                          ("description"%string, FString (lit " later "))];
     store_fault := None; tie_break := λ _ _, true; now := 1700000001000;
     new_oid := {| id_bytes := [101; 76; 10; 0; 0; 0; 0; 0; 0; 0; 0; 2]%N |} |}.

Definition reading : Env :=
  {| network := Return a_connection; form_data := Return [];
     store_fault := None; tie_break := λ _ _, true; now := 1700000002000;
     new_oid := {| id_bytes := [] |} |}.

(** The world after A and then B were submitted to a fresh process. *)
Definition world_AB : World :=
  match action task_A fresh_world with
  | Some (_, w1) =>
      match action task_B w1 with
      | Some (_, w2) => w2
      | None => w1
      end
  | None => fresh_world
  end.

(** The world after a first read of a fresh process. *)
Definition world_read : World :=
  match loader reading fresh_world with
  | Some (_, w) => w
  | None => fresh_world
  end.

(** ** Further notions: attempts, requests, stored documents *)

(** Attempts follow one another: every [mongoose.connect] made one promise,
    the cached promise is the latest one, and any promise that is not the
    cached one was rejected. *)
Definition attempts_sequential (st : Process) : Prop :=
  length (connect_calls st) = length (promises st)
  ∧ match promise (cachedDb st) with
    | Some p => S p = length (promises st)
    | None => True
    end
  ∧ ∀ q s, promises st !! q = Some s → promise (cachedDb st) ≠ Some q →
      ∃ e, s = Rejected e.

(** A string that does not end with white space. *)
Definition ends_clean (s : jsstring) : Prop := starts_clean (reverse s).

(** All characters of a string are white space. *)
Definition blank (s : jsstring) : Prop := Forall (λ c, is_white_space c = true) s.

(** A request as the framework dispatches it: a GET runs the [loader], a
    POST of the form runs the [action]. *)
Inductive request :=
| GET (env : Env)
| POST (env : Env).

Definition request_env (r : request) : Env :=
  match r with
  | GET env | POST env => env
  end.

Definition serve (r : request) (w : World) : option (completion * World) :=
  match r with
  | GET env => loader env w
  | POST env => action env w
  end.

(** Requests served one after the other, with their answers. *)
Fixpoint serve_all (rs : list request) (w : World) : option (list completion * World) :=
  match rs with
  | [] => Some ([], w)
  | r :: rs' =>
      match serve r w with
      | Some (c, w1) =>
          match serve_all rs' w1 with
          | Some (cs, w2) => Some (c :: cs, w2)
          | None => None
          end
      | None => None
      end
  end.

Definition is_redirect (c : completion) : bool :=
  match c with
  | Returned (redirect _) => true
  | _ => false
  end.

(** A stored document as the action makes them: a title that is not empty,
    and no white space around title and description. *)
Definition well_formed (d : TaskDoc) : Prop :=
  title d ≠ []
  ∧ starts_clean (title d) ∧ ends_clean (title d)
  ∧ starts_clean (description d) ∧ ends_clean (description d).

(** The world after A was submitted to a fresh process. *)
Definition world_A : World :=
  match action task_A fresh_world with
  | Some (_, w1) => w1
  | None => fresh_world
  end.

(** The world after A was submitted and the list read, and that world
    after B was submitted. *)
Definition world_A_read : World :=
  match loader reading world_A with
  | Some (_, w) => w
  | None => world_A
  end.

Definition world_A_read_B : World :=
  match action task_B world_A_read with
  | Some (_, w) => w
  | None => world_A_read
  end.

(** ** Dates as the page reads them back *)

(** ECMAScript [InLeapYear] and the length of a month (1-12) of a year. *)
Definition InLeapYear (y : Z) : bool :=
  (y mod 4 =? 0) && negb (y mod 100 =? 0) || (y mod 400 =? 0).

Definition DaysInMonth (y m : Z) : Z :=
  if m =? 2 then (if InLeapYear y then 29 else 28)
  else if (m =? 4) || (m =? 6) || (m =? 9) || (m =? 11) then 30
  else 31.

(** [MakeDay]: the day number, from 1970-01-01, of a proleptic Gregorian
    date with month 1-12, over 400-year eras that start on 1 March. *)
Definition days_from_civil (y m d : Z) : Z :=
  let y' := if m <=? 2 then y - 1 else y in
  let era := y' / 400 in
  let yoe := y' mod 400 in
  let mp := if 2 <? m then m - 3 else m + 9 in
  let doy := (153 * mp + 2) / 5 + d - 1 in
  let doe := yoe * 365 + yoe / 4 - yoe / 100 + doy in
  era * 146097 + doe - 719468.

(** Reads [w] decimal digits off the front of a string, onto [acc]. *)
Fixpoint take_digits (w : nat) (acc : Z) (s : jsstring) : option (Z * jsstring) :=
  match w with
  | O => Some (acc, s)
  | S w' =>
      match s with
      | c :: s' =>
          if is_digit c then take_digits w' (10 * acc + (Z.of_N c - 48)) s'
          else None
      | [] => None
      end
  end.

(** Reads the character [c] off the front of a string. *)
Definition expect (c : N) (s : jsstring) : option jsstring :=
  match s with
  | c' :: s' => if (c' =? c)%N then Some s' else None
  | [] => None
  end.

(** The year of the date-time format: four digits, or a sign and six
    digits, where -000000 is not a year. *)
Definition take_year (s : jsstring) : option (Z * jsstring) :=
  match s with
  | c :: s' =>
      if (c =? 43)%N then take_digits 6 0 s'
      else if (c =? 45)%N then
        '(y, r) ← take_digits 6 0 s';
        if y =? 0 then None else Some (- y, r)
      else take_digits 4 0 s
  | [] => None
  end.

(** Whether the fields name a date and a time of day; 24:00:00.000 is the
    end of the day. *)
Definition legal_fields (y mo d h mi sec ms : Z) : bool :=
  (1 <=? mo) && (mo <=? 12) && (1 <=? d) && (d <=? DaysInMonth y mo)
  && ((h <=? 23) && (mi <=? 59) && (sec <=? 59)
      || (h =? 24) && (mi =? 0) && (sec =? 0) && (ms =? 0)).

(** The time value of a string in the full UTC form of the date-time
    format, YYYY-MM-DDTHH:mm:ss.sssZ with a four-digit or a signed six-digit
    year, when its fields are legal. *)
Definition parse_iso (s : jsstring) : option Z :=
  '(y, s) ← take_year s;
  s ← expect 45 s;
  '(mo, s) ← take_digits 2 0 s;
  s ← expect 45 s;
  '(d, s) ← take_digits 2 0 s;
  s ← expect 84 s;
  '(h, s) ← take_digits 2 0 s;
  s ← expect 58 s;
  '(mi, s) ← take_digits 2 0 s;
  s ← expect 58 s;
  '(sec, s) ← take_digits 2 0 s;
  s ← expect 46 s;
  '(ms, s) ← take_digits 3 0 s;
  s ← expect 90 s;
  if bool_decide (s = []) && legal_fields y mo d h mi sec ms then
    Some (days_from_civil y mo d * msPerDay
          + h * 3600000 + mi * 60000 + sec * 1000 + ms)
  else None.

(** [new Date(string)], as its time value, [None] for an invalid date. A
    string in the form above gives its time value, clipped to the range of
    valid dates; what any other string gives is up to the engine, which
    [other_formats] stands for. *)
Definition new_Date (other_formats : jsstring → option Z) (s : jsstring) : option Z :=
  match parse_iso s with
  | Some t => if valid_time t then Some t else None
  | None => other_formats s
  end.

(** The text [toISOString] returns for a valid date, piece by piece. *)
Definition iso_text (t : Z) : jsstring :=
  iso_year (civil_from_days (t / msPerDay)).1.1
  ++ [45%N] ++ pad 2 (civil_from_days (t / msPerDay)).1.2
  ++ [45%N] ++ pad 2 (civil_from_days (t / msPerDay)).2
  ++ [84%N] ++ pad 2 (t mod msPerDay / 3600000)
  ++ [58%N] ++ pad 2 (t mod msPerDay / 60000 mod 60)
  ++ [58%N] ++ pad 2 (t mod msPerDay / 1000 mod 60)
  ++ [46%N] ++ pad 3 (t mod msPerDay mod 1000)
  ++ [90%N] ++ [].

(** ** app/routes/_index: the page *)

(** A rendered element tree: text, or an element with props and children. *)
Inductive prop_value :=
| PString (s : string)
| PBool (b : bool)
| PKey (s : jsstring).

#[warnings="-register-all"]
Inductive node :=
| text (s : jsstring)
| element (tag : string) (props : list (string * prop_value)) (children : list node).

(** [navigation.state] *)
Inductive navigation_state := idle | submitting | loading.

(** [actionData?.errors?.title] and [actionData?.message]: [None] where
    the chain gives [undefined]. *)
Definition errors_title (actionData : option json_body) : option string :=
  match actionData with
  | Some (errors_body t) => Some t
  | _ => None
  end.

Definition action_message (actionData : option json_body) : option string :=
  match actionData with
  | Some (message_body m) => Some m
  | _ => None
  end.

(** [{value && render(value)}]: nothing is rendered for [undefined] and for
    the empty string. *)
Definition when_truthy (value : option string) (render : string → node) : list node :=
  match value with
  | Some EmptyString | None => []
  | Some s => [render s]
  end.

Section page.

(** [Date.prototype.toLocaleString], which depends on locale and time zone,
    of a date given as its time value; and what [new Date] makes of strings
    outside the date-time format. *)
Variable toLocaleString : option Z → jsstring.
Variable other_formats : jsstring → option Z.

(** One row of the table (lines 233-243). *)
Definition task_row (task : SerializableTask) : node :=
  element "tr" [("key", PKey (s_id task)); ("className", PString "hover:bg-gray-50")]
    [element "td" [("className", PString "px-6 py-4 whitespace-nowrap")]
       [element "div" [("className", PString "text-sm font-medium text-gray-900")]
          [text (s_title task)]];
     element "td" [("className", PString "px-6 py-4 whitespace-nowrap")]
       [element "div" [("className", PString "text-sm text-gray-500")]
          [text (if bool_decide (s_description task = []) then lit "-"
                 else s_description task)]];
     element "td" [("className", PString "px-6 py-4 whitespace-nowrap text-sm text-gray-500")]
       [text (toLocaleString (new_Date other_formats (s_createdAt task)))]].

Definition column_head (className label : string) : node :=
  element "th" [("scope", PString "col"); ("className", PString className)]
    [text (lit label)].

(** The table around the rows (lines 216-247). *)
Definition task_table (rows : list node) : node :=
  element "div"
    [("className", PString "overflow-x-auto rounded-lg border border-gray-200 shadow-sm")]
    [element "table" [("className", PString "min-w-full divide-y divide-gray-200")]
       [element "thead" [("className", PString "bg-gray-100")]
          [element "tr" []
             [column_head
                "px-6 py-3 text-left text-xs font-medium text-gray-500 uppercase tracking-wider rounded-tl-lg"
                "Title";
              column_head
                "px-6 py-3 text-left text-xs font-medium text-gray-500 uppercase tracking-wider"
                "Description";
              column_head
                "px-6 py-3 text-left text-xs font-medium text-gray-500 uppercase tracking-wider rounded-tr-lg"
                "Created At"]];
        element "tbody" [("className", PString "bg-white divide-y divide-gray-200")]
          rows]].

(** The list of tasks, or the note that there is none (lines 213-248). *)
Definition task_list (tasks : list SerializableTask) : node :=
  if bool_decide (length tasks = 0%nat) then
    element "p" [("className", PString "text-gray-500 text-center")]
      [text (lit "No tasks yet. Add one above!")]
  else task_table (map task_row tasks).

(** The form (lines 164-207). *)
Definition task_form (actionData : option json_body) (isSubmitting : bool) : node :=
  element "Form"
    [("method", PString "post"); ("className", PString "space-y-4"); ("replace", PBool true)]
    ([element "div" []
        ([element "label"
            [("htmlFor", PString "title");
             ("className", PString "block text-sm font-medium text-gray-700")]
            [text (lit "Task Title ");
             element "span" [("className", PString "text-red-500")] [text (lit "*")]];
          element "input"
            [("type", PString "text"); ("id", PString "title"); ("name", PString "title");
             ("required", PBool true);
             ("className",
              PString "mt-1 block w-full px-3 py-2 border border-gray-300 rounded-md shadow-sm focus:outline-none focus:ring-blue-500 focus:border-blue-500 sm:text-sm");
             ("placeholder", PString "e.g., Buy groceries");
             ("disabled", PBool isSubmitting)]
            []]
         ++ when_truthy (errors_title actionData)
              (λ t, element "p" [("className", PString "mt-1 text-sm text-red-600")]
                      [text (lit t)]));
      element "div" []
        [element "label"
           [("htmlFor", PString "description");
            ("className", PString "block text-sm font-medium text-gray-700")]
           [text (lit "Description (Optional)")];
         element "textarea"
           [("id", PString "description"); ("name", PString "description");
            ("rows", PString "3");
            ("className",
             PString "mt-1 block w-full px-3 py-2 border border-gray-300 rounded-md shadow-sm focus:outline-none focus:ring-blue-500 focus:border-blue-500 sm:text-sm");
            ("placeholder", PString "e.g., Milk, eggs, bread");
            ("disabled", PBool isSubmitting)]
           []];
      element "button"
        [("type", PString "submit");
         ("className",
          PString "w-full inline-flex justify-center py-2 px-4 border border-transparent shadow-sm text-sm font-medium rounded-md text-white bg-blue-600 hover:bg-blue-700 focus:outline-none focus:ring-2 focus:ring-offset-2 focus:ring-blue-500 transition duration-150 ease-in-out disabled:opacity-50 disabled:cursor-not-allowed");
         ("disabled", PBool isSubmitting)]
        [text (if isSubmitting then lit "Adding Task..." else lit "Add Task")]]
     ++ when_truthy (action_message actionData)
          (λ m, element "p" [("className", PString "mt-2 text-sm text-red-600 text-center")]
                  [text (lit m)])).

(** [Index] (lines 139-253), given what [useLoaderData], [useActionData]
    and [useNavigation] return. *)
Definition Index (tasks : list SerializableTask) (actionData : option json_body)
    (state : navigation_state) : node :=
  let isSubmitting :=
    match state with
    | submitting => true
    | _ => false
    end in
  element "div"
    [("className",
      PString "min-h-screen flex flex-col items-center p-4 bg-gradient-to-br from-blue-500 to-indigo-600 font-inter")]
    [element "div"
       [("className", PString "w-full max-w-4xl bg-white shadow-xl rounded-xl p-8 space-y-8 my-8")]
       [element "h1"
          [("className", PString "text-4xl font-extrabold text-center text-gray-800 mb-8")]
          [text (lit "My Task Manager")];
        element "div" [("className", PString "bg-gray-50 p-6 rounded-lg shadow-inner")]
          [element "h2" [("className", PString "text-2xl font-bold text-gray-700 mb-4")]
             [text (lit "Add New Task")];
           task_form actionData isSubmitting];
        element "div" [("className", PString "bg-gray-50 p-6 rounded-lg shadow-inner")]
          [element "h2" [("className", PString "text-2xl font-bold text-gray-700 mb-4")]
             [text (lit "Your Tasks")];
           task_list tasks]]].

End page.

(** What [useActionData] gives after an action: the data of a returned
    JSON response, nothing after a redirect. *)
Definition action_data (c : completion) : option json_body :=
  match c with
  | Returned (json data _) => Some data
  | _ => None
  end.

(** ** Reading a rendered tree *)

(** The texts of a tree, in document order. *)
Fixpoint texts (n : node) : list jsstring :=
  match n with
  | text s => [s]
  | element _ _ children =>
      (fix go (cs : list node) : list jsstring :=
         match cs with
         | [] => []
         | c :: cs' => texts c ++ go cs'
         end) children
  end.

(** The elements of a tree with a given tag, the tree itself included, in
    document order. *)
Fixpoint descendants (tag : string) (n : node) : list node :=
  match n with
  | text _ => []
  | element t _ children =>
      let below :=
        (fix go (cs : list node) : list node :=
           match cs with
           | [] => []
           | c :: cs' => descendants tag c ++ go cs'
           end) children in
      if decide (t = tag) then n :: below else below
  end.

Definition children (n : node) : list node :=
  match n with
  | text _ => []
  | element _ _ cs => cs
  end.

Definition node_prop (name : string) (n : node) : option prop_value :=
  match n with
  | text _ => None
  | element _ props _ => snd <$> find (λ p, bool_decide (p.1 = name)) props
  end.

(** Whether [navigation.state === "submitting"]. *)
Definition is_submitting (state : navigation_state) : bool :=
  match state with
  | submitting => true
  | _ => false
  end.

(** The texts inside the forms of a page. *)
Definition form_texts (page : node) : list jsstring :=
  flat_map texts (descendants "Form" page).

(** The body rows of the tables of a page, each as the texts of its cells. *)
Definition table_rows (page : node) : list (list (list jsstring)) :=
  map (λ tr, map texts (children tr))
    (flat_map (descendants "tr") (descendants "tbody" page)).

(** Tags that do not occur in a row of the table. *)
Definition not_in_rows (tag : string) : Prop :=
  tag = "tbody"%string ∨ tag = "table"%string ∨ tag = "Form"%string
  ∨ tag = "input"%string ∨ tag = "textarea"%string ∨ tag = "button"%string.

(** The controls of a page. *)
Definition controls (page : node) : list node :=
  descendants "input" page ++ descendants "textarea" page ++ descendants "button" page.

(** The cells the page shows for a stored document. *)
Definition shown_cells (toLocaleString : option Z → jsstring) (d : TaskDoc)
  : list (list jsstring) :=
  [[title d];
   [if bool_decide (description d = []) then lit "-" else description d];
   [toLocaleString (Some (createdAt d))]].

(** An identifier whose bytes are bytes. *)
Definition well_formed_id (o : ObjectId) : Prop :=
  Forall (λ b, (b < 256)%N) (id_bytes o).

(** The value of a hexadecimal digit, lower case. *)
Definition hex_value (c : N) : option N :=
  if is_digit c then Some (c - 48)%N
  else if (97 <=? c)%N && (c <=? 102)%N then Some (c - 87)%N
  else None.

(** The bytes a string of hexadecimal digits spells, two digits a byte. *)
Fixpoint hex_bytes (s : jsstring) : option (list N) :=
  match s with
  | [] => Some []
  | hi :: lo :: s' =>
      h ← hex_value hi; l ← hex_value lo; bs ← hex_bytes s';
      Some ((16 * h + l)%N :: bs)
  | [_] => None
  end.

(** What a record of the answer says of a stored document: the identifier
    as a string of two characters a byte, which spell its bytes in
    hexadecimal; title and description as they are stored; the date as a
    string of the date-time format that denotes that very date; and the
    version key, when the document has one. *)
Definition represents (d : TaskDoc) (s : SerializableTask) : Prop :=
  length (s_id s) = (2 * length (id_bytes (_id d)))%nat
  ∧ (well_formed_id (_id d) → hex_bytes (s_id s) = Some (id_bytes (_id d)))
  ∧ s_title s = title d
  ∧ s_description s = description d
  ∧ parse_iso (s_createdAt s) = Some (createdAt d)
  ∧ s__v s = __v d.

(** The keys of a record of the answer; their order carries no meaning. *)
Definition keys (s : SerializableTask) : list string :=
  ["_id"; "title"; "description"; "createdAt"]%string
  ++ match s__v s with
     | Some _ => ["__v"%string]
     | None => []
     end.

(** The keys of the body rows of a page. *)
Definition row_keys (page : node) : list (option prop_value) :=
  map (node_prop "key") (flat_map (descendants "tr") (descendants "tbody" page)).

(** A stand-in for [toLocaleString] in sample runs: the time value in
    decimal. *)
Definition plain_locale (date : option Z) : jsstring :=
  match date with
  | Some t => pad 13 t
  | None => lit "Invalid Date"
  end.

(** * Properties *)

(** ** The connection manager *)

Section connection_manager.

Implicit Types (st : Process) (p q : nat) (c : Connection) (r : outcome Mongoose).

Lemma cache_consistent_fresh uri : cache_consistent (fresh_process uri).
Proof. split; [done|]. intros q Hq. cbn in Hq. by rewrite lookup_nil in Hq. Qed.

Lemma cache_consistent_bound st p :
  cache_consistent st → promise (cachedDb st) = Some p → (p < length (promises st))%nat.
Proof.
  intros [Hc _] Hp. rewrite Hp in Hc.
  destruct Hc as [[H _]|[c [H _]]]; by apply lookup_lt_Some in H.
Qed.

(** A call made while an attempt is in flight changes nothing. *)
Lemma connectToDatabase_in_flight st p :
  conn (cachedDb st) = None → promise (cachedDb st) = Some p →
  connectToDatabase st = (Awaiting p, st).
Proof. intros Hc Hp. unfold connectToDatabase. by rewrite Hc, Hp. Qed.

Lemma run_calls_in_flight st p n :
  conn (cachedDb st) = None → promise (cachedDb st) = Some p →
  run (replicate n Call) st = (replicate n (Awaiting p), st).
Proof.
  intros Hc Hp. induction n as [|n IH]; [done|].
  cbn [replicate run step]. by rewrite (connectToDatabase_in_flight st p), IH.
Qed.

(** A call with nothing cached starts one attempt and caches its promise. *)
Lemma connectToDatabase_start st :
  conn (cachedDb st) = None → promise (cachedDb st) = None →
  ∃ st', connectToDatabase st = (Awaiting (length (promises st)), st')
    ∧ conn (cachedDb st') = None
    ∧ promise (cachedDb st') = Some (length (promises st))
    ∧ promises st' = promises st ++ [Pending]
    ∧ connect_calls st' = connect_calls st ++ [MONGODB_URI st]
    ∧ console st' = console st.
Proof.
  intros Hc Hp. unfold connectToDatabase. rewrite Hc, Hp. cbn.
  eexists; split; [done|]. by cbn.
Qed.

Lemma settle_pending_await st p r :
  promises st !! p = Some Pending →
  await (Awaiting p) (settle p r st) = Some (settled_as r).
Proof.
  intros Hp. assert (p < length (promises st))%nat by by eapply lookup_lt_Some.
  unfold settle. rewrite Hp.
  destruct r as [m|e]; cbn; by rewrite list_lookup_insert_eq.
Qed.

Lemma connectToDatabase_cached st c :
  conn (cachedDb st) = Some c →
  connectToDatabase st
  = (Ready c, write_console (console_log "Using existing database connection") st).
Proof. intros Hc. unfold connectToDatabase. by rewrite Hc. Qed.

Lemma run_calls_cached st c n :
  conn (cachedDb st) = Some c →
  ∃ st', run (replicate n Call) st = (replicate n (Ready c), st')
    ∧ cachedDb st' = cachedDb st ∧ promises st' = promises st
    ∧ connect_calls st' = connect_calls st.
Proof.
  revert st. induction n as [|n IH]; intros st Hc; [by exists st|].
  cbn [replicate run step]. rewrite (connectToDatabase_cached st c Hc).
  destruct (IH (write_console (console_log "Using existing database connection") st))
    as (st' & Hrun & H1 & H2 & H3); [done|].
  exists st'. by rewrite Hrun.
Qed.

(** The module keeps its cache consistent, whatever callers and driver do. *)
Lemma cache_consistent_connectToDatabase st :
  cache_consistent st → cache_consistent (connectToDatabase st).2.
Proof.
  intros H. unfold connectToDatabase.
  destruct (conn (cachedDb st)) as [c|] eqn:Econn; [exact H|].
  destruct (promise (cachedDb st)) as [p|] eqn:Eprom; [exact H|].
  destruct H as [_ Hpend]. split; cbn.
  - left. split; [|done]. by rewrite lookup_app_r, Nat.sub_diag.
  - intros q Hq. destruct (decide (q = length (promises st))) as [->|Hne]; [done|].
    apply lookup_app_Some in Hq as [Hq|[Hge Hq]].
    + apply Hpend in Hq. congruence.
    + apply list_lookup_singleton_Some in Hq as [Hq _]. lia.
Qed.

Lemma cache_consistent_settle st p r :
  cache_consistent st → cache_consistent (settle p r st).
Proof.
  intros [Hc Hpend]. unfold settle.
  destruct (promises st !! p) as [[| |]|] eqn:Ep; try by split.
  pose proof (Hpend p Ep) as Hcur. rewrite Hcur in Hc.
  assert (p < length (promises st))%nat by by eapply lookup_lt_Some.
  destruct Hc as [[_ Hconn]|[c [Hf _]]]; [|congruence].
  destruct r as [m|e]; split; cbn.
  - rewrite Hcur. right. exists (connection m). by rewrite list_lookup_insert_eq.
  - intros q Hq. destruct (decide (q = p)) as [->|Hne].
    + by rewrite list_lookup_insert_eq in Hq.
    + rewrite list_lookup_insert_ne in Hq by done. by apply Hpend in Hq.
  - done.
  - intros q Hq. destruct (decide (q = p)) as [->|Hne].
    + by rewrite list_lookup_insert_eq in Hq.
    + rewrite list_lookup_insert_ne in Hq by done. apply Hpend in Hq. congruence.
Qed.

Lemma cache_consistent_step e st :
  cache_consistent st → cache_consistent (step e st).2.
Proof.
  intros H. destruct e as [|p r]; cbn.
  - pose proof (cache_consistent_connectToDatabase st H).
    by destruct (connectToDatabase st).
  - by apply cache_consistent_settle.
Qed.

Lemma cache_consistent_run es st :
  cache_consistent st → cache_consistent (run es st).2.
Proof.
  revert st. induction es as [|e es IH]; intros st H; [done|].
  cbn. pose proof (cache_consistent_step e st H) as H1.
  destruct (step e st) as [as1 st1]. specialize (IH st1 H1).
  by destruct (run es st1).
Qed.

(** With an attempt in flight there is no cached connection. *)
Lemma in_flight_no_conn st p :
  cache_consistent st → promises st !! p = Some Pending →
  promise (cachedDb st) = Some p ∧ conn (cachedDb st) = None.
Proof.
  intros [Hc Hpend] Hp. pose proof (Hpend p Hp) as Hcur. split; [done|].
  rewrite Hcur in Hc. destruct Hc as [[_ ?]|[c [? _]]]; [done|congruence].
Qed.

End connection_manager.

Section connection_claims.

Implicit Types (st : Process) (p q : nat) (c : Connection) (r : outcome Mongoose).

(** Once a caller can observe a result, later events do not change it. *)
Lemma await_stable_step a st e o :
  await a st = Some o → await a (step e st).2 = Some o.
Proof.
  destruct a as [c|p]; [done|]. cbn. intros Ha.
  destruct (promises st !! p) as [s|] eqn:Ep; [|done].
  assert (s ≠ Pending) as Hs by (intros ->; done).
  destruct e as [|q r]; cbn.
  - unfold connectToDatabase.
    destruct (conn (cachedDb st)); cbn; [by rewrite Ep|].
    destruct (promise (cachedDb st)); cbn; [by rewrite Ep|].
    by rewrite lookup_app_l, Ep by by eapply lookup_lt_Some.
  - unfold settle. destruct (promises st !! q) as [[| |]|] eqn:Eq;
      try by rewrite Ep.
    assert (p ≠ q) by congruence.
    destruct r; cbn; by rewrite list_lookup_insert_ne, Ep.
Qed.

Lemma await_stable_run a es st o :
  await a st = Some o → await a (run es st).2 = Some o.
Proof.
  revert st. induction es as [|e es IH]; intros st Ha; [done|].
  cbn. pose proof (await_stable_step a st e o Ha) as H1.
  destruct (step e st) as [as1 st1]. specialize (IH st1 H1).
  by destruct (run es st1).
Qed.

(** Callers that arrive with nothing cached: the first one starts the only
    attempt, the others are handed its promise, and all of them observe how
    that attempt ends. *)
Lemma callers_share_first_attempt st n r :
  conn (cachedDb st) = None → promise (cachedDb st) = None →
  ∃ st', run (replicate (S n) Call) st
         = (replicate (S n) (Awaiting (length (promises st))), st')
    ∧ connect_calls st' = connect_calls st ++ [MONGODB_URI st]
    ∧ Forall (λ a, await a (settle (length (promises st)) r st')
                   = Some (settled_as r))
        (replicate (S n) (Awaiting (length (promises st)))).
Proof.
  intros Hc Hp.
  destruct (connectToDatabase_start st Hc Hp)
    as (st1 & Hcall & Hc1 & Hp1 & Hps & Hcc & _).
  exists st1. cbn [replicate run step]. rewrite Hcall.
  rewrite (run_calls_in_flight st1 _ n Hc1 Hp1). split; [done|]. split; [done|].
  apply Forall_forall. intros a Ha.
  assert (a = Awaiting (length (promises st))) as ->.
  { change (a ∈ replicate (S n) (Awaiting (length (promises st)))) in Ha.
    by apply elem_of_replicate in Ha as [-> _]. }
  apply settle_pending_await. by rewrite Hps, lookup_app_r, Nat.sub_diag.
Qed.

(** C1: while a connection attempt is in flight and no connection is cached,
    every call of [connectToDatabase] is handed the promise of that attempt
    and leaves the process as it was (no further [mongoose.connect]); when the
    attempt ends, all [n] callers observe the same connection, or the same
    failure. *)
Theorem C1_single_flight st p n :
  promise (cachedDb st) = Some p →
  conn (cachedDb st) = None →
  promises st !! p = Some Pending →
  run (replicate n Call) st = (replicate n (Awaiting p), st)
  ∧ connect_calls (run (replicate n Call) st).2 = connect_calls st
  ∧ ∀ r, Forall (λ a, await a (settle p r (run (replicate n Call) st).2)
                      = Some (settled_as r))
           (run (replicate n Call) st).1.
Proof.
  intros Hp Hc Hpend. rewrite (run_calls_in_flight st p n Hc Hp).
  split; [done|]. split; [done|]. intros r. cbn [fst snd].
  apply Forall_forall. intros a Ha.
  assert (a = Awaiting p) as ->.
  { change (a ∈ replicate n (Awaiting p)) in Ha.
    by apply elem_of_replicate in Ha as [-> _]. }
  by apply settle_pending_await.
Qed.

Lemma C1_single_flight_witness :
  (promise (cachedDb in_flight_process) = Some 0%nat
   ∧ conn (cachedDb in_flight_process) = None
   ∧ promises in_flight_process !! 0%nat = Some Pending)
  ∧ (run (replicate 3 Call) in_flight_process
       = (replicate 3 (Awaiting 0), in_flight_process)
     ∧ connect_calls (run (replicate 3 Call) in_flight_process).2
       = connect_calls in_flight_process
     ∧ ∀ r, Forall (λ a, await a (settle 0 r (run (replicate 3 Call) in_flight_process).2)
                         = Some (settled_as r))
              (run (replicate 3 Call) in_flight_process).1).
Proof.
  split; [repeat split; reflexivity|].
  apply (C1_single_flight in_flight_process 0 3); reflexivity.
Defined.

(** C2: when the attempt in flight fails, the [.catch] callback clears
    [cachedDb.promise] and [cachedDb.conn] stays unset; every caller that was
    handed the promise observes the failure, now and after any later events;
    and the next call starts a fresh attempt, on a new pending promise, with
    one more [mongoose.connect]. *)
Theorem C2_failure_allows_retry st p e :
  cache_consistent st →
  promises st !! p = Some Pending →
  promise (cachedDb (settle p (Throw e) st)) = None
  ∧ conn (cachedDb (settle p (Throw e) st)) = None
  ∧ (∀ es, await (Awaiting p) (run es (settle p (Throw e) st)).2 = Some (Throw e))
  ∧ ∃ q st', connectToDatabase (settle p (Throw e) st) = (Awaiting q, st')
      ∧ q ≠ p
      ∧ promise (cachedDb st') = Some q
      ∧ promises st' !! q = Some Pending
      ∧ await (Awaiting q) st' = None
      ∧ connect_calls st' = connect_calls st ++ [MONGODB_URI st].
Proof.
  intros Hcons Hpend.
  destruct (in_flight_no_conn st p Hcons Hpend) as [Hcur Hconn].
  assert (p < length (promises st))%nat as Hlt by by eapply lookup_lt_Some.
  assert (settle p (Throw e) st = on_failed p e st) as Hs
    by (unfold settle; by rewrite Hpend).
  rewrite Hs. split; [done|]. split; [done|]. split.
  - intros es. apply await_stable_run. cbn. by rewrite list_lookup_insert_eq.
  - destruct (connectToDatabase_start (on_failed p e st))
      as (st' & Hcall & Hc1 & Hp1 & Hps & Hcc & _); [done..|].
    exists (length (promises (on_failed p e st))), st'.
    split; [done|]. cbn in *. rewrite length_insert in *.
    split; [lia|]. split; [done|].
    assert (promises st' !! length (promises st) = Some Pending) as Hnew.
    { rewrite Hps, lookup_app_r by by rewrite length_insert.
      by rewrite length_insert, Nat.sub_diag. }
    by rewrite Hnew.
Qed.

Lemma C2_failure_allows_retry_witness :
  (cache_consistent in_flight_process
   ∧ promises in_flight_process !! 0%nat = Some Pending)
  ∧ promise (cachedDb (settle 0 (Throw (MongooseError "ECONNREFUSED")) in_flight_process)) = None.
Proof.
  split.
  - split; [|reflexivity].
    apply (cache_consistent_connectToDatabase (fresh_process _)),
      cache_consistent_fresh.
  - apply (C2_failure_allows_retry in_flight_process 0 (MongooseError "ECONNREFUSED")).
    + apply (cache_consistent_connectToDatabase (fresh_process _)),
        cache_consistent_fresh.
    + reflexivity.
Defined.

(** C3: with a connection cached, [connectToDatabase] answers that connection
    at once, as an already resolved result; it makes no call to the driver and
    creates no promise, and [cachedDb] is left as it was, so any number of
    calls all answer the identical connection. The only trace of a call is
    its console line. *)
Theorem C3_cached_connection_reused st c n :
  conn (cachedDb st) = Some c →
  connectToDatabase st
  = (Ready c, write_console (console_log "Using existing database connection") st)
  ∧ (∀ st', await (Ready c) st' = Some (Return c))
  ∧ ∃ st', run (replicate n Call) st = (replicate n (Ready c), st')
      ∧ cachedDb st' = cachedDb st
      ∧ promises st' = promises st
      ∧ connect_calls st' = connect_calls st.
Proof.
  intros Hc. split; [by apply connectToDatabase_cached|]. split; [done|].
  by apply run_calls_cached.
Qed.

Lemma C3_cached_connection_reused_witness :
  conn (cachedDb connected_process) = Some {| conn_id := 7 |}
  ∧ ∃ st', run (replicate 2 Call) connected_process
           = (replicate 2 (Ready {| conn_id := 7 |}), st')
      ∧ cachedDb st' = cachedDb connected_process
      ∧ promises st' = promises connected_process
      ∧ connect_calls st' = connect_calls connected_process.
Proof.
  split; [reflexivity|].
  apply (C3_cached_connection_reused connected_process {| conn_id := 7 |} 2).
  reflexivity.
Defined.

(** C9: when neither the process environment nor the .env file defines
    MONGODB_URI, evaluating the module throws, whatever [global.mongoose]
    holds: no process state comes into being, so [connectToDatabase] is never
    reached with a missing URI. *)
Theorem C9_missing_uri_fails_at_startup
    (process_env dotenv_file : gmap string string) g heap :
  process_env !! "MONGODB_URI"%string = None →
  dotenv_file !! "MONGODB_URI"%string = None →
  db_module_init process_env dotenv_file g heap
  = Throw (Error "Please define the MONGODB_URI environment variable inside .env").
Proof.
  intros H1 H2. unfold db_module_init, dotenv_config.
  assert ((process_env ∪ dotenv_file) !! "MONGODB_URI"%string = None) as ->
    by by apply lookup_union_None.
  done.
Qed.

Lemma C9_missing_uri_fails_at_startup_witness :
  ((∅ : gmap string string) !! "MONGODB_URI"%string = None
   ∧ ({[ "PORT"%string := "3000"%string ]} : gmap string string) !! "MONGODB_URI"%string = None)
  ∧ db_module_init ∅ {[ "PORT"%string := "3000"%string ]} None []
    = Throw (Error "Please define the MONGODB_URI environment variable inside .env").
Proof.
  split; [split; reflexivity|].
  apply (C9_missing_uri_fails_at_startup ∅ {[ "PORT"%string := "3000"%string ]} None []);
    reflexivity.
Defined.

(** With the URI defined and not empty, the module evaluates. *)
Lemma db_module_init_defined (process_env dotenv_file : gmap string string) g heap a u :
  (process_env ∪ dotenv_file) !! "MONGODB_URI"%string = Some (String a u) →
  ∃ st, db_module_init process_env dotenv_file g heap = Return st
    ∧ MONGODB_URI st = String a u ∧ connect_calls st = [].
Proof.
  intros H. unfold db_module_init, dotenv_config. rewrite H. by eexists.
Qed.

End connection_claims.

(** ** Strings *)

Section strings.

Implicit Types (s : jsstring) (c : N).

Lemma trimStart_clean s : starts_clean (trimStart s).
Proof.
  induction s as [|c s IH]; [done|]. cbn.
  by destruct (is_white_space c) eqn:E.
Qed.

Lemma trimStart_id s : starts_clean s → trimStart s = s.
Proof. destruct s as [|c s]; [done|]. cbn. by intros ->. Qed.

(** [trimStart] drops a prefix made of white space. *)
Lemma trimStart_split s :
  ∃ ws, s = ws ++ trimStart s ∧ Forall (λ c, is_white_space c = true) ws.
Proof.
  induction s as [|c s (ws & Hs & Hws)]; [by exists []|]. cbn.
  destruct (is_white_space c) eqn:E.
  - exists (c :: ws). split; [by rewrite Hs at 1|by constructor].
  - by exists [].
Qed.

(** Trimming the end of a string keeps its start clean. *)
Lemma trimEnd_clean s : starts_clean s → starts_clean (trimEnd s).
Proof.
  intros Hs. unfold trimEnd.
  destruct (trimStart_split (reverse s)) as (ws & Hsplit & _).
  apply (f_equal reverse) in Hsplit.
  rewrite reverse_involutive, reverse_app in Hsplit.
  destruct (reverse (trimStart (reverse s))) as [|c t]; [done|].
  rewrite Hsplit in Hs. exact Hs.
Qed.

Lemma trimEnd_idemp s : trimEnd (trimEnd s) = trimEnd s.
Proof.
  unfold trimEnd. rewrite reverse_involutive.
  by rewrite (trimStart_id (trimStart _)) by apply trimStart_clean.
Qed.

Lemma trim_idemp s : trim (trim s) = trim s.
Proof.
  unfold trim.
  rewrite (trimStart_id (trimEnd (trimStart s)))
    by apply trimEnd_clean, trimStart_clean.
  apply trimEnd_idemp.
Qed.

Lemma trim_nil : trim [] = [].
Proof. reflexivity. Qed.

End strings.

(** ** The Task model *)

Section task_model.

Implicit Types (d x : TaskDoc) (l coll : list TaskDoc).

Lemma insert_desc_Permutation before d l : insert_desc before d l ≡ₚ d :: l.
Proof.
  induction l as [|x l IH]; [done|]. cbn.
  destruct (_ || _); [done|].
  by rewrite IH, Permutation_swap.
Qed.

Lemma sort_createdAt_desc_Permutation before l : sort_createdAt_desc before l ≡ₚ l.
Proof.
  induction l as [|x l IH]; [done|]. cbn.
  by rewrite insert_desc_Permutation, IH.
Qed.

(** Whatever the store does with ties, the result is sorted. *)
Lemma insert_desc_sorted before d l :
  StronglySorted newer_or_same l →
  StronglySorted newer_or_same (insert_desc before d l).
Proof.
  induction 1 as [|x l Hl IH Hx]; cbn.
  - repeat constructor.
  - destruct (_ || _) eqn:E.
    + assert (createdAt x ≤ createdAt d) as Hle.
      { apply orb_true_iff in E as [E%Z.ltb_lt|[E%Z.eqb_eq _]%andb_true_iff]; lia. }
      constructor; [by constructor|].
      constructor; [done|].
      eapply Forall_impl; [exact Hx|]. unfold newer_or_same. intros y ?. lia.
    + apply orb_false_iff in E as [E%Z.ltb_ge _]. constructor; [done|].
      rewrite insert_desc_Permutation. constructor; [|done].
      unfold newer_or_same. lia.
Qed.

Lemma sort_createdAt_desc_sorted before l :
  StronglySorted newer_or_same (sort_createdAt_desc before l).
Proof.
  induction l as [|x l IH]; cbn; [constructor|]. by apply insert_desc_sorted.
Qed.

(** In a sorted list, position decides recency. *)
Lemma sorted_lookup l (i j : nat) a b :
  StronglySorted newer_or_same l → (i < j)%nat →
  l !! i = Some a → l !! j = Some b → createdAt b ≤ createdAt a.
Proof.
  intros Hl. revert i j. induction Hl as [|x l Hl IH Hx]; intros i j Hij Hi Hj.
  - by rewrite lookup_nil in Hi.
  - destruct j as [|j]; [lia|]. destruct i as [|i]; cbn in *.
    + injection Hi as <-. rewrite Forall_forall in Hx.
      apply Hx, list_elem_of_lookup. eauto.
    + apply (IH i j); [lia|done..].
Qed.

(** The store is consulted on ties only: where no document that is already
    placed has the date of the new one, its place does not depend on the
    store, and a collection without equal dates has one sorted order. *)
Lemma insert_desc_no_tie before1 before2 d l :
  createdAt d ∉ map createdAt l →
  insert_desc before1 d l = insert_desc before2 d l.
Proof.
  induction l as [|x l IH]; [done|]. cbn [map insert_desc].
  rewrite not_elem_of_cons. intros [Hx Hl].
  assert ((createdAt x =? createdAt d) = false) as -> by (apply Z.eqb_neq; congruence).
  cbn [andb]. rewrite !orb_false_r. destruct (_ <? _); [done|]. f_equal. by apply IH.
Qed.

Lemma sort_createdAt_desc_no_tie before1 before2 l :
  NoDup (map createdAt l) →
  sort_createdAt_desc before1 l = sort_createdAt_desc before2 l.
Proof.
  induction l as [|x l IH]; [done|]. cbn [map]. rewrite NoDup_cons.
  intros [Hx Hl]. cbn [sort_createdAt_desc foldr].
  fold (sort_createdAt_desc before1 l). fold (sort_createdAt_desc before2 l).
  rewrite (IH Hl). apply insert_desc_no_tie.
  by rewrite (sort_createdAt_desc_Permutation before2 l).
Qed.

Lemma comes_before_later T1 T2 x a :
  a ∈ T1 → x ∉ T1 → comes_before (T1 ++ x :: T2) x a = false.
Proof.
  induction T1 as [|z T1 IH]; [by intros ?%elem_of_nil|].
  rewrite elem_of_cons, not_elem_of_cons. intros Ha [Hx1 Hx2]. cbn.
  rewrite decide_False by done.
  destruct (decide (z = a)) as [|Hne]; [done|].
  apply IH; [|done]. by destruct Ha as [->|].
Qed.

Lemma comes_before_earlier T1 T2 x b :
  x ∉ T1 → b ∉ T1 → comes_before (T1 ++ x :: T2) x b = true.
Proof.
  induction T1 as [|z T1 IH].
  - intros _ _. cbn. by rewrite decide_True.
  - rewrite !not_elem_of_cons. intros [Hx1 Hx2] [Hb1 Hb2]. cbn.
    rewrite !decide_False by done. by apply IH.
Qed.

(** Where an insertion lands. *)
Lemma insert_desc_between before x A B :
  Forall (λ a, createdAt x ≤ createdAt a
               ∧ (createdAt a = createdAt x → before x a = false)) A →
  Forall (λ b, createdAt b ≤ createdAt x
               ∧ (createdAt b = createdAt x → before x b = true)) B →
  insert_desc before x (A ++ B) = A ++ x :: B.
Proof.
  intros HA HB. induction HA as [|a A [Ha1 Ha2] _ IH].
  - destruct HB as [|b B [Hb1 Hb2] _]; [done|]. cbn.
    destruct (Z.eq_dec (createdAt b) (createdAt x)) as [He|Hne].
    + rewrite (Hb2 He), (proj2 (Z.eqb_eq _ _) He). by rewrite orb_true_r.
    + by rewrite (proj2 (Z.ltb_lt _ _)) by lia.
  - cbn. rewrite IH.
    assert ((createdAt a <? createdAt x) = false) as -> by (apply Z.ltb_ge; lia).
    destruct (Z.eq_dec (createdAt a) (createdAt x)) as [He|Hne].
    + by rewrite (Ha2 He), andb_false_r.
    + by rewrite (proj2 (Z.eqb_neq _ _) Hne).
Qed.

Lemma filter_agree {A} (P Q : A → Prop) `{!∀ a, Decision (P a)}
    `{!∀ a, Decision (Q a)} (k : list A) :
  (∀ a, a ∈ k → P a ↔ Q a) → filter P k = filter Q k.
Proof.
  induction k as [|x l IH]; [done|]. intros Hag.
  rewrite !filter_cons, IH by (intros y ?; apply Hag; by right).
  destruct (decide (P x)) as [HP|HP], (decide (Q x)) as [HQ|HQ]; try done.
  - destruct HQ. apply Hag; [by left|done].
  - destruct HP. apply Hag; [by left|done].
Qed.

(** Every sorted arrangement of a collection of distinct documents is what
    the store answers for some choice on ties. *)
Lemma sort_createdAt_desc_any coll arranged :
  NoDup coll → arranged ≡ₚ coll → StronglySorted newer_or_same arranged →
  sort_createdAt_desc (comes_before arranged) coll = arranged.
Proof.
  intros Hnd Hperm Hsorted.
  assert (NoDup arranged) as HndT by by rewrite Hperm.
  assert (∀ l, NoDup l → (∀ y, y ∈ l → y ∈ arranged) →
            sort_createdAt_desc (comes_before arranged) l
            = filter (λ y, y ∈ l) arranged) as Hgen.
  { induction l as [|x l IH]; intros Hl Hsub.
    - cbn. symmetry. clear. induction arranged as [|z T IHT]; [done|].
      by rewrite filter_cons_False by by intros ?%elem_of_nil.
    - apply NoDup_cons in Hl as [Hx Hl].
      cbn [sort_createdAt_desc foldr].
      fold (sort_createdAt_desc (comes_before arranged) l).
      rewrite IH by (done || (intros y ?; apply Hsub; by right)).
      destruct (list_elem_of_split arranged x) as (T1 & T2 & HT);
        [apply Hsub; by left|].
      rewrite HT in HndT.
      apply NoDup_app in HndT as (_ & Hdisj & [Hx2 _]%NoDup_cons).
      assert (x ∉ T1) as Hx1 by (intros Hin; apply (Hdisj x Hin); by left).
      set (before := comes_before arranged).
      rewrite HT, !filter_app, filter_cons_False by done.
      rewrite filter_cons_True by by left.
      rewrite (filter_agree (λ y, y ∈ x :: l) (λ y, y ∈ l) T1).
      2:{ intros y Hy. rewrite elem_of_cons. split; [|by right].
          intros [->|]; [done|done]. }
      rewrite (filter_agree (λ y, y ∈ x :: l) (λ y, y ∈ l) T2).
      2:{ intros y Hy. rewrite elem_of_cons. split; [|by right].
          intros [->|]; [done|done]. }
      rewrite HT in Hsorted.
      apply insert_desc_between.
      + apply Forall_forall. intros a [_ Ha]%list_elem_of_filter. split.
        * apply (StronglySorted_app_1_elem_of _ _ _ a x Hsorted Ha). by left.
        * intros _. subst before. rewrite HT. by apply comes_before_later.
      + apply Forall_forall. intros b [_ Hb]%list_elem_of_filter. split.
        * apply StronglySorted_app_1_r, StronglySorted_cons in Hsorted as [Hall _].
          rewrite Forall_forall in Hall. by apply Hall.
        * intros _. subst before. rewrite HT. apply comes_before_earlier; [done|].
          intros Hin. apply (Hdisj b Hin). by right. }
  rewrite Hgen; [|done|by intros y; rewrite Hperm].
  clear -Hperm. assert (∀ y, y ∈ arranged → y ∈ coll) as H by by intros y; rewrite Hperm.
  clear Hperm. induction arranged as [|z T IH]; [done|].
  rewrite filter_cons_True by (apply H; by left). f_equal. apply IH.
  intros y ?. apply H. by right.
Qed.

(** Two documents of the same date: either order is a sorted one, and the
    choice of the store decides. *)
Example tie_order_is_the_stores :
  let a := {| _id := {| id_bytes := [1]%N |}; title := lit "a"; description := [];
              createdAt := 5; __v := Some 0 |} in
  let b := {| _id := {| id_bytes := [2]%N |}; title := lit "b"; description := [];
              createdAt := 5; __v := Some 0 |} in
  sort_createdAt_desc (λ _ _, true) [a; b] = [a; b]
  ∧ sort_createdAt_desc (λ _ _, false) [a; b] = [b; a].
Proof. done. Qed.

Lemma filter_all coll : filter (λ _ : TaskDoc, True) coll = coll.
Proof. induction coll as [|x l IH]; [done|]. rewrite filter_cons_True; by f_equal. Qed.

(** The query answers the whole collection, newest first. *)
Lemma Task_find_sort_lean_ok before coll :
  Task_find_sort_lean None before coll = Return (sort_createdAt_desc before coll).
Proof. unfold Task_find_sort_lean. by rewrite filter_all. Qed.

(** A new document built by the action validates. *)
Lemma new_Task_title oid t0 t desc :
  title (new_Task oid t0 (trim t) desc) = trim t.
Proof. cbn. apply trim_idemp. Qed.

Lemma Task_save_ok oid t0 t desc coll :
  trim t ≠ [] →
  Task_save None (new_Task oid t0 (trim t) desc) coll
  = Return (coll ++ [inserted (new_Task oid t0 (trim t) desc)]).
Proof.
  intros Ht. unfold Task_save, validate_path.
  rewrite new_Task_title. cbn [required TaskSchema_title TaskSchema_description andb].
  by rewrite bool_decide_eq_false_2.
Qed.

Lemma Task_save_fault e doc coll :
  ∃ e', Task_save (Some e) doc coll = Throw e'.
Proof.
  unfold Task_save.
  destruct (validate_path _ _ _) as [[]|e1]; [|by eexists].
  destruct (validate_path _ _ _) as [[]|e2]; by eexists.
Qed.

End task_model.

(** ** The route handlers *)

Section route.

Implicit Types (env : Env) (w : World) (fd : FormData).

Lemma settle_connected st p m :
  promises st !! p = Some Pending →
  conn (cachedDb (settle p (Return m) st)) = Some (connection m).
Proof. intros Hp. unfold settle. by rewrite Hp. Qed.

Lemma settle_caches st p r :
  promises st !! p = Some Pending →
  ∀ c, settled_as r = Return c → conn (cachedDb (settle p r st)) = Some c.
Proof.
  intros Hp c Hr. destruct r as [m|e]; [|done].
  injection Hr as <-. by apply settle_connected.
Qed.

(** A request always gets past [await connectToDatabase()], one way or the
    other, and the tasks collection is not touched by it. *)
Lemma await_connectToDatabase_spec env w :
  cache_consistent (proc w) →
  ∃ w1, await_connectToDatabase env w = Some (connect_result env w, w1)
    ∧ tasks w1 = tasks w
    ∧ cache_consistent (proc w1)
    ∧ (∀ c, connect_result env w = Return c → conn (cachedDb (proc w1)) = Some c).
Proof.
  intros Hcons. unfold await_connectToDatabase, connect_result.
  destruct (conn (cachedDb (proc w))) as [c|] eqn:Ec.
  - rewrite (connectToDatabase_cached _ c Ec). cbn.
    eexists. split; [done|]. cbn. split; [done|]. split; [exact Hcons|].
    by intros ? [= <-].
  - destruct (promise (cachedDb (proc w))) as [p|] eqn:Ep.
    + rewrite (connectToDatabase_in_flight _ p Ec Ep).
      assert (promises (proc w) !! p = Some Pending) as Hp.
      { destruct Hcons as [Hc _]. rewrite Ep, Ec in Hc.
        by destruct Hc as [[? _]|[c [_ ?]]]. }
      rewrite (settle_pending_await _ _ _ Hp).
      eexists. split; [done|]. cbn. split; [done|].
      split; [by apply cache_consistent_settle|].
      by apply settle_caches.
    + destruct (connectToDatabase_start _ Ec Ep)
        as (st' & Hcall & Hc1 & Hp1 & Hps & Hcc & _).
      pose proof (cache_consistent_connectToDatabase _ Hcons) as Hcons'.
      rewrite Hcall in *. cbn [snd] in Hcons'.
      assert (promises st' !! length (promises (proc w)) = Some Pending) as Hp
        by by rewrite Hps, lookup_app_r, Nat.sub_diag.
      rewrite (settle_pending_await _ _ _ Hp).
      eexists. split; [done|]. cbn. split; [done|].
      split; [by apply cache_consistent_settle|].
      by apply settle_caches.
Qed.

(** The loader, case by case. *)
Lemma loader_cases env w w1 :
  await_connectToDatabase env w = Some (connect_result env w, w1) →
  loader env w
  = Some
      match connect_result env w with
      | Throw e =>
          (Thrown load_failed, console_write (console_error "Failed to load tasks:" e) w1)
      | Return _ =>
          match Task_find_sort_lean (store_fault env) (tie_break env) (tasks w1) with
          | Throw e =>
              (Thrown load_failed,
               console_write (console_error "Failed to load tasks:" e) w1)
          | Return docs =>
              match map_throwing serialize docs with
              | Throw e =>
                  (Thrown load_failed,
                   console_write (console_error "Failed to load tasks:" e) w1)
              | Return ser => (Returned (json (tasks_body ser) 200), w1)
              end
          end
      end.
Proof.
  intros Ha. unfold loader, try_catch, bind. rewrite Ha.
  destruct (connect_result env w) as [c|e]; [|done].
  unfold find_tasks. destruct (Task_find_sort_lean _ _) as [docs|e]; [|done].
  unfold lift. by destruct (map_throwing serialize docs).
Qed.

(** The action, case by case. *)
Lemma action_cases env w w1 :
  await_connectToDatabase env w = Some (connect_result env w, w1) →
  action env w
  = Some
      match connect_result env w, form_data env with
      | Throw e, _ | Return _, Throw e =>
          (Returned add_failed, console_write (console_error "Failed to add task:" e) w1)
      | Return _, Return fd =>
          match formData_get "title" fd with
          | Some (FString t) =>
              if bool_decide (trim t = []) then (Returned title_required, w1)
              else
                match description_arg (formData_get "description" fd) with
                | Throw e =>
                    (Returned add_failed,
                     console_write (console_error "Failed to add task:" e) w1)
                | Return d =>
                    match Task_save (store_fault env)
                            (new_Task (new_oid env) (now env) (trim t) d) (tasks w1) with
                    | Throw e =>
                        (Returned add_failed,
                         console_write (console_error "Failed to add task:" e) w1)
                    | Return coll =>
                        (Returned (redirect "/"), {| proc := proc w1; tasks := coll |})
                    end
                end
          | _ => (Returned title_required, w1)
          end
      end.
Proof.
  intros Ha. unfold action, try_catch, bind. rewrite Ha.
  destruct (connect_result env w) as [c|e]; [|done].
  unfold lift. destruct (form_data env) as [fd|e]; [|done].
  destruct (formData_get "title" fd) as [[t|f]|] eqn:Et; [|done..].
  unfold title_rejected. cbn [truthy typeof_string negb orb].
  destruct (decide (trim t = [])) as [Hempty|Hne].
  - rewrite (bool_decide_eq_true_2 _ Hempty).
    assert (bool_decide (length (trim t) = 0%nat) = true) as ->
      by (apply bool_decide_eq_true_2; by rewrite Hempty).
    by rewrite orb_true_r.
  - rewrite (bool_decide_eq_false_2 _ Hne).
    assert (bool_decide (length (trim t) = 0%nat) = false) as ->.
    { apply bool_decide_eq_false_2. intros Hl. by apply nil_length_inv in Hl. }
    assert (bool_decide (t = []) = false) as ->.
    { apply bool_decide_eq_false_2. by intros ->. }
    cbn [negb orb].
    destruct (description_arg _) as [d|e]; [|done].
    unfold save_task. by destruct (Task_save _ _ _).
Qed.

(** Requests complete, and keep the cache consistent: the invariant holds
    along any sequence of requests served by a freshly evaluated module. *)
Lemma loader_completes env w :
  cache_consistent (proc w) →
  ∃ c w', loader env w = Some (c, w') ∧ cache_consistent (proc w') ∧ tasks w' = tasks w.
Proof.
  intros Hcons.
  destruct (await_connectToDatabase_spec env w Hcons) as (w1 & Ha & Ht & Hcons1 & _).
  rewrite (loader_cases env w w1 Ha).
  destruct (connect_result env w); [|by eexists _, _].
  destruct (Task_find_sort_lean _ _); [|by eexists _, _].
  destruct (map_throwing _ _); by eexists _, _.
Qed.

Lemma action_completes env w :
  cache_consistent (proc w) →
  ∃ c w', action env w = Some (c, w') ∧ cache_consistent (proc w').
Proof.
  intros Hcons.
  destruct (await_connectToDatabase_spec env w Hcons) as (w1 & Ha & Ht & Hcons1 & _).
  rewrite (action_cases env w w1 Ha).
  destruct (connect_result env w); [|by eexists _, _].
  destruct (form_data env) as [fd|]; [|by eexists _, _].
  destruct (formData_get "title" fd) as [[t|f]|]; [|by eexists _, _..].
  destruct (bool_decide _); [by eexists _, _|].
  destruct (description_arg _); [|by eexists _, _].
  destruct (Task_save _ _ _); by eexists _, _.
Qed.

Lemma title_rejected_iff v : title_rejected v = true ↔ title_invalid v.
Proof.
  unfold title_rejected, title_invalid. destruct v as [[s|f]|]; cbn.
  - split.
    + intros H. right; right. exists s. split; [done|].
      destruct (decide (s = [])) as [->|Hs]; [done|].
      rewrite (bool_decide_eq_false_2 _ Hs) in H. cbn in H.
      apply bool_decide_eq_true_1 in H. by apply nil_length_inv.
    + intros [?|[[f ?]|[s' [[= <-] Ht]]]]; [done..|].
      assert (bool_decide (length (trim s) = 0%nat) = true) as ->
        by (apply bool_decide_eq_true_2; by rewrite Ht).
      by rewrite orb_true_r.
  - split; [|done]. intros _. right; left. by exists f.
  - split; [|done]. intros _. by left.
Qed.

End route.

(** ** Serialised identifiers and timestamps *)

Section serialisation.

Lemma matches_app p1 p2 s1 s2 :
  matches p1 s1 = true → matches p2 s2 = true → matches (p1 ++ p2) (s1 ++ s2) = true.
Proof.
  revert s1. induction p1 as [|p p1 IH]; intros [|c s1]; cbn; try done.
  intros [Hc H1]%andb_true_iff H2. by rewrite Hc, IH.
Qed.

Lemma digit_is_digit n : is_digit (Z.to_N (48 + n mod 10)) = true.
Proof.
  pose proof (Z.mod_pos_bound n 10). unfold is_digit.
  apply andb_true_iff. split; apply N.leb_le; lia.
Qed.

Lemma matches_pad w n : matches (replicate w 100%N) (pad w n) = true.
Proof.
  revert n. induction w as [|w IH]; intros n; [done|].
  cbn [pad]. rewrite replicate_S_end. apply matches_app; [apply IH|].
  cbn. by rewrite digit_is_digit.
Qed.

Lemma iso_year_shape y rest tail :
  matches tail rest = true →
  matches (lit "dddd" ++ tail) (iso_year y ++ rest) = true
  ∨ matches (lit "+dddddd" ++ tail) (iso_year y ++ rest) = true
  ∨ matches (lit "-dddddd" ++ tail) (iso_year y ++ rest) = true.
Proof.
  intros Ht. unfold iso_year. destruct ((0 <=? y) && (y <=? 9999)).
  - left. apply matches_app; [apply (matches_pad 4)|done].
  - destruct (y <? 0).
    + right; right. apply matches_app; [|done].
      apply (matches_app [45%N] _ [45%N]); [done|apply (matches_pad 6)].
    + right; left. apply matches_app; [|done].
      apply (matches_app [43%N] _ [43%N]); [done|apply (matches_pad 6)].
Qed.

(** Whatever [toISOString] returns has the ISO shape. *)
Lemma toISOString_shape t s : toISOString t = Return s → iso_shape s = true.
Proof.
  unfold toISOString. destruct (valid_time t); [|done].
  destruct (civil_from_days (t / msPerDay)) as [[y m] d]. intros [= <-].
  assert (matches (lit "-dd-ddTdd:dd:dd.dddZ")
            (lit "-" ++ pad 2 m ++ lit "-" ++ pad 2 d ++ lit "T"
             ++ pad 2 (t mod msPerDay / 3600000) ++ lit ":"
             ++ pad 2 (t mod msPerDay / 60000 mod 60) ++ lit ":"
             ++ pad 2 (t mod msPerDay / 1000 mod 60) ++ lit "."
             ++ pad 3 (t mod msPerDay mod 1000) ++ lit "Z") = true) as Htail.
  { apply (matches_app [45%N] _ [45%N]); [done|].
    apply (matches_app (replicate 2 100%N)); [apply matches_pad|].
    apply (matches_app [45%N] _ [45%N]); [done|].
    apply (matches_app (replicate 2 100%N)); [apply matches_pad|].
    apply (matches_app [84%N] _ [84%N]); [done|].
    apply (matches_app (replicate 2 100%N)); [apply matches_pad|].
    apply (matches_app [58%N] _ [58%N]); [done|].
    apply (matches_app (replicate 2 100%N)); [apply matches_pad|].
    apply (matches_app [58%N] _ [58%N]); [done|].
    apply (matches_app (replicate 2 100%N)); [apply matches_pad|].
    apply (matches_app [46%N] _ [46%N]); [done|].
    by apply (matches_app (replicate 3 100%N)); [apply matches_pad|]. }
  unfold iso_shape. rewrite !orb_true_iff.
  destruct (iso_year_shape y _ _ Htail) as [H|[H|H]]; [left; left|left; right|right];
    exact H.
Qed.

(** [pad] prints a number that fits its width. *)
Lemma pad_value w n : 0 ≤ n < 10 ^ Z.of_nat w → digits_value (pad w n) = n.
Proof.
  revert n. induction w as [|w IH]; intros n Hn.
  - cbn in *. lia.
  - cbn [pad]. unfold digits_value in *. rewrite foldl_app. cbn [foldl].
    rewrite Nat2Z.inj_succ, Z.pow_succ_r in Hn by lia.
    rewrite IH by (Z.div_mod_to_equations; lia).
    pose proof (Z.mod_pos_bound n 10). rewrite Z2N.id by lia.
    Z.div_mod_to_equations; lia.
Qed.

(** The calendar fields are in range: months 1-12, days 1-31, and for a
    valid date a year that fits six digits. *)
Lemma civil_from_days_range days :
  1 ≤ (civil_from_days days).1.2 ≤ 12 ∧ 1 ≤ (civil_from_days days).2 ≤ 31.
Proof.
  unfold civil_from_days. cbv zeta. cbn [fst snd].
  pose proof (Z.mod_pos_bound (days + 719468) 146097 eq_refl) as Hdoe.
  set (doe := (days + 719468) mod 146097) in *.
  set (yoe := (doe - doe / 1460 + doe / 36524 - doe / 146096) / 365).
  assert (0 ≤ doe - (365 * yoe + yoe / 4 - yoe / 100) ≤ 365) as Hdoy
    by (subst yoe; Z.div_mod_to_equations; lia).
  set (doy := doe - (365 * yoe + yoe / 4 - yoe / 100)) in *.
  assert (0 ≤ (5 * doy + 2) / 153 ≤ 11) as Hmp by (Z.div_mod_to_equations; lia).
  assert (1 ≤ doy - (153 * ((5 * doy + 2) / 153) + 2) / 5 + 1 ≤ 31) as Hd
    by (Z.div_mod_to_equations; lia).
  split; [|exact Hd].
  destruct (_ <? 10) eqn:E; [apply Z.ltb_lt in E|apply Z.ltb_ge in E]; lia.
Qed.

Lemma civil_from_days_year t :
  valid_time t = true →
  Z.abs (civil_from_days (t / msPerDay)).1.1 < 10 ^ 6.
Proof.
  unfold valid_time, maxTimeValue, msPerDay. rewrite andb_true_iff, !Z.leb_le.
  intros [H1 H2]. unfold civil_from_days. cbv zeta. cbn [fst snd].
  set (days := t / 86400000).
  assert (-100000000 ≤ days ≤ 100000000) as Hdays
    by (subst days; Z.div_mod_to_equations; lia).
  pose proof (Z.mod_pos_bound (days + 719468) 146097 eq_refl) as Hdoe.
  set (doe := (days + 719468) mod 146097) in *.
  set (yoe := (doe - doe / 1460 + doe / 36524 - doe / 146096) / 365).
  assert (0 ≤ yoe ≤ 399) as Hyoe by (subst yoe; Z.div_mod_to_equations; lia).
  assert (-680 ≤ (days + 719468) / 146097 ≤ 689) as Hera
    by (Z.div_mod_to_equations; lia).
  change (10 ^ 6) with 1000000. destruct (_ <=? 2); lia.
Qed.

Lemma toISOString_valid t : valid_time t = true → ∃ s, toISOString t = Return s.
Proof.
  intros H. unfold toISOString. rewrite H.
  destruct (civil_from_days _) as [[y m] d]. by eexists.
Qed.

Lemma toISOString_invalid t :
  valid_time t = false → toISOString t = Throw (RangeError "Invalid time value").
Proof. intros H. unfold toISOString. by rewrite H. Qed.

(** An [ObjectId] prints as two lower-case hexadecimal digits per byte. *)
Lemma hex_digit_is_hex d : (d < 16)%N → is_hex (hex_digit d) = true.
Proof.
  intros Hd. unfold is_hex, is_digit, hex_digit.
  destruct (d <? 10)%N eqn:E.
  - apply N.ltb_lt in E. apply orb_true_iff. left.
    apply andb_true_iff. split; apply N.leb_le; lia.
  - apply N.ltb_ge in E. apply orb_true_iff. right.
    apply andb_true_iff. split; apply N.leb_le; lia.
Qed.

Lemma ObjectId_toString_hex o :
  Forall (λ c, is_hex c = true) (ObjectId_toString o)
  ∧ length (ObjectId_toString o) = (2 * length (id_bytes o))%nat.
Proof.
  unfold ObjectId_toString. induction (id_bytes o) as [|b l [IH1 IH2]]; [done|].
  cbn [flat_map app length]. split.
  - repeat constructor; [apply hex_digit_is_hex..|done].
    + apply N.mod_lt. lia.
    + apply N.mod_lt. lia.
  - rewrite IH2. lia.
Qed.

Lemma serialize_Return task s :
  serialize task = Return s ↔ valid_time (createdAt task) = true ∧ s = serialized task.
Proof.
  unfold serialize, serialized. split.
  - destruct (valid_time (createdAt task)) eqn:Hv.
    + destruct (toISOString_valid _ Hv) as [iso ->]. by intros [= <-].
    + by rewrite (toISOString_invalid _ Hv).
  - intros [Hv ->]. by destruct (toISOString_valid _ Hv) as [iso ->].
Qed.

Lemma map_throwing_serialize docs :
  match map_throwing serialize docs with
  | Return ser =>
      ser = map serialized docs ∧ Forall (λ d, valid_time (createdAt d) = true) docs
  | Throw e =>
      e = RangeError "Invalid time value"
      ∧ Exists (λ d, valid_time (createdAt d) = false) docs
  end.
Proof.
  induction docs as [|d docs IH]; [done|]. cbn [map_throwing].
  destruct (valid_time (createdAt d)) eqn:Hv.
  - assert (serialize d = Return (serialized d)) as -> by by apply serialize_Return.
    destruct (map_throwing serialize docs) as [ser|e].
    + destruct IH as [-> IH]. split; [done|by constructor].
    + destruct IH as [-> IH]. split; [done|by apply Exists_cons_tl].
  - unfold serialize. rewrite (toISOString_invalid _ Hv).
    split; [done|by apply Exists_cons_hd].
Qed.

Lemma map_throwing_serialize_valid docs :
  Forall (λ d, valid_time (createdAt d) = true) docs →
  map_throwing serialize docs = Return (map serialized docs).
Proof.
  intros Hall. pose proof (map_throwing_serialize docs) as H.
  destruct (map_throwing serialize docs) as [ser|e]; [by destruct H as [-> _]|].
  destruct H as [_ Hex]. apply Exists_exists in Hex as (d & Hd & Hv).
  rewrite Forall_forall in Hall. specialize (Hall d Hd). congruence.
Qed.

End serialisation.

(** ** Dates, written and read back *)

Section dates.

Lemma leap_arith y :
  ((y + 1) / 4 - y / 4) - ((y + 1) / 100 - y / 100) + ((y + 1) / 400 - y / 400)
  = if InLeapYear (y + 1) then 1 else 0.
Proof.
  unfold InLeapYear.
  destruct (Z.eqb_spec ((y + 1) mod 4) 0); destruct (Z.eqb_spec ((y + 1) mod 100) 0);
    destruct (Z.eqb_spec ((y + 1) mod 400) 0); cbn [andb orb negb];
    Z.div_mod_to_equations; lia.
Qed.

Lemma InLeapYear_era y era : InLeapYear (y + era * 400) = InLeapYear y.
Proof.
  unfold InLeapYear.
  replace ((y + era * 400) mod 4) with (y mod 4) by (Z.div_mod_to_equations; lia).
  replace ((y + era * 400) mod 100) with (y mod 100) by (Z.div_mod_to_equations; lia).
  by replace ((y + era * 400) mod 400) with (y mod 400) by (Z.div_mod_to_equations; lia).
Qed.

(** Year of era and day of year of a day of era. *)
Lemma year_of_era doe :
  0 ≤ doe < 146097 →
  0 ≤ (doe - doe / 1460 + doe / 36524 - doe / 146096) / 365 ≤ 399
  ∧ 0 ≤ doe - (365 * ((doe - doe / 1460 + doe / 36524 - doe / 146096) / 365)
              + (doe - doe / 1460 + doe / 36524 - doe / 146096) / 365 / 4
              - (doe - doe / 1460 + doe / 36524 - doe / 146096) / 365 / 100)
      ≤ 364 + (if InLeapYear ((doe - doe / 1460 + doe / 36524 - doe / 146096) / 365 + 1)
               then 1 else 0).
Proof.
  intros H. rewrite <- leap_arith. Z.div_mod_to_equations; lia.
Qed.

Ltac eval_tests :=
  repeat match goal with
    | |- context [?a =? ?b] =>
        let v := eval vm_compute in (a =? b) in change (a =? b) with v
    | |- context [?a <? ?b] =>
        let v := eval vm_compute in (a <? b) in change (a <? b) with v
    end.

Lemma month_day_bound doy (leap : bool) :
  0 ≤ doy ≤ 364 + (if leap then 1 else 0) →
  0 ≤ (5 * doy + 2) / 153 ≤ 11
  ∧ 1 ≤ doy - (153 * ((5 * doy + 2) / 153) + 2) / 5 + 1
      ≤ (let m := if (5 * doy + 2) / 153 <? 10 then (5 * doy + 2) / 153 + 3
                   else (5 * doy + 2) / 153 - 9 in
          if m =? 2 then (if leap then 29 else 28)
          else if (m =? 4) || (m =? 6) || (m =? 9) || (m =? 11) then 30 else 31).
Proof.
  intros H.
  assert (0 ≤ (5 * doy + 2) / 153 ≤ 11) as Hmp
    by (destruct leap; Z.div_mod_to_equations; lia).
  split; [done|].
  assert (153 * ((5 * doy + 2) / 153) ≤ 5 * doy + 2 < 153 * ((5 * doy + 2) / 153) + 153)
    as Hdiv by (Z.div_mod_to_equations; lia).
  remember ((5 * doy + 2) / 153) as mp eqn:Emp. clear Emp.
  assert (mp = 0 ∨ mp = 1 ∨ mp = 2 ∨ mp = 3 ∨ mp = 4 ∨ mp = 5 ∨ mp = 6
          ∨ mp = 7 ∨ mp = 8 ∨ mp = 9 ∨ mp = 10 ∨ mp = 11) as Hcases by lia.
  destruct Hcases as [H0|[H0|[H0|[H0|[H0|[H0|[H0|[H0|[H0|[H0|[H0|H0]]]]]]]]]]];
    subst mp; cbv zeta; eval_tests; cbn [orb]; cbv iota;
    destruct leap; cbv iota in H; Z.div_mod_to_equations; lia.
Qed.

Lemma DaysInMonth_civil y m :
  DaysInMonth (if m <=? 2 then y + 1 else y) m
  = if m =? 2 then (if InLeapYear (y + 1) then 29 else 28)
    else if (m =? 4) || (m =? 6) || (m =? 9) || (m =? 11) then 30 else 31.
Proof. unfold DaysInMonth. by destruct (Z.eqb_spec m 2) as [->|]. Qed.

(** The day of month is one the month has. *)
Lemma civil_day_legal days :
  1 ≤ (civil_from_days days).2
    ≤ DaysInMonth (civil_from_days days).1.1 (civil_from_days days).1.2.
Proof.
  unfold civil_from_days. cbv zeta. cbn [fst snd]. rewrite DaysInMonth_civil.
  pose proof (Z.mod_pos_bound (days + 719468) 146097 eq_refl) as Hdoe.
  destruct (year_of_era _ Hdoe) as [Hyoe Hdoy].
  set (yoe := (_ - _ + _ - _) / 365) in *.
  replace (yoe + (days + 719468) / 146097 * 400 + 1)
    with (yoe + 1 + (days + 719468) / 146097 * 400) by lia.
  rewrite InLeapYear_era.
  apply (month_day_bound _ _ Hdoy).
Qed.

(** Day number to date and back. *)
Lemma days_from_civil_from_days days :
  days_from_civil (civil_from_days days).1.1 (civil_from_days days).1.2
    (civil_from_days days).2 = days.
Proof.
  unfold civil_from_days, days_from_civil. cbv zeta. cbn [fst snd].
  pose proof (Z.mod_pos_bound (days + 719468) 146097 eq_refl) as Hdoe.
  pose proof (Z.div_mod (days + 719468) 146097 ltac:(lia)) as Hdm.
  destruct (year_of_era _ Hdoe) as [Hyoe Hdoy].
  set (era := (days + 719468) / 146097) in *.
  set (doe := (days + 719468) mod 146097) in *.
  set (yoe := (doe - doe / 1460 + doe / 36524 - doe / 146096) / 365) in *.
  destruct (month_day_bound _ _ Hdoy) as [Hmp _].
  set (doy := doe - (365 * yoe + yoe / 4 - yoe / 100)) in *.
  set (mp := (5 * doy + 2) / 153) in *.
  assert ((yoe + era * 400) / 400 = era) as He by (Z.div_mod_to_equations; lia).
  assert ((yoe + era * 400) mod 400 = yoe) as Hy by (Z.div_mod_to_equations; lia).
  destruct (mp <? 10) eqn:E; [apply Z.ltb_lt in E|apply Z.ltb_ge in E].
  - assert ((mp + 3 <=? 2) = false) as -> by (apply Z.leb_gt; lia).
    assert ((2 <? mp + 3) = true) as -> by (apply Z.ltb_lt; lia).
    replace (mp + 3 - 3) with mp by lia. rewrite He, Hy.
    unfold doy. lia.
  - assert ((mp - 9 <=? 2) = true) as -> by (apply Z.leb_le; lia).
    assert ((2 <? mp - 9) = false) as -> by (apply Z.ltb_ge; lia).
    replace (mp - 9 + 9) with mp by lia.
    replace (yoe + era * 400 + 1 - 1) with (yoe + era * 400) by lia.
    rewrite He, Hy. unfold doy. lia.
Qed.

Lemma digit_read n :
  0 ≤ n < 10 →
  is_digit (Z.to_N (48 + n)) = true ∧ Z.of_N (Z.to_N (48 + n)) - 48 = n.
Proof.
  intros H. split; [|lia]. unfold is_digit.
  apply andb_true_iff. split; apply N.leb_le; lia.
Qed.

(** Reading back what [pad] printed. *)
Lemma take_digits_pad w k acc v rest :
  0 ≤ v < 10 ^ Z.of_nat w →
  take_digits (w + k) acc (pad w v ++ rest)
  = take_digits k (acc * 10 ^ Z.of_nat w + v) rest.
Proof.
  revert k v rest. induction w as [|w IH]; intros k v rest Hv.
  - cbn in *. f_equal. lia.
  - rewrite Nat2Z.inj_succ, Z.pow_succ_r in Hv by lia.
    cbn [pad]. rewrite <- app_assoc. cbn [app].
    replace (S w + k)%nat with (w + S k)%nat by lia.
    rewrite IH by (Z.div_mod_to_equations; lia). cbn [take_digits].
    destruct (digit_read (v mod 10)) as [-> ->]; [apply Z.mod_pos_bound; lia|].
    f_equal. rewrite Nat2Z.inj_succ, Z.pow_succ_r by lia.
    Z.div_mod_to_equations; lia.
Qed.

Lemma take_digits_pad0 w v rest :
  0 ≤ v < 10 ^ Z.of_nat w → take_digits w 0 (pad w v ++ rest) = Some (v, rest).
Proof.
  intros Hv. pose proof (take_digits_pad w 0 0 v rest Hv) as H.
  rewrite Nat.add_0_r in H. rewrite H. cbn [take_digits].
  by replace (0 * 10 ^ Z.of_nat w + v) with v by lia.
Qed.

Lemma pad_cons w v : ∃ c s, pad (S w) v = c :: s ∧ is_digit c = true.
Proof.
  revert v. induction w as [|w IH]; intros v.
  - eexists _, []. split; [done|]. apply digit_is_digit.
  - destruct (IH (v / 10)) as (c & s & Hp & Hc).
    exists c, (s ++ [Z.to_N (48 + v mod 10)]). split; [|done].
    change (pad (S (S w)) v) with (pad (S w) (v / 10) ++ [Z.to_N (48 + v mod 10)]).
    by rewrite Hp.
Qed.

Lemma take_year_iso y rest :
  Z.abs y < 10 ^ 6 → take_year (iso_year y ++ rest) = Some (y, rest).
Proof.
  intros Hy. unfold iso_year.
  destruct ((0 <=? y) && (y <=? 9999)) eqn:E.
  - apply andb_true_iff in E as [E1%Z.leb_le E2%Z.leb_le].
    destruct (pad_cons 3 y) as (c & s & Hp & Hc).
    assert (take_year (pad 4 y ++ rest) = take_digits 4 0 (pad 4 y ++ rest)) as ->.
    { rewrite Hp. cbn [app]. unfold take_year.
      unfold is_digit in Hc. apply andb_true_iff in Hc as [Hc%N.leb_le _].
      assert ((c =? 43)%N = false) as -> by (apply N.eqb_neq; lia).
      by assert ((c =? 45)%N = false) as -> by (apply N.eqb_neq; lia). }
    apply take_digits_pad0. change (10 ^ Z.of_nat 4) with 10000. lia.
  - destruct (y <? 0) eqn:Es; [apply Z.ltb_lt in Es|apply Z.ltb_ge in Es].
    + change (lit "-") with [45%N]. cbn [app take_year].
      change ((45 =? 43)%N) with false. change ((45 =? 45)%N) with true. cbv iota.
      rewrite take_digits_pad0 by (change (10 ^ Z.of_nat 6) with (10 ^ 6); lia).
      cbn. assert ((Z.abs y =? 0) = false) as -> by (apply Z.eqb_neq; lia).
      do 2 f_equal. lia.
    + change (lit "+") with [43%N]. cbn [app take_year].
      change ((43 =? 43)%N) with true. cbv iota.
      rewrite take_digits_pad0 by (change (10 ^ Z.of_nat 6) with (10 ^ 6); lia).
      do 2 f_equal. lia.
Qed.

Lemma expect_cons c rest : expect c ([c] ++ rest) = Some rest.
Proof. cbn. by rewrite N.eqb_refl. Qed.

Lemma toISOString_text t s : toISOString t = Return s → s = iso_text t.
Proof.
  unfold toISOString, iso_text. destruct (valid_time t); [|done].
  destruct (civil_from_days (t / msPerDay)) as [[y m] d]. cbn [fst snd].
  intros [= <-]. reflexivity.
Qed.

(** What [toISOString] writes, the date-time format reads back. *)
Lemma parse_iso_text t : valid_time t = true → parse_iso (iso_text t) = Some t.
Proof.
  intros Hv. unfold iso_text.
  pose proof (civil_from_days_range (t / msPerDay)) as [Hm Hd].
  pose proof (civil_from_days_year t Hv) as Hy.
  pose proof (civil_day_legal (t / msPerDay)) as Hlegal.
  pose proof (days_from_civil_from_days (t / msPerDay)) as Hback.
  destruct (civil_from_days (t / msPerDay)) as [[y m] d]. cbn [fst snd] in *.
  unfold parse_iso.
  pose proof (Z.mod_pos_bound t msPerDay eq_refl) as Hr.
  pose proof (Z.div_mod t msPerDay ltac:(done)) as Ht.
  set (r := t mod msPerDay) in *. unfold msPerDay in Hr.
  rewrite take_year_iso by done. cbn [mbind option_bind].
  rewrite (expect_cons 45). cbn [mbind option_bind].
  rewrite take_digits_pad0 by (change (10 ^ Z.of_nat 2) with 100; lia).
  cbn [mbind option_bind]. rewrite (expect_cons 45). cbn [mbind option_bind].
  rewrite take_digits_pad0 by (change (10 ^ Z.of_nat 2) with 100; lia).
  cbn [mbind option_bind]. rewrite (expect_cons 84). cbn [mbind option_bind].
  rewrite take_digits_pad0
    by (change (10 ^ Z.of_nat 2) with 100; Z.div_mod_to_equations; lia).
  cbn [mbind option_bind]. rewrite (expect_cons 58). cbn [mbind option_bind].
  rewrite take_digits_pad0
    by (change (10 ^ Z.of_nat 2) with 100; Z.div_mod_to_equations; lia).
  cbn [mbind option_bind]. rewrite (expect_cons 58). cbn [mbind option_bind].
  rewrite take_digits_pad0
    by (change (10 ^ Z.of_nat 2) with 100; Z.div_mod_to_equations; lia).
  cbn [mbind option_bind]. rewrite (expect_cons 46). cbn [mbind option_bind].
  rewrite take_digits_pad0
    by (change (10 ^ Z.of_nat 3) with 1000; Z.div_mod_to_equations; lia).
  cbn [mbind option_bind]. rewrite (expect_cons 90 []). cbn [mbind option_bind].
  rewrite bool_decide_eq_true_2 by done.
  assert (legal_fields y m d (r / 3600000) (r / 60000 mod 60) (r / 1000 mod 60)
            (r mod 1000) = true) as ->.
  { unfold legal_fields. rewrite !andb_true_iff, orb_true_iff, !andb_true_iff, !Z.leb_le.
    split; [lia|]. left. Z.div_mod_to_equations; lia. }
  cbn [andb]. f_equal. rewrite Hback. unfold msPerDay in *.
  Z.div_mod_to_equations; lia.
Qed.

(** The round trip of [createdAt] from the loader to the page: the ISO
    string the loader writes for a stored date is read back by
    [new Date(...)] as that very date, whatever the engine does with
    strings in other formats. *)
Theorem new_Date_toISOString other_formats t s :
  toISOString t = Return s → new_Date other_formats s = Some t.
Proof.
  intros H. assert (valid_time t = true) as Hv
    by (revert H; unfold toISOString; by destruct (valid_time t)).
  rewrite (toISOString_text t s H). unfold new_Date.
  by rewrite (parse_iso_text t Hv), Hv.
Qed.

Lemma new_Date_toISOString_witness :
  new_Date (λ _, None) (lit "2023-11-14T22:13:20.000Z") = Some 1700000000000.
Proof.
  apply (new_Date_toISOString (λ _, None) 1700000000000). reflexivity.
Defined.

End dates.

(** ** The write path *)

Section write_path.

Implicit Types (env : Env) (w : World) (fd : FormData).

(** The action as C4 states it fails: the connection is awaited before the
    title is looked at. With a blank title and an unreachable store the
    answer is the 500 message, not the 400 validation error; and with a
    reachable store the 400 is given after [mongoose.connect] was called. *)
Lemma C4_counterexample :
  title_invalid (Some (FString (lit "  ")))
  ∧ fst <$> action blank_title_refused fresh_world = Some (Returned add_failed)
  ∧ fst <$> action blank_title_reachable fresh_world = Some (Returned title_required)
  ∧ connect_calls ∘ proc ∘ snd <$> action blank_title_reachable fresh_world
    = Some ["mongodb://localhost/tasks"%string]
  ∧ connect_calls (proc fresh_world) = []
  ∧ add_failed ≠ title_required.
Proof.
  split; [right; right; by eexists|]. by vm_compute.
Qed.

(** C4 (amended): for a title that is missing, not a string, or empty after
    trimming, the action first awaits the connection; when that succeeds it
    returns [{ errors: { title: "Title is required." } }] with status 400
    and does nothing more, and when the connection fails it returns the 500
    message. In both cases no document is saved: the collection is
    unchanged. *)
Theorem C4_invalid_title_not_saved env w fd :
  cache_consistent (proc w) →
  form_data env = Return fd →
  title_invalid (formData_get "title" fd) →
  ∃ w1, await_connectToDatabase env w = Some (connect_result env w, w1)
    ∧ tasks w1 = tasks w
    ∧ ∃ w', action env w
            = Some (match connect_result env w with
                    | Return _ => Returned title_required
                    | Throw _ => Returned add_failed
                    end, w')
        ∧ tasks w' = tasks w
        ∧ (∀ c, connect_result env w = Return c → w' = w1).
Proof.
  intros Hcons Hfd Hinv.
  destruct (await_connectToDatabase_spec env w Hcons) as (w1 & Ha & Ht & _).
  exists w1. split; [done|]. split; [done|].
  rewrite (action_cases env w w1 Ha), Hfd.
  destruct (connect_result env w) as [c|e].
  - destruct Hinv as [->|[[f ->]|[s [-> Hs]]]];
      [eexists; split; [done|]; by split..|].
    rewrite (bool_decide_eq_true_2 _ Hs). eexists; split; [done|]. by split.
  - eexists; split; [done|]. by split.
Qed.

Lemma C4_invalid_title_not_saved_witness :
  (cache_consistent (proc fresh_world)
   ∧ form_data blank_title_reachable = Return [("title"%string, FString (lit "  "))]
   ∧ title_invalid (formData_get "title" [("title"%string, FString (lit "  "))]))
  ∧ ∃ w1, await_connectToDatabase blank_title_reachable fresh_world
          = Some (connect_result blank_title_reachable fresh_world, w1)
    ∧ tasks w1 = tasks fresh_world
    ∧ ∃ w', action blank_title_reachable fresh_world
            = Some (match connect_result blank_title_reachable fresh_world with
                    | Return _ => Returned title_required
                    | Throw _ => Returned add_failed
                    end, w')
        ∧ tasks w' = tasks fresh_world
        ∧ (∀ c, connect_result blank_title_reachable fresh_world = Return c → w' = w1).
Proof.
  assert (cache_consistent (proc fresh_world)) as Hc
    by apply cache_consistent_fresh.
  assert (title_invalid (formData_get "title" [("title"%string, FString (lit "  "))]))
    as Ht by (right; right; by eexists).
  split; [done|].
  apply (C4_invalid_title_not_saved blank_title_reachable fresh_world
           [("title"%string, FString (lit "  "))]); [exact Hc|reflexivity|exact Ht].
Defined.

Lemma description_arg_textual v :
  textual v →
  ∃ d, description_arg v = Return d ∧ trim d = stored_description v.
Proof.
  intros Hv. destruct v as [[d|f]|]; [|by destruct (Hv f)|by exists []].
  unfold description_arg. cbn. destruct (decide (d = [])) as [->|Hd].
  - by exists [].
  - rewrite (bool_decide_eq_false_2 _ Hd). cbn. exists (trim d).
    split; [done|apply trim_idemp].
Qed.

(** The document the action builds from a valid form. *)
Lemma new_Task_fields env t d v :
  trim d = stored_description v →
  title (new_Task (new_oid env) (now env) (trim t) d) = trim t
  ∧ description (new_Task (new_oid env) (now env) (trim t) d) = stored_description v
  ∧ createdAt (new_Task (new_oid env) (now env) (trim t) d) = now env.
Proof. intros Hd. split; [apply trim_idemp|]. by split. Qed.

(** C8: with a valid title and a textual or absent description, once the
    connection is there, the action answers as the save goes: the 500
    message when the store refuses the insert, leaving the collection as it
    was, and a redirect to "/" when the document is saved, the collection
    then ending with the new document. *)
Theorem C8_save_failure_or_redirect env w fd t c :
  cache_consistent (proc w) →
  form_data env = Return fd →
  formData_get "title" fd = Some (FString t) →
  trim t ≠ [] →
  textual (formData_get "description" fd) →
  connect_result env w = Return c →
  ∃ w', action env w
        = Some (match store_fault env with
                | Some _ => Returned add_failed
                | None => Returned (redirect "/")
                end, w')
    ∧ match store_fault env with
      | Some _ => tasks w' = tasks w
      | None =>
          ∃ doc, tasks w' = tasks w ++ [doc]
            ∧ title doc = trim t
            ∧ description doc = stored_description (formData_get "description" fd)
            ∧ createdAt doc = now env
      end.
Proof.
  intros Hcons Hfd Ht Hne Hd Hc.
  destruct (await_connectToDatabase_spec env w Hcons) as (w1 & Ha & Htasks & _).
  rewrite (action_cases env w w1 Ha), Hfd, Hc, Ht.
  rewrite (bool_decide_eq_false_2 _ Hne).
  destruct (description_arg_textual _ Hd) as (d & -> & Htrim).
  destruct (store_fault env) as [e|].
  - destruct (Task_save_fault e (new_Task (new_oid env) (now env) (trim t) d) (tasks w1))
      as [e' ->].
    eexists. split; [done|]. done.
  - rewrite (Task_save_ok _ _ _ _ _ Hne). eexists. split; [done|]. cbn [tasks].
    eexists. split; [by rewrite Htasks|]. by apply new_Task_fields.
Qed.

Lemma C8_save_failure_or_redirect_witness :
  ∃ w', action (buy_milk (Some (MongooseError "not primary"))) fresh_world
        = Some (Returned add_failed, w')
    ∧ tasks w' = tasks fresh_world.
Proof.
  apply (C8_save_failure_or_redirect (buy_milk (Some (MongooseError "not primary")))
           fresh_world
           [("title"%string, FString (lit " Buy milk "));
            ("description"%string, FString [])]
           (lit " Buy milk ") {| conn_id := 7 |}).
  - apply cache_consistent_fresh.
  - reflexivity.
  - reflexivity.
  - by vm_compute.
  - intros f. by vm_compute.
  - reflexivity.
Defined.

(** C10: with a valid title and a File as description, the action does not
    answer with the validation error: it answers the 500 message and saves
    nothing. Once the connection is there, what is caught and logged is the
    TypeError of calling [trim] on the File. *)
Theorem C10_file_description env w fd t f :
  cache_consistent (proc w) →
  form_data env = Return fd →
  formData_get "title" fd = Some (FString t) →
  trim t ≠ [] →
  formData_get "description" fd = Some (FFile f) →
  description_arg (formData_get "description" fd)
  = Throw (TypeError "description.trim is not a function")
  ∧ ∃ w', action env w = Some (Returned add_failed, w')
      ∧ Returned add_failed ≠ Returned title_required
      ∧ tasks w' = tasks w
      ∧ (∀ c, connect_result env w = Return c →
           last (console (proc w'))
           = Some (console_error "Failed to add task:"
                     (TypeError "description.trim is not a function"))).
Proof.
  intros Hcons Hfd Ht Hne Hd. rewrite Hd. split; [done|].
  destruct (await_connectToDatabase_spec env w Hcons) as (w1 & Ha & Htasks & _).
  rewrite (action_cases env w w1 Ha), Hfd, Ht, Hd.
  rewrite (bool_decide_eq_false_2 _ Hne).
  destruct (connect_result env w) as [c|e]; cbn.
  - eexists. split; [done|]. split; [done|]. split; [done|].
    intros _ _. cbn. apply last_snoc.
  - eexists. split; [done|]. split; [done|]. split; [done|]. by intros c.
Qed.

Lemma C10_file_description_witness :
  ∃ w', action with_upload fresh_world = Some (Returned add_failed, w')
    ∧ Returned add_failed ≠ Returned title_required
    ∧ tasks w' = tasks fresh_world
    ∧ (∀ c, connect_result with_upload fresh_world = Return c →
         last (console (proc w'))
         = Some (console_error "Failed to add task:"
                   (TypeError "description.trim is not a function"))).
Proof.
  apply (C10_file_description with_upload fresh_world
           [("title"%string, FString (lit "Report"));
            ("description"%string, FFile (lit "notes.txt"))]
           (lit "Report") (lit "notes.txt")).
  - apply cache_consistent_fresh.
  - reflexivity.
  - reflexivity.
  - by vm_compute.
  - reflexivity.
Defined.

(** The action on a valid form, with the connection cached and the store
    accepting the insert. *)
Lemma action_saves env w fd t c :
  cache_consistent (proc w) →
  form_data env = Return fd →
  formData_get "title" fd = Some (FString t) →
  trim t ≠ [] →
  textual (formData_get "description" fd) →
  connect_result env w = Return c →
  store_fault env = None →
  ∃ w' doc, action env w = Some (Returned (redirect "/"), w')
    ∧ tasks w' = tasks w ++ [doc]
    ∧ cache_consistent (proc w')
    ∧ conn (cachedDb (proc w')) = Some c
    ∧ title doc = trim t
    ∧ description doc = stored_description (formData_get "description" fd)
    ∧ createdAt doc = now env.
Proof.
  intros Hcons Hfd Ht Hne Hd Hc Hs.
  destruct (await_connectToDatabase_spec env w Hcons)
    as (w1 & Ha & Htasks & Hcons1 & Hconn).
  rewrite (action_cases env w w1 Ha), Hfd, Hc, Ht, Hs.
  rewrite (bool_decide_eq_false_2 _ Hne).
  destruct (description_arg_textual _ Hd) as (d & -> & Htrim).
  rewrite (Task_save_ok _ _ _ _ _ Hne). eexists _, _. split; [done|]. cbn [tasks proc].
  split; [by rewrite Htasks|]. split; [done|]. split; [by apply Hconn|].
  by apply new_Task_fields.
Qed.

End write_path.

(** ** The read path *)

Section read_path.

Implicit Types (env : Env) (w : World) (docs : list TaskDoc).

Lemma all_valid_sort before docs :
  all_valid (sort_createdAt_desc before docs) ↔ all_valid docs.
Proof. unfold all_valid. by rewrite sort_createdAt_desc_Permutation. Qed.

(** The loader returns exactly when the connection is there, the query goes
    through and every stored date is a valid one. *)
Lemma loader_Returned env w r w' :
  cache_consistent (proc w) →
  loader env w = Some (Returned r, w') →
  (∃ c, connect_result env w = Return c ∧ conn (cachedDb (proc w')) = Some c)
  ∧ store_fault env = None
  ∧ all_valid (tasks w)
  ∧ r = json (tasks_body (map serialized (sort_createdAt_desc (tie_break env) (tasks w)))) 200
  ∧ tasks w' = tasks w
  ∧ cache_consistent (proc w').
Proof.
  intros Hcons.
  destruct (await_connectToDatabase_spec env w Hcons)
    as (w1 & Ha & Ht & Hcons1 & Hconn).
  rewrite (loader_cases env w w1 Ha), Ht.
  destruct (connect_result env w) as [c|e]; [|done].
  destruct (store_fault env) as [e|]; [done|]. rewrite Task_find_sort_lean_ok.
  pose proof (map_throwing_serialize (sort_createdAt_desc (tie_break env) (tasks w))) as Hm.
  destruct (map_throwing serialize _) as [ser|e]; [|done].
  destruct Hm as [-> Hv]. intros [= <- <-].
  split; [exists c; by split; [|apply Hconn]|]. split; [done|].
  split; [by apply (all_valid_sort (tie_break env))|]. done.
Qed.

Lemma loader_returns env w c :
  cache_consistent (proc w) →
  connect_result env w = Return c →
  store_fault env = None →
  all_valid (tasks w) →
  ∃ w', loader env w
        = Some (Returned (json (tasks_body
                   (map serialized (sort_createdAt_desc (tie_break env) (tasks w))))
                   200), w').
Proof.
  intros Hcons Hc Hs Hv.
  destruct (await_connectToDatabase_spec env w Hcons) as (w1 & Ha & Ht & _).
  rewrite (loader_cases env w w1 Ha), Ht, Hc, Hs, Task_find_sort_lean_ok.
  rewrite map_throwing_serialize_valid by by apply (all_valid_sort (tie_break env)).
  by eexists.
Qed.

Lemma loader_fails env w :
  cache_consistent (proc w) →
  (∃ e, connect_result env w = Throw e) ∨ is_Some (store_fault env) ∨ ¬ all_valid (tasks w) →
  ∃ w', loader env w = Some (Thrown load_failed, w') ∧ tasks w' = tasks w.
Proof.
  intros Hcons Hcause.
  destruct (await_connectToDatabase_spec env w Hcons) as (w1 & Ha & Ht & _).
  rewrite (loader_cases env w w1 Ha), Ht.
  destruct (connect_result env w) as [c|e]; [|by eexists].
  destruct (store_fault env) as [e|] eqn:Es; [by eexists|].
  rewrite Task_find_sort_lean_ok.
  pose proof (map_throwing_serialize (sort_createdAt_desc (tie_break env) (tasks w))) as Hm.
  destruct (map_throwing serialize _) as [ser|e]; [|by eexists].
  destruct Hm as [_ Hv]. apply (proj1 (all_valid_sort _ _)) in Hv.
  destruct Hcause as [[e ?]|[[e ?]|Hn]]; [done|done|by destruct Hn].
Qed.

(** Reading a record back: the hexadecimal string spells the bytes of the
    identifier, and the date-time string denotes the stored date. *)
Lemma hex_value_digit d : (d < 16)%N → hex_value (hex_digit d) = Some d.
Proof.
  intros Hd. unfold hex_value, hex_digit, is_digit.
  destruct (d <? 10)%N eqn:E; [apply N.ltb_lt in E|apply N.ltb_ge in E].
  - assert ((48 <=? 48 + d)%N && (48 + d <=? 57)%N = true) as ->
      by (apply andb_true_iff; split; apply N.leb_le; lia).
    f_equal. lia.
  - assert ((48 <=? 87 + d)%N && (87 + d <=? 57)%N = false) as ->
      by (apply andb_false_iff; right; apply N.leb_gt; lia).
    assert ((97 <=? 87 + d)%N && (87 + d <=? 102)%N = true) as ->
      by (apply andb_true_iff; split; apply N.leb_le; lia).
    f_equal. lia.
Qed.

Lemma hex_bytes_ObjectId_toString o :
  well_formed_id o → hex_bytes (ObjectId_toString o) = Some (id_bytes o).
Proof.
  unfold well_formed_id, ObjectId_toString.
  induction 1 as [|b l Hb _ IH]; [done|]. cbn [flat_map app hex_bytes].
  rewrite !hex_value_digit by (apply N.mod_lt; lia). cbn [mbind option_bind].
  rewrite IH. cbn [mbind option_bind]. do 2 f_equal.
  rewrite (N.mod_small (b / 16) 16) by (apply N.Div0.div_lt_upper_bound; lia).
  rewrite (N.div_mod b 16) at 3 by lia. lia.
Qed.

Lemma represents_serialized d :
  valid_time (createdAt d) = true → represents d (serialized d).
Proof.
  intros Hv. unfold represents, serialized.
  cbn [s_id s_title s_description s_createdAt s__v].
  split; [apply ObjectId_toString_hex|].
  split; [apply hex_bytes_ObjectId_toString|].
  split; [done|]. split; [done|]. split; [|done].
  destruct (toISOString_valid _ Hv) as [iso Hiso]. rewrite Hiso.
  rewrite (toISOString_text _ _ Hiso). by apply parse_iso_text.
Qed.

Lemma serialized_keys d :
  keys (serialized d)
  = ["_id"; "title"; "description"; "createdAt"]%string
    ++ match __v d with
       | Some _ => ["__v"%string]
       | None => []
       end.
Proof. reflexivity. Qed.

(** C6: with the connection there, the store answering and every stored date
    one a Date can hold, the loader returns; its list holds one record for
    each stored document and nothing else, however many there are; and of
    any two records of the list, the dates their [createdAt] strings denote
    are such that the earlier record is at least as recent. *)
Theorem C6_list_all_newest_first env w c :
  cache_consistent (proc w) →
  connect_result env w = Return c →
  store_fault env = None →
  all_valid (tasks w) →
  ∃ ser w' docs,
    loader env w = Some (Returned (json (tasks_body ser) 200), w')
    ∧ docs ≡ₚ tasks w
    ∧ Forall2 represents docs ser
    ∧ length ser = length (tasks w)
    ∧ ∀ (i j : nat) A B, (i < j)%nat → ser !! i = Some A → ser !! j = Some B →
        ∃ tA tB, parse_iso (s_createdAt A) = Some tA
          ∧ parse_iso (s_createdAt B) = Some tB
          ∧ tA >= tB.
Proof.
  intros Hcons Hc Hs Hv.
  destruct (loader_returns env w c Hcons Hc Hs Hv) as [w' Hl].
  apply (proj2 (all_valid_sort (tie_break env) _)) in Hv.
  exists (map serialized (sort_createdAt_desc (tie_break env) (tasks w))), w',
         (sort_createdAt_desc (tie_break env) (tasks w)).
  split; [done|]. split; [apply sort_createdAt_desc_Permutation|]. split.
  { apply Forall2_fmap_r, Forall_Forall2_diag.
    eapply Forall_impl; [exact Hv|]. intros d Hd. by apply represents_serialized. }
  split; [by rewrite length_map, sort_createdAt_desc_Permutation|].
  intros i j A B Hij HA HB.
  apply list_lookup_fmap_Some in HA as (dA & -> & HA).
  apply list_lookup_fmap_Some in HB as (dB & -> & HB).
  unfold all_valid in Hv. rewrite Forall_forall in Hv.
  exists (createdAt dA), (createdAt dB).
  split; [apply represents_serialized, Hv; by eapply list_elem_of_lookup_2|].
  split; [apply represents_serialized, Hv; by eapply list_elem_of_lookup_2|].
  apply Z.le_ge.
  apply (sorted_lookup _ i j dA dB (sort_createdAt_desc_sorted _ _) Hij HA HB).
Qed.

Lemma C6_list_all_newest_first_witness :
  ∃ ser w' docs,
    loader reading world_AB = Some (Returned (json (tasks_body ser) 200), w')
    ∧ docs ≡ₚ tasks world_AB
    ∧ Forall2 represents docs ser
    ∧ length ser = length (tasks world_AB)
    ∧ ∀ (i j : nat) A B, (i < j)%nat → ser !! i = Some A → ser !! j = Some B →
        ∃ tA tB, parse_iso (s_createdAt A) = Some tA
          ∧ parse_iso (s_createdAt B) = Some tB
          ∧ tA >= tB.
Proof.
  apply (C6_list_all_newest_first reading world_AB {| conn_id := 7 |}).
  - split; [right; by eexists|]. intros [|[|q]] Hq; by vm_compute in Hq.
  - reflexivity.
  - reflexivity.
  - repeat constructor.
Defined.

(** C7 as the specification states it fails on the shape of a record: the
    spread copies every field of the stored document, and a document the
    application saved has the version key. After one task was added, the
    record the loader returns for it has five keys, not four: [__v] is one
    of them, with the value 0. *)
Lemma C7_counterexample :
  ∃ s w',
    loader reading world_A = Some (Returned (json (tasks_body [s]) 200), w')
    ∧ "__v"%string ∈ keys s
    ∧ length (keys s) = 5%nat
    ∧ ¬ keys s ≡ₚ ["_id"; "title"; "description"; "createdAt"]%string
    ∧ s__v s = Some 0.
Proof.
  exists {| s_id := lit "654c0a000000000000000001"; s_title := lit "A";
            s_description := []; s_createdAt := lit "2023-11-14T22:13:20.000Z";
            s__v := Some 0 |}.
  destruct (loader reading world_A) as [[c w']|] eqn:El; [|by vm_compute in El].
  exists w'. split; [vm_compute in El; by injection El as <- _|].
  split; [apply (bool_decide_unpack _); by vm_compute|].
  split; [done|]. split; [|done].
  intros H%Permutation_length. by vm_compute in H.
Qed.

(** C7 (amended): the loader ends in one of two ways. Either it returns, with
    status 200, an object [{ tasks }] holding one record per stored document,
    newest first; the record has the keys [_id], [title], [description] and
    [createdAt], and the key [__v] as well when the document has a version
    key, as every document the application saved has; its [_id] is a plain
    string, the bytes of the identifier in hexadecimal, its [title],
    [description] and [__v] are the document's, and its [createdAt] is a
    string of the ISO date-time format that denotes the document's date. Or
    it throws the response [{ message: "Failed to load tasks." }] with status
    500, which holds no list. It throws exactly when the connection fails,
    the query fails, or a stored date is not one a Date can hold. The
    collection is not changed. *)
Theorem C7_read_path_response env w :
  cache_consistent (proc w) →
  ∃ c w', loader env w = Some (c, w')
    ∧ tasks w' = tasks w
    ∧ ((c = Thrown load_failed
        ∧ ((∃ e, connect_result env w = Throw e) ∨ is_Some (store_fault env)
           ∨ ¬ all_valid (tasks w)))
       ∨ (∃ ser, c = Returned (json (tasks_body ser) 200)
            ∧ (∃ conn, connect_result env w = Return conn)
            ∧ store_fault env = None
            ∧ all_valid (tasks w)
            ∧ Forall2 (λ d s,
                  represents d s
                  ∧ Forall (λ ch, is_hex ch = true) (s_id s)
                  ∧ iso_shape (s_createdAt s) = true
                  ∧ keys s ≡ₚ ["_id"; "title"; "description"; "createdAt"]%string
                             ++ match __v d with
                                | Some _ => ["__v"%string]
                                | None => []
                                end)
                (sort_createdAt_desc (tie_break env) (tasks w)) ser)).
Proof.
  intros Hcons.
  destruct (connect_result env w) as [c|e] eqn:Ec.
  2: { destruct (loader_fails env w Hcons) as (w' & Hl & Ht);
         [left; rewrite Ec; by eexists|].
       exists (Thrown load_failed), w'. split; [done|]. split; [done|].
       left. split; [done|]. left. by eexists. }
  destruct (store_fault env) as [e|] eqn:Es.
  { destruct (loader_fails env w Hcons) as (w' & Hl & Ht);
      [right; left; by rewrite Es|].
    exists (Thrown load_failed), w'. split; [done|]. split; [done|].
    left. split; [done|]. right; left. by eexists. }
  destruct (decide (all_valid (tasks w))) as [Hv|Hn].
  2: { destruct (loader_fails env w Hcons) as (w' & Hl & Ht); [by right; right|].
       exists (Thrown load_failed), w'. split; [done|]. split; [done|].
       left. split; [done|]. by right; right. }
  destruct (loader_returns env w c Hcons Ec Es Hv) as [w' Hl].
  destruct (loader_Returned env w _ w' Hcons Hl) as (_ & _ & _ & _ & Ht & _).
  eexists _, w'. split; [exact Hl|]. split; [done|]. right.
  eexists. split; [done|]. split; [by eexists|]. split; [done|]. split; [done|].
  apply Forall2_fmap_r, Forall_Forall2_diag.
  apply (proj2 (all_valid_sort (tie_break env) _)) in Hv.
  eapply Forall_impl; [exact Hv|].
  intros d Hd. cbn beta in *. unfold compose.
  split; [by apply represents_serialized|].
  split; [apply ObjectId_toString_hex|].
  split; [|by rewrite serialized_keys].
  destruct (toISOString_valid _ Hd) as [iso Hiso].
  unfold serialized. cbn [s_createdAt]. rewrite Hiso.
  by apply (toISOString_shape (createdAt d)).
Qed.

Lemma C7_read_path_response_witness :
  cache_consistent (proc world_AB)
  ∧ ∃ ser w',
      loader reading world_AB = Some (Returned (json (tasks_body ser) 200), w')
      ∧ tasks w' = tasks world_AB
      ∧ map s_id ser = [lit "654c0a000000000000000002"; lit "654c0a000000000000000001"]
      ∧ map s_createdAt ser
        = [lit "2023-11-14T22:13:21.000Z"; lit "2023-11-14T22:13:20.000Z"]
      ∧ Forall2 represents (sort_createdAt_desc (tie_break reading) (tasks world_AB)) ser.
Proof.
  assert (cache_consistent (proc world_AB)) as Hcons.
  { split; [right; by eexists|]. intros [|[|q]] Hq; by vm_compute in Hq. }
  split; [exact Hcons|].
  destruct (C7_read_path_response reading world_AB Hcons)
    as (c & w' & Hl & Ht & [[-> _]|(ser & -> & _ & _ & _ & Hser)]).
  - by vm_compute in Hl.
  - exists ser, w'. split; [exact Hl|]. split; [exact Ht|].
    assert (ser = map serialized (sort_createdAt_desc (tie_break reading) (tasks world_AB)))
      as Eser.
    { vm_compute in Hl. injection Hl as <- _. by vm_compute. }
    split; [rewrite Eser; by vm_compute|]. split; [rewrite Eser; by vm_compute|].
    eapply Forall2_impl; [exact Hser|]. by intros d s [H _].
Defined.

(** C5: after a read that returned [before], an action with a title that is
    not empty once trimmed and a description that is a string or absent,
    which the store accepts, redirects; and the next read that the store
    answers returns [before] with exactly one more record, whose title is
    the trimmed title and whose description is the trimmed description, the
    empty string when there was none. *)
Theorem C5_create_then_list env0 envA envL w w0 before fd t :
  cache_consistent (proc w) →
  loader env0 w = Some (Returned (json (tasks_body before) 200), w0) →
  form_data envA = Return fd →
  formData_get "title" fd = Some (FString t) →
  trim t ≠ [] →
  textual (formData_get "description" fd) →
  store_fault envA = None →
  valid_time (now envA) = true →
  store_fault envL = None →
  ∃ wA wL after new,
    action envA w0 = Some (Returned (redirect "/"), wA)
    ∧ loader envL wA = Some (Returned (json (tasks_body after) 200), wL)
    ∧ after ≡ₚ new :: before
    ∧ length after = S (length before)
    ∧ s_title new = trim t
    ∧ s_description new = stored_description (formData_get "description" fd).
Proof.
  intros Hcons Hl0 Hfd Ht Hne Hd HsA Hnow HsL.
  destruct (loader_Returned env0 w _ w0 Hcons Hl0)
    as ([c [_ Hc0]] & _ & Hv0 & [= ->] & Ht0 & Hcons0).
  assert (connect_result envA w0 = Return c) as HcA
    by (unfold connect_result; by rewrite Hc0).
  destruct (action_saves envA w0 fd t c Hcons0 Hfd Ht Hne Hd HcA HsA)
    as (wA & doc & Hact & HtA & HconsA & HconnA & Htitle & Hdesc & Hcreated).
  assert (connect_result envL wA = Return c) as HcL
    by (unfold connect_result; by rewrite HconnA).
  assert (all_valid (tasks wA)) as HvA.
  { rewrite HtA, Ht0. apply Forall_app. split; [done|].
    constructor; [by rewrite Hcreated|constructor]. }
  destruct (loader_returns envL wA c HconsA HcL HsL HvA) as [wL HlL].
  exists wA, wL, (map serialized (sort_createdAt_desc (tie_break envL) (tasks wA))),
         (serialized doc).
  split; [done|]. split; [done|].
  assert (map serialized (sort_createdAt_desc (tie_break envL) (tasks wA))
          ≡ₚ serialized doc
             :: map serialized (sort_createdAt_desc (tie_break env0) (tasks w))) as Hperm.
  { rewrite !sort_createdAt_desc_Permutation, HtA, Ht0.
    rewrite map_app. cbn [map]. by rewrite <- Permutation_cons_append. }
  split; [done|]. split; [by rewrite Hperm|]. by split.
Qed.

Lemma C5_create_then_list_witness :
  ∃ wA wL after new,
    action (buy_milk None) world_read = Some (Returned (redirect "/"), wA)
    ∧ loader reading wA = Some (Returned (json (tasks_body after) 200), wL)
    ∧ after ≡ₚ new :: []
    ∧ length after = 1%nat
    ∧ s_title new = lit "Buy milk"
    ∧ s_description new = [].
Proof.
  apply (C5_create_then_list reading (buy_milk None) reading fresh_world world_read []
           [("title"%string, FString (lit " Buy milk "));
            ("description"%string, FString [])]
           (lit " Buy milk ")).
  - apply cache_consistent_fresh.
  - reflexivity.
  - reflexivity.
  - reflexivity.
  - by vm_compute.
  - intros f. by vm_compute.
  - reflexivity.
  - reflexivity.
  - reflexivity.
Defined.

(** *** The scenarios of the specification, run on the model *)

(** "Buy milk" submitted to an empty store: one record is listed. *)
Example scenario_buy_milk :
  (action (buy_milk None) fresh_world ≫= λ '(_, w), fst <$> loader reading w)
  = Some (Returned (json (tasks_body
            [{| s_id := lit "654c0a000000000000000001";
                s_title := lit "Buy milk";
                s_description := [];
                s_createdAt := lit "2023-11-14T22:13:20.000Z";
                s__v := Some 0 |}]) 200)).
Proof. by vm_compute. Qed.

(** A blank title with the store reachable: the 400 answer, nothing listed. *)
Example scenario_blank_title :
  fst <$> action blank_title_reachable fresh_world = Some (Returned title_required)
  ∧ (action blank_title_reachable fresh_world ≫= λ '(_, w), fst <$> loader reading w)
    = Some (Returned (json (tasks_body []) 200)).
Proof. by vm_compute. Qed.

(** A, then B one second later: B is listed first. *)
Example scenario_newest_first :
  map title (tasks world_AB) = [lit "A"; lit "B"]
  ∧ (loader reading world_AB ≫= λ '(c, _),
       match c with
       | Returned (json (tasks_body l) _) => Some (map s_title l)
       | _ => None
       end)
    = Some [lit "B"; lit "A"].
Proof. by vm_compute. Qed.

(** A stored date that is not a valid one makes the whole read fail. *)
Example scenario_invalid_date :
  fst <$> loader reading
    {| proc := fresh_process "mongodb://localhost/tasks";
       tasks := [{| _id := {| id_bytes := [1]%N |}; title := lit "ok";
                    description := []; createdAt := 0; __v := Some 0 |};
                 {| _id := {| id_bytes := [2]%N |}; title := lit "odd";
                    description := []; createdAt := maxTimeValue + 1;
                    __v := Some 0 |}] |}
  = Some (Thrown load_failed).
Proof. by vm_compute. Qed.

End read_path.
Example toISOString_epoch : toISOString 0 = Return (lit "1970-01-01T00:00:00.000Z").
Proof. reflexivity. Qed.
Example toISOString_leap :
  toISOString 951827696789 = Return (lit "2000-02-29T12:34:56.789Z").
Proof. reflexivity. Qed.
Example toISOString_eoy :
  toISOString 1735689599999 = Return (lit "2024-12-31T23:59:59.999Z").
Proof. reflexivity. Qed.
Example toISOString_neg :
  toISOString (-1) = Return (lit "1969-12-31T23:59:59.999Z").
Proof. reflexivity. Qed.
Example toISOString_bc :
  toISOString (-62198755200000) = Return (lit "-000001-01-01T00:00:00.000Z").
Proof. reflexivity. Qed.
Example toISOString_max :
  toISOString 8640000000000000 = Return (lit "+275760-09-13T00:00:00.000Z").
Proof. reflexivity. Qed.
Example oid_ex : ObjectId_toString {| id_bytes := [0; 171; 255]%N |} = lit "00abff".
Proof. reflexivity. Qed.

(** * Further properties of the code *)

(** ** db.server: attempts over time *)

Section attempts.

Implicit Types (st : Process) (p q : nat) (c : Connection) (r : outcome Mongoose).

Lemma run_app es1 es2 st :
  run (es1 ++ es2) st
  = ((run es1 st).1 ++ (run es2 (run es1 st).2).1, (run es2 (run es1 st).2).2).
Proof.
  revert st. induction es1 as [|e es1 IH]; intros st; cbn.
  - by destruct (run es2 st).
  - destruct (step e st) as [as1 st1]. rewrite IH.
    destruct (run es1 st1) as [as2 st2]. cbn.
    destruct (run es2 st2) as [as3 st3]. cbn. by rewrite app_assoc.
Qed.

Lemma attempts_sequential_fresh uri : attempts_sequential (fresh_process uri).
Proof.
  split; [done|]. split; [done|]. intros q s Hq. cbn in Hq.
  by rewrite lookup_nil in Hq.
Qed.

Lemma attempts_sequential_step e st :
  cache_consistent st → attempts_sequential st → attempts_sequential (step e st).2.
Proof.
  intros Hcons Ha. destruct e as [|p r]; cbn.
  - unfold connectToDatabase.
    destruct (conn (cachedDb st)) as [c|] eqn:Ec; [exact Ha|].
    destruct (promise (cachedDb st)) as [p|] eqn:Ep; [exact Ha|].
    destruct Ha as (Hlen & _ & Hrej). rewrite Ep in Hrej.
    cbn. split; cbn; [rewrite !length_app; cbn; lia|].
    split; cbn; [rewrite length_app; cbn; lia|].
    intros q s Hq Hne. apply lookup_app_Some in Hq as [Hq|[Hge Hq]].
    + by apply (Hrej q s Hq).
    + apply list_lookup_singleton_Some in Hq as [Hq _].
      destruct Hne. f_equal. lia.
  - unfold settle. destruct (promises st !! p) as [[| |]|] eqn:Ep;
      try exact Ha.
    destruct (in_flight_no_conn st p Hcons Ep) as [Hcur Hconn].
    assert (p < length (promises st))%nat by by eapply lookup_lt_Some.
    destruct Ha as (Hlen & Hlast & Hrej). rewrite Hcur in Hlast, Hrej.
    destruct r as [m|e]; cbn.
    + split; cbn; [by rewrite length_insert|].
      rewrite Hcur. split; cbn; [by rewrite length_insert|].
      intros q s Hq Hne. rewrite list_lookup_insert_ne in Hq by congruence.
      by apply (Hrej q s Hq).
    + split; cbn; [by rewrite length_insert|]. split; [done|].
      intros q s Hq _. destruct (decide (q = p)) as [->|Hne].
      * rewrite list_lookup_insert_eq in Hq by done. injection Hq as <-. by eexists.
      * rewrite list_lookup_insert_ne in Hq by done.
        apply (Hrej q s Hq). congruence.
Qed.

Lemma attempts_sequential_run es st :
  cache_consistent st → attempts_sequential st →
  cache_consistent (run es st).2 ∧ attempts_sequential (run es st).2.
Proof.
  revert st. induction es as [|e es IH]; intros st Hc Ha; [done|].
  cbn. pose proof (cache_consistent_step e st Hc) as Hc1.
  pose proof (attempts_sequential_step e st Hc Ha) as Ha1.
  destruct (step e st) as [as1 st1]. specialize (IH st1 Hc1 Ha1).
  by destruct (run es st1).
Qed.

(** Whatever callers and driver do to a freshly evaluated module, at most
    one connection attempt is in flight, each [mongoose.connect] made exactly
    one promise, and every attempt before the latest one has failed: a new
    attempt is only ever started after the previous one was rejected. *)
Theorem attempts_one_at_a_time es uri :
  (∀ q1 q2, promises (run es (fresh_process uri)).2 !! q1 = Some Pending →
            promises (run es (fresh_process uri)).2 !! q2 = Some Pending → q1 = q2)
  ∧ connect_calls (run es (fresh_process uri)).2
    = replicate (length (promises (run es (fresh_process uri)).2)) uri
  ∧ ∀ q, (S q < length (promises (run es (fresh_process uri)).2))%nat →
      ∃ e, promises (run es (fresh_process uri)).2 !! q = Some (Rejected e).
Proof.
  destruct (attempts_sequential_run es (fresh_process uri))
    as ([Hc Hpend] & Hlen & Hlast & Hrej);
    [apply cache_consistent_fresh|apply attempts_sequential_fresh|].
  split; [|split].
  - intros q1 q2 H1 H2. apply Hpend in H1, H2. congruence.
  - assert (∀ es st, MONGODB_URI (run es st).2 = MONGODB_URI st
                     ∧ (∀ u, Forall (λ x, x = u) (connect_calls st) →
                             MONGODB_URI st = u →
                             Forall (λ x, x = u) (connect_calls (run es st).2)))
      as Huri.
    { clear. induction es as [|e es IH]; intros st; [done|]. cbn.
      assert (MONGODB_URI (step e st).2 = MONGODB_URI st
              ∧ ∀ u, Forall (λ x, x = u) (connect_calls st) → MONGODB_URI st = u →
                     Forall (λ x, x = u) (connect_calls (step e st).2)) as [H1 H2].
      { destruct e as [|p r]; cbn.
        - unfold connectToDatabase. destruct (conn (cachedDb st)); [done|].
          destruct (promise (cachedDb st)); [done|]. cbn. split; [done|].
          intros u Hu <-. apply Forall_app. split; [done|]. by repeat constructor.
        - unfold settle. destruct (promises st !! p) as [[| |]|]; try done.
          by destruct r. }
      destruct (step e st) as [as1 st1]. cbn [snd] in *.
      destruct (IH st1) as [H3 H4]. destruct (run es st1) as [as2 st2]. cbn [snd] in *.
      split; [congruence|]. intros u Hu Hm. apply H4; [by apply H2|congruence]. }
    destruct (Huri es (fresh_process uri)) as [_ Hall].
    specialize (Hall uri (Forall_nil_2 _) eq_refl).
    rewrite <- Hlen. clear -Hall.
    induction Hall as [|x l -> _ IH]; [done|]. cbn. by f_equal.
  - intros q Hq. destruct (lookup_lt_is_Some_2 (promises (run es (fresh_process uri)).2) q)
      as [s Hs]; [lia|].
    destruct (Hrej q s Hs) as [e ->]; [|by exists e].
    intros Hcur. rewrite Hcur in Hlast. lia.
Qed.

(** Once a connection is cached it is never replaced: whatever happens next,
    [cachedDb] and the promise table stay as they are, [mongoose.connect] is
    not called again, and every caller is answered that connection. *)
Theorem connected_for_good st c es :
  cache_consistent st →
  conn (cachedDb st) = Some c →
  cachedDb (run es st).2 = cachedDb st
  ∧ promises (run es st).2 = promises st
  ∧ connect_calls (run es st).2 = connect_calls st
  ∧ Forall (λ a, a = Ready c) (run es st).1.
Proof.
  revert st. induction es as [|e es IH]; intros st Hcons Hc; [done|]. cbn.
  assert (∃ st1 as1, step e st = (as1, st1) ∧ cachedDb st1 = cachedDb st
            ∧ promises st1 = promises st ∧ connect_calls st1 = connect_calls st
            ∧ Forall (λ a, a = Ready c) as1) as (st1 & as1 & -> & H1 & H2 & H3 & H4).
  { destruct e as [|p r]; cbn.
    - rewrite (connectToDatabase_cached st c Hc). eexists _, _. split; [done|].
      by repeat constructor.
    - eexists _, _. split; [done|]. unfold settle.
      destruct (promises st !! p) as [[| |]|] eqn:Ep; try done.
      destruct (in_flight_no_conn st p Hcons Ep) as [_ Hn]. congruence. }
  assert (cache_consistent st1) as Hcons1.
  { unfold cache_consistent. by rewrite H1, H2. }
  destruct (IH st1 Hcons1) as (H5 & H6 & H7 & H8); [by rewrite H1|].
  destruct (run es st1) as [as2 st2]. cbn [fst snd] in *.
  split; [congruence|]. split; [congruence|]. split; [congruence|].
  by apply Forall_app.
Qed.

Lemma connected_for_good_witness :
  (cache_consistent connected_process
   ∧ conn (cachedDb connected_process) = Some {| conn_id := 7 |})
  ∧ cachedDb (run [Call; Settle 0 (Throw (Error "late")); Call] connected_process).2
    = cachedDb connected_process.
Proof.
  assert (cache_consistent connected_process) as Hc.
  { apply cache_consistent_settle,
      (cache_consistent_connectToDatabase (fresh_process _)), cache_consistent_fresh. }
  split; [by split|].
  apply (connected_for_good connected_process {| conn_id := 7 |}
           [Call; Settle 0 (Throw (Error "late")); Call] Hc).
  reflexivity.
Defined.

(** A failure reaches only the callers of the attempt that failed: callers
    that arrive after it are handed the promise of a new attempt, and when
    that one succeeds they get the connection while the earlier callers
    still observe the error. One more [mongoose.connect] is made in all. *)
Theorem failure_stays_with_its_attempt st p e m n1 n2 :
  cache_consistent st →
  promises st !! p = Some Pending →
  ∃ q st',
    run (replicate n1 Call ++ [Settle p (Throw e)]
         ++ replicate (S n2) Call ++ [Settle q (Return m)]) st
    = (replicate n1 (Awaiting p) ++ replicate (S n2) (Awaiting q), st')
    ∧ q ≠ p
    ∧ await (Awaiting p) st' = Some (Throw e)
    ∧ await (Awaiting q) st' = Some (Return (connection m))
    ∧ conn (cachedDb st') = Some (connection m)
    ∧ connect_calls st' = connect_calls st ++ [MONGODB_URI st].
Proof.
  intros Hcons Hpend.
  destruct (in_flight_no_conn st p Hcons Hpend) as [Hcur Hconn].
  assert (p < length (promises st))%nat as Hlt by by eapply lookup_lt_Some.
  set (st1 := settle p (Throw e) st).
  assert (st1 = on_failed p e st) as Hst1 by (unfold st1, settle; by rewrite Hpend).
  destruct (connectToDatabase_start st1) as (st2 & Hcall & Hc2 & Hp2 & Hps2 & Hcc2 & _);
    [by rewrite Hst1..|].
  set (q := length (promises st1)) in *.
  assert (promises st2 !! q = Some Pending) as Hq
    by (rewrite Hps2, lookup_app_r by done; by rewrite Nat.sub_diag).
  exists q, (settle q (Return m) st2).
  rewrite run_app, (run_calls_in_flight st p n1 Hconn Hcur). cbn [fst snd].
  rewrite run_app. cbn [run step fst snd app]. fold st1.
  rewrite run_app. cbn [replicate run step]. rewrite Hcall.
  rewrite (run_calls_in_flight st2 q n2 Hc2 Hp2). cbn [fst snd run step app].
  rewrite app_nil_r.
  split; [done|].
  assert (q = length (promises st)) as Hqlen
    by (unfold q; rewrite Hst1; cbn; by rewrite length_insert).
  split; [lia|]. split.
  - assert (await (Awaiting p) st1 = Some (Throw e)) as H1
      by (rewrite Hst1; cbn; by rewrite list_lookup_insert_eq).
    pose proof (await_stable_step _ st1 Call _ H1) as H2.
    cbn [step] in H2. rewrite Hcall in H2.
    exact (await_stable_step _ st2 (Settle q (Return m)) _ H2).
  - split; [by apply (settle_pending_await st2 q (Return m))|].
    split; [by apply settle_connected|].
    unfold settle. rewrite Hq. cbn. by rewrite Hcc2, Hst1.
Qed.

Lemma failure_stays_with_its_attempt_witness :
  ∃ q st',
    run (replicate 2 Call ++ [Settle 0 (Throw (MongooseError "ECONNREFUSED"))]
         ++ replicate 2 Call ++ [Settle q (Return a_connection)]) in_flight_process
    = (replicate 2 (Awaiting 0) ++ replicate 2 (Awaiting q), st')
    ∧ q ≠ 0%nat
    ∧ await (Awaiting 0) st' = Some (Throw (MongooseError "ECONNREFUSED"))
    ∧ await (Awaiting q) st' = Some (Return (connection a_connection))
    ∧ conn (cachedDb st') = Some (connection a_connection)
    ∧ connect_calls st'
      = connect_calls in_flight_process ++ [MONGODB_URI in_flight_process].
Proof.
  apply (failure_stays_with_its_attempt in_flight_process 0
           (MongooseError "ECONNREFUSED") a_connection 2 1).
  - apply (cache_consistent_connectToDatabase (fresh_process _)),
      cache_consistent_fresh.
  - reflexivity.
Defined.

(** Re-evaluating the module (a hot reload) with [global.mongoose] set takes
    the cache over as it is: a connection cached before the reload is
    answered to every caller after it, and [mongoose.connect] is not
    called. *)
Theorem reload_keeps_connection
    (process_env dotenv_file : gmap string string) g heap uri c n :
  (process_env ∪ dotenv_file) !! "MONGODB_URI"%string = Some uri →
  uri ≠ EmptyString →
  conn g = Some c →
  ∃ st st', db_module_init process_env dotenv_file (Some g) heap = Return st
    ∧ cachedDb st = g
    ∧ promises st = heap
    ∧ run (replicate n Call) st = (replicate n (Ready c), st')
    ∧ cachedDb st' = g
    ∧ connect_calls st' = [].
Proof.
  intros Huri Hne Hc. unfold db_module_init, dotenv_config. rewrite Huri.
  destruct uri as [|a u]; [done|]. eexists _. cbn.
  destruct (run_calls_cached
              {| MONGODB_URI := String a u; cachedDb := g; promises := heap;
                 connect_calls := []; console := [] |} c n Hc)
    as (st' & Hrun & H1 & H2 & H3).
  exists st'. split; [done|]. split; [done|]. split; [done|]. by split.
Qed.

Lemma reload_keeps_connection_witness :
  ∃ st st',
    db_module_init {[ "MONGODB_URI"%string := "mongodb://localhost/tasks"%string ]} ∅
      (Some (cachedDb connected_process)) (promises connected_process) = Return st
    ∧ cachedDb st = cachedDb connected_process
    ∧ promises st = promises connected_process
    ∧ run (replicate 2 Call) st = (replicate 2 (Ready {| conn_id := 7 |}), st')
    ∧ cachedDb st' = cachedDb connected_process
    ∧ connect_calls st' = [].
Proof.
  apply (reload_keeps_connection
           {[ "MONGODB_URI"%string := "mongodb://localhost/tasks"%string ]} ∅
           (cachedDb connected_process) (promises connected_process)
           "mongodb://localhost/tasks" {| conn_id := 7 |} 2);
    [reflexivity|done|reflexivity].
Defined.

(** A MONGODB_URI that is set to the empty string in the process environment
    counts as missing: the module throws, also when the .env file defines a
    proper value, which [dotenv.config()] does not put over a variable that
    is already set. *)
Theorem empty_uri_rejected (process_env dotenv_file : gmap string string) g heap :
  process_env !! "MONGODB_URI"%string = Some EmptyString →
  db_module_init process_env dotenv_file g heap
  = Throw (Error "Please define the MONGODB_URI environment variable inside .env").
Proof.
  intros H. unfold db_module_init, dotenv_config.
  by rewrite (lookup_union_Some_l _ _ _ _ H).
Qed.

Lemma empty_uri_rejected_witness :
  db_module_init {[ "MONGODB_URI"%string := EmptyString ]}
    {[ "MONGODB_URI"%string := "mongodb://localhost/tasks"%string ]} None []
  = Throw (Error "Please define the MONGODB_URI environment variable inside .env").
Proof.
  apply (empty_uri_rejected {[ "MONGODB_URI"%string := EmptyString ]}
           {[ "MONGODB_URI"%string := "mongodb://localhost/tasks"%string ]} None []).
  reflexivity.
Defined.

End attempts.

(** ** Trimming *)

Section trimming.

Implicit Types (s t l r : jsstring).

Lemma blank_reverse s : blank s ↔ blank (reverse s).
Proof. unfold blank. by rewrite Forall_reverse. Qed.

Lemma trimStart_app_blank l s : blank l → trimStart (l ++ s) = trimStart s.
Proof. induction 1 as [|c l Hc _ IH]; [done|]. cbn. by rewrite Hc. Qed.

Lemma trimStart_blank s : trimStart s = [] ↔ blank s.
Proof.
  split.
  - intros H. destruct (trimStart_split s) as (ws & Hs & Hws).
    rewrite H, app_nil_r in Hs. by subst.
  - intros H. rewrite <- (app_nil_r s). by rewrite trimStart_app_blank.
Qed.

Lemma trimEnd_split s : ∃ ws, s = trimEnd s ++ ws ∧ blank ws.
Proof.
  destruct (trimStart_split (reverse s)) as (ws & Hs & Hws).
  exists (reverse ws). split; [|exact (proj1 (blank_reverse ws) Hws)].
  unfold trimEnd. rewrite <- reverse_app, <- Hs. by rewrite reverse_involutive.
Qed.

Lemma trim_clean s : starts_clean (trim s) ∧ ends_clean (trim s).
Proof.
  split; [apply trimEnd_clean, trimStart_clean|].
  unfold ends_clean, trim, trimEnd. rewrite reverse_involutive.
  apply trimStart_clean.
Qed.

Lemma trim_split s : ∃ l r, s = l ++ trim s ++ r ∧ blank l ∧ blank r.
Proof.
  destruct (trimStart_split s) as (l & Hl & Hbl).
  destruct (trimEnd_split (trimStart s)) as (r & Hr & Hbr).
  exists l, r. split; [|done]. unfold trim. by rewrite <- Hr.
Qed.

Lemma trim_unique s l t r :
  s = l ++ t ++ r → blank l → blank r → starts_clean t → ends_clean t → trim s = t.
Proof.
  intros -> Hl Hr Hst Het. unfold trim. rewrite trimStart_app_blank by done.
  destruct t as [|c t].
  - cbn [app]. by rewrite (proj2 (trimStart_blank r) Hr).
  - rewrite trimStart_id by exact Hst. unfold trimEnd.
    rewrite reverse_app.
    rewrite trimStart_app_blank by exact (proj1 (blank_reverse r) Hr).
    rewrite trimStart_id by exact Het. apply reverse_involutive.
Qed.

Lemma trim_blank s : trim s = [] ↔ blank s.
Proof.
  split.
  - intros H. destruct (trim_split s) as (l & r & Hs & Hl & Hr).
    rewrite H in Hs. cbn [app] in Hs. subst s. by apply Forall_app.
  - intros H. apply (trim_unique s s [] []); [by rewrite app_nil_r|done| |done..].
    constructor.
Qed.

(** [trim], as the action and the schema use it, removes white space and
    only white space, at the two ends and only there: [trim s] is the one
    string [t] without white space at either end such that [s] is [t] between
    two runs of white space. *)
Theorem trim_characterised s t :
  trim s = t
  ↔ (∃ l r, s = l ++ t ++ r ∧ blank l ∧ blank r) ∧ starts_clean t ∧ ends_clean t.
Proof.
  split.
  - intros <-. split; [apply trim_split|apply trim_clean].
  - intros [(l & r & Hs & Hl & Hr) [Hst Het]]. by apply (trim_unique s l t r).
Qed.


(** The title check of line 120 lets a form value through exactly when it is
    a string with at least one character that is not white space; a missing
    value, a File, the empty string and a string of white space are all
    rejected. *)
Theorem title_accepted_iff (v : option FormDataEntryValue) :
  title_rejected v = false ↔ ∃ s, v = Some (FString s) ∧ ¬ blank s.
Proof.
  rewrite <- not_true_iff_false, title_rejected_iff. unfold title_invalid. split.
  - intros H. destruct v as [[s|f]|].
    + exists s. split; [done|]. intros Hb. apply H. right; right.
      exists s. split; [done|]. by apply trim_blank.
    + destruct H. right; left. by eexists.
    + destruct H. by left.
  - intros (s & -> & Hs) [?|[[f ?]|(s' & [= <-] & Ht)]]; [done..|].
    by apply Hs, trim_blank.
Qed.

End trimming.

(** ** Requests one after the other *)

Section requests.

Implicit Types (env : Env) (w : World) (r : request) (rs : list request).

Lemma new_Task_well_formed oid t0 t d :
  trim t ≠ [] → well_formed (new_Task oid t0 (trim t) d).
Proof.
  intros Hne. unfold well_formed. cbn [title description new_Task set_path
    TaskSchema_title TaskSchema_description trim_setter].
  rewrite trim_idemp. split; [done|].
  destruct (trim_clean t) as [H1 H2]. destruct (trim_clean d) as [H3 H4]. done.
Qed.

(** The action, described answer by answer. *)
Lemma action_described env w :
  cache_consistent (proc w) →
  ∃ c w', action env w = Some (c, w')
    ∧ cache_consistent (proc w')
    ∧ ((c = Returned title_required
        ∧ tasks w' = tasks w
        ∧ ∃ fd, form_data env = Return fd ∧ title_invalid (formData_get "title" fd))
       ∨ (c = Returned add_failed ∧ tasks w' = tasks w)
       ∨ (c = Returned (redirect "/")
          ∧ store_fault env = None
          ∧ ∃ fd t doc,
              form_data env = Return fd
              ∧ formData_get "title" fd = Some (FString t)
              ∧ ¬ blank t
              ∧ tasks w' = tasks w ++ [doc]
              ∧ _id doc = new_oid env
              ∧ title doc = trim t
              ∧ createdAt doc = now env
              ∧ well_formed doc)).
Proof.
  intros Hcons.
  destruct (await_connectToDatabase_spec env w Hcons) as (w1 & Ha & Ht & Hcons1 & _).
  rewrite (action_cases env w w1 Ha).
  destruct (connect_result env w) as [c|e];
    [|eexists _, _; split; [done|]; split; [done|]; right; left; by split].
  destruct (form_data env) as [fd|e];
    [|eexists _, _; split; [done|]; split; [done|]; right; left; by split].
  destruct (formData_get "title" fd) as [[t|f]|] eqn:Etitle.
  - destruct (decide (trim t = [])) as [Hempty|Hne].
    + rewrite (bool_decide_eq_true_2 _ Hempty).
      eexists _, _; split; [done|]; split; [done|]. left. split; [done|].
      split; [done|]. exists fd. split; [done|]. rewrite Etitle.
      right; right. by exists t.
    + rewrite (bool_decide_eq_false_2 _ Hne).
      destruct (description_arg _) as [d|e];
        [|eexists _, _; split; [done|]; split; [done|]; right; left; by split].
      destruct (store_fault env) as [e|].
      * destruct (Task_save_fault e (new_Task (new_oid env) (now env) (trim t) d)
                    (tasks w1)) as [e' ->].
        eexists _, _; split; [done|]; split; [done|]; right; left; by split.
      * rewrite (Task_save_ok _ _ _ _ _ Hne).
        eexists _, _; split; [done|]; split; [done|]. right; right.
        split; [done|]. split; [done|].
        exists fd, t, (inserted (new_Task (new_oid env) (now env) (trim t) d)).
        split; [done|]. split; [done|]. split; [by rewrite <- trim_blank|].
        cbn [tasks]. split; [by rewrite Ht|]. split; [done|].
        split; [apply trim_idemp|]. split; [done|].
        by apply (new_Task_well_formed (new_oid env) (now env) t d).
  - eexists _, _; split; [done|]; split; [done|]. left. split; [done|].
    split; [done|]. exists fd. split; [done|]. rewrite Etitle. right; left. by eexists.
  - eexists _, _; split; [done|]; split; [done|]. left. split; [done|].
    split; [done|]. exists fd. split; [done|]. rewrite Etitle. by left.
Qed.

(** What one action does, case by case: it always returns, never throws; it
    answers 400 only for a title line 120 rejects, and then and with the 500
    answer the collection is as before; and it redirects only after one
    document, built from the trimmed title at the current time, was appended
    to the collection. *)
Theorem action_outcomes env w :
  cache_consistent (proc w) →
  ∃ c w', action env w = Some (c, w')
    ∧ cache_consistent (proc w')
    ∧ ((c = Returned title_required
        ∧ tasks w' = tasks w
        ∧ ∃ fd, form_data env = Return fd ∧ title_invalid (formData_get "title" fd))
       ∨ (c = Returned add_failed ∧ tasks w' = tasks w)
       ∨ (c = Returned (redirect "/")
          ∧ store_fault env = None
          ∧ ∃ fd t doc,
              form_data env = Return fd
              ∧ formData_get "title" fd = Some (FString t)
              ∧ ¬ blank t
              ∧ tasks w' = tasks w ++ [doc]
              ∧ _id doc = new_oid env
              ∧ title doc = trim t
              ∧ createdAt doc = now env
              ∧ well_formed doc)).
Proof. apply action_described. Qed.

Lemma action_outcomes_witness :
  cache_consistent (proc fresh_world)
  ∧ ∃ c w', action (buy_milk None) fresh_world = Some (c, w')
      ∧ cache_consistent (proc w')
      ∧ c = Returned (redirect "/").
Proof.
  split; [apply cache_consistent_fresh|].
  destruct (action_outcomes (buy_milk None) fresh_world (cache_consistent_fresh _))
    as (c & w' & Ha & Hc & _).
  exists c, w'. split; [exact Ha|]. split; [exact Hc|].
  vm_compute in Ha. by injection Ha as <- _.
Defined.

(** One request: it completes, and either leaves the collection alone and
    does not redirect, or redirects after appending one well-formed
    document. *)
Lemma serve_step r w :
  cache_consistent (proc w) →
  ∃ c w', serve r w = Some (c, w')
    ∧ cache_consistent (proc w')
    ∧ ((is_redirect c = false ∧ tasks w' = tasks w)
       ∨ (is_redirect c = true ∧ ∃ doc, tasks w' = tasks w ++ [doc] ∧ well_formed doc)).
Proof.
  intros Hcons. destruct r as [env|env]; cbn [serve].
  - destruct (await_connectToDatabase_spec env w Hcons) as (w1 & Ha & Ht & Hcons1 & _).
    rewrite (loader_cases env w w1 Ha).
    destruct (connect_result env w);
      [|eexists _, _; split; [done|]; split; [done|]; left; by split].
    destruct (Task_find_sort_lean _ _);
      [|eexists _, _; split; [done|]; split; [done|]; left; by split].
    destruct (map_throwing _ _);
      eexists _, _; (split; [done|]); (split; [done|]); left; by split.
  - destruct (action_described env w Hcons)
      as (c & w' & Hact & Hc & [(-> & Ht & _)|[(-> & Ht)|(-> & _ & Hdoc)]]).
    + eexists _, w'. split; [done|]. split; [done|]. left. by split.
    + eexists _, w'. split; [done|]. split; [done|]. left. by split.
    + destruct Hdoc as (fd & t & doc & _ & _ & _ & Ht & _ & _ & _ & Hwf).
      eexists _, w'. split; [done|]. split; [done|]. right. split; [done|].
      by exists doc.
Qed.

(** Any sequence of requests completes; the collection only grows, at its
    end, by one well-formed document per redirect. *)
Lemma serve_all_described rs w :
  cache_consistent (proc w) →
  ∃ cs w' added, serve_all rs w = Some (cs, w')
    ∧ cache_consistent (proc w')
    ∧ length cs = length rs
    ∧ tasks w' = tasks w ++ added
    ∧ length added = length (List.filter is_redirect cs)
    ∧ Forall well_formed added.
Proof.
  revert w. induction rs as [|r rs IH]; intros w Hcons.
  - exists [], w, []. by rewrite app_nil_r.
  - cbn [serve_all].
    destruct (serve_step r w Hcons) as (c & w1 & -> & Hcons1 & Hstep).
    destruct (IH w1 Hcons1) as (cs & w' & added & -> & Hcons' & Hlen & Ht & Hn & Hwf).
    destruct Hstep as [[Hr Ht1]|[Hr (doc & Ht1 & Hdoc)]].
    + exists (c :: cs), w', added. cbn [List.filter]. rewrite Hr.
      split; [done|]. split; [done|]. split; [cbn; by rewrite Hlen|].
      split; [by rewrite Ht, Ht1|]. by split.
    + exists (c :: cs), w', (doc :: added). cbn [List.filter]. rewrite Hr.
      split; [done|]. split; [done|]. split; [cbn; by rewrite Hlen|].
      split; [by rewrite Ht, Ht1, <- app_assoc|].
      split; [cbn; by rewrite Hn|by constructor].
Qed.

(** The dates the application stores are dates a Date can hold: [createdAt]
    is the clock's time, which is a valid one. *)
Lemma serve_all_valid rs w cs w' :
  cache_consistent (proc w) →
  Forall (λ r, valid_time (now (request_env r)) = true) rs →
  all_valid (tasks w) →
  serve_all rs w = Some (cs, w') →
  all_valid (tasks w').
Proof.
  revert w cs. induction rs as [|r rs IH]; intros w cs Hcons Hnow Hv.
  - by intros [= _ <-].
  - apply Forall_cons in Hnow as [Hr Hnow]. cbn [serve_all].
    assert (∃ c w1, serve r w = Some (c, w1) ∧ cache_consistent (proc w1)
                    ∧ all_valid (tasks w1)) as (c & w1 & -> & Hcons1 & Hv1).
    { destruct r as [env|env]; cbn [serve request_env] in *.
      - destruct (loader_completes env w Hcons) as (c & w1 & Hl & Hc & Ht).
        exists c, w1. by rewrite Ht.
      - destruct (action_described env w Hcons)
          as (c & w1 & Hact & Hc & [(_ & Ht & _)|[(_ & Ht)|(_ & _ & Hdoc)]]).
        + exists c, w1. by rewrite Ht.
        + exists c, w1. by rewrite Ht.
        + destruct Hdoc as (fd & t & doc & _ & _ & _ & Ht & _ & _ & Hcreated & _).
          exists c, w1. split; [done|]. split; [done|]. rewrite Ht.
          apply Forall_app. split; [done|]. constructor; [|constructor].
          by rewrite Hcreated. }
    destruct (serve_all rs w1) as [[cs' w2]|] eqn:Es; [|done].
    intros [= _ <-]. by apply (IH w1 cs').
Qed.

(** The store is append-only: whatever requests are served, in whatever
    environments, the documents that were there stay, unchanged and in
    place, and the collection grows by exactly one document for each
    redirect answered. No request updates or deletes. *)
Theorem store_append_only rs w :
  cache_consistent (proc w) →
  ∃ cs w' added, serve_all rs w = Some (cs, w')
    ∧ length cs = length rs
    ∧ tasks w' = tasks w ++ added
    ∧ length added = length (List.filter is_redirect cs).
Proof.
  intros Hcons.
  destruct (serve_all_described rs w Hcons) as (cs & w' & added & H & _ & H1 & H2 & H3 & _).
  by exists cs, w', added.
Qed.

Lemma store_append_only_witness :
  cache_consistent (proc fresh_world)
  ∧ ∃ cs w' added,
      serve_all [POST blank_title_reachable; POST task_A; GET reading; POST task_B]
        fresh_world = Some (cs, w')
      ∧ length cs = 4%nat
      ∧ tasks w' = tasks fresh_world ++ added
      ∧ length added = length (List.filter is_redirect cs).
Proof.
  split; [apply cache_consistent_fresh|].
  apply (store_append_only
           [POST blank_title_reachable; POST task_A; GET reading; POST task_B]
           fresh_world).
  apply cache_consistent_fresh.
Defined.

(** Every document the route stores has a title that is not empty, and
    title and description without white space at either end: if the
    collection is so, it stays so through any sequence of requests. *)
Theorem stored_documents_well_formed rs w cs w' :
  cache_consistent (proc w) →
  Forall well_formed (tasks w) →
  serve_all rs w = Some (cs, w') →
  Forall well_formed (tasks w').
Proof.
  intros Hcons Hwf Hs.
  destruct (serve_all_described rs w Hcons) as (cs1 & w1 & added & H & _ & _ & Ht & _ & Ha).
  rewrite Hs in H. injection H as <- <-. rewrite Ht. by apply Forall_app.
Qed.

Lemma stored_documents_well_formed_witness :
  Forall well_formed (tasks world_AB).
Proof.
  apply (stored_documents_well_formed [POST task_A; POST task_B] fresh_world
           [Returned (redirect "/"); Returned (redirect "/")] world_AB).
  - apply cache_consistent_fresh.
  - constructor.
  - by vm_compute.
Defined.

(** The calls of the driver made by awaiting the connection. *)
Lemma await_connect_calls env w :
  cache_consistent (proc w) →
  ∃ w1, await_connectToDatabase env w = Some (connect_result env w, w1)
    ∧ cache_consistent (proc w1)
    ∧ MONGODB_URI (proc w1) = MONGODB_URI (proc w)
    ∧ (∀ c, connect_result env w = Return c → conn (cachedDb (proc w1)) = Some c)
    ∧ connect_calls (proc w1)
      = connect_calls (proc w)
        ++ match conn (cachedDb (proc w)), promise (cachedDb (proc w)) with
           | None, None => [MONGODB_URI (proc w)]
           | _, _ => []
           end.
Proof.
  intros Hcons.
  destruct (await_connectToDatabase_spec env w Hcons) as (w1 & Ha & _ & Hcons1 & Hconn).
  exists w1. split; [done|]. split; [done|].
  revert Ha. unfold await_connectToDatabase.
  destruct (conn (cachedDb (proc w))) as [c|] eqn:Ec.
  - rewrite (connectToDatabase_cached _ c Ec). cbn. intros [= _ <-]. cbn.
    split; [done|]. split; [exact Hconn|]. by rewrite app_nil_r.
  - destruct (promise (cachedDb (proc w))) as [p|] eqn:Ep.
    + rewrite (connectToDatabase_in_flight _ p Ec Ep).
      assert (promises (proc w) !! p = Some Pending) as Hp.
      { destruct Hcons as [Hc _]. rewrite Ep, Ec in Hc.
        by destruct Hc as [[? _]|[c [_ ?]]]. }
      rewrite (settle_pending_await _ _ _ Hp). intros [= _ <-]. cbn [proc].
      unfold settle. rewrite Hp.
      split; [by destruct (network env)|]. split.
      * intros c Hc. specialize (Hconn c Hc). revert Hconn. cbn [proc].
        unfold settle. by rewrite Hp.
      * rewrite app_nil_r. by destruct (network env).
    + destruct (connectToDatabase_start _ Ec Ep)
        as (st' & Hcall & Hc1 & Hp1 & Hps & Hcc & _).
      rewrite Hcall.
      assert (promises st' !! length (promises (proc w)) = Some Pending) as Hp
        by by rewrite Hps, lookup_app_r, Nat.sub_diag.
      rewrite (settle_pending_await _ _ _ Hp). intros [= _ <-]. cbn [proc].
      assert (MONGODB_URI st' = MONGODB_URI (proc w)) as Hu.
      { revert Hcall. unfold connectToDatabase. rewrite Ec, Ep. cbn.
        by intros [= <-]. }
      unfold settle. rewrite Hp.
      split; [by destruct (network env); cbn|]. split.
      * intros c Hc. specialize (Hconn c Hc). revert Hconn. cbn [proc].
        unfold settle. by rewrite Hp.
      * destruct (network env); cbn; by rewrite Hcc.
Qed.

(** A handler leaves the process as awaiting the connection made it, but
    for console lines. *)
Lemma serve_proc r w w1 c w' :
  await_connectToDatabase (request_env r) w = Some (connect_result (request_env r) w, w1) →
  serve r w = Some (c, w') →
  cachedDb (proc w') = cachedDb (proc w1)
  ∧ promises (proc w') = promises (proc w1)
  ∧ connect_calls (proc w') = connect_calls (proc w1)
  ∧ MONGODB_URI (proc w') = MONGODB_URI (proc w1).
Proof.
  intros Ha. destruct r as [env|env]; cbn [serve request_env] in *.
  - rewrite (loader_cases env w w1 Ha).
    destruct (connect_result env w); [|by intros [= _ <-]].
    destruct (Task_find_sort_lean _ _); [|by intros [= _ <-]].
    destruct (map_throwing _ _); by intros [= _ <-].
  - rewrite (action_cases env w w1 Ha).
    destruct (connect_result env w); [|by intros [= _ <-]].
    destruct (form_data env) as [fd|]; [|by intros [= _ <-]].
    destruct (formData_get "title" fd) as [[t|f]|]; [|by intros [= _ <-]..].
    destruct (bool_decide _); [by intros [= _ <-]|].
    destruct (description_arg _); [|by intros [= _ <-]].
    destruct (Task_save _ _ _); by intros [= _ <-].
Qed.

(** With the connection cached, requests do not call the driver. *)
Lemma serve_all_connected rs w c :
  cache_consistent (proc w) →
  conn (cachedDb (proc w)) = Some c →
  ∃ cs w', serve_all rs w = Some (cs, w')
    ∧ conn (cachedDb (proc w')) = Some c
    ∧ connect_calls (proc w') = connect_calls (proc w).
Proof.
  revert w. induction rs as [|r rs IH]; intros w Hcons Hc; [by exists [], w|].
  cbn [serve_all].
  destruct (await_connect_calls (request_env r) w Hcons)
    as (w1 & Ha & Hcons1 & Hu & Hconn & Hcalls).
  destruct (serve_step r w Hcons) as (c1 & w2 & Hs & Hcons2 & _).
  destruct (serve_proc r w w1 c1 w2 Ha Hs) as (H1 & H2 & H3 & H4).
  rewrite Hs. rewrite Hc, app_nil_r in Hcalls.
  assert (conn (cachedDb (proc w2)) = Some c) as Hc2.
  { rewrite H1. apply Hconn. unfold connect_result. by rewrite Hc. }
  destruct (IH w2 Hcons2 Hc2) as (cs & w' & -> & Hc' & Hcalls').
  exists (c1 :: cs), w'. split; [done|]. split; [done|]. congruence.
Qed.

(** Connect once, reuse everywhere: a module with nothing cached that
    serves any number of requests, at least one, while the store can be
    reached, calls [mongoose.connect] exactly once, with the configured URI,
    and ends with the connection cached. *)
Theorem requests_connect_once rs w :
  cache_consistent (proc w) →
  conn (cachedDb (proc w)) = None →
  promise (cachedDb (proc w)) = None →
  rs ≠ [] →
  Forall (λ r, ∃ m, network (request_env r) = Return m) rs →
  ∃ cs w', serve_all rs w = Some (cs, w')
    ∧ connect_calls (proc w') = connect_calls (proc w) ++ [MONGODB_URI (proc w)]
    ∧ ∃ c, conn (cachedDb (proc w')) = Some c.
Proof.
  intros Hcons Hc Hp Hne Hup. destruct rs as [|r rs]; [done|].
  apply Forall_cons in Hup as [[m Hm] _]. cbn [serve_all].
  destruct (await_connect_calls (request_env r) w Hcons)
    as (w1 & Ha & Hcons1 & Hu & Hconn & Hcalls).
  destruct (serve_step r w Hcons) as (c1 & w2 & Hs & Hcons2 & _).
  destruct (serve_proc r w w1 c1 w2 Ha Hs) as (H1 & H2 & H3 & H4).
  rewrite Hs. rewrite Hc, Hp in Hcalls.
  assert (conn (cachedDb (proc w2)) = Some (connection m)) as Hc2.
  { rewrite H1. apply Hconn. unfold connect_result. by rewrite Hc, Hm. }
  destruct (serve_all_connected rs w2 _ Hcons2 Hc2) as (cs & w' & -> & Hc' & Hcalls').
  exists (c1 :: cs), w'. split; [done|]. split; [congruence|]. by eexists.
Qed.

Lemma requests_connect_once_witness :
  ∃ cs w', serve_all [GET reading; POST task_A; POST task_B; GET reading] fresh_world
           = Some (cs, w')
    ∧ connect_calls (proc w')
      = connect_calls (proc fresh_world) ++ [MONGODB_URI (proc fresh_world)]
    ∧ ∃ c, conn (cachedDb (proc w')) = Some c.
Proof.
  apply (requests_connect_once
           [GET reading; POST task_A; POST task_B; GET reading] fresh_world).
  - apply cache_consistent_fresh.
  - reflexivity.
  - reflexivity.
  - done.
  - repeat constructor; by exists a_connection.
Defined.

Lemma sort_newest_last before coll d :
  Forall (λ x, createdAt x < createdAt d) coll →
  sort_createdAt_desc before (coll ++ [d]) = d :: sort_createdAt_desc before coll.
Proof.
  unfold sort_createdAt_desc. rewrite foldr_app. cbn [foldr insert_desc].
  induction 1 as [|x coll Hx _ IH]; [done|]. cbn [foldr]. rewrite IH.
  cbn [insert_desc].
  assert ((createdAt d <? createdAt x) = false) as -> by (apply Z.ltb_ge; lia).
  by assert ((createdAt d =? createdAt x) = false) as -> by (apply Z.eqb_neq; lia).
Qed.

(** A task created at a time later than that of every stored task is the
    first of the next list. The records after it are those of the list as it
    was before; and they are in the order they had there when no two stored
    tasks have the same [createdAt], the order among tasks of the same
    [createdAt] being the store's choice at each read. *)
Theorem newest_listed_first env0 envA envL w w0 wA wL before after :
  cache_consistent (proc w) →
  loader env0 w = Some (Returned (json (tasks_body before) 200), w0) →
  Forall (λ x, createdAt x < now envA) (tasks w) →
  action envA w0 = Some (Returned (redirect "/"), wA) →
  loader envL wA = Some (Returned (json (tasks_body after) 200), wL) →
  ∃ doc new rest,
    tasks wA = tasks w ++ [doc]
    ∧ createdAt doc = now envA
    ∧ represents doc new
    ∧ after = new :: rest
    ∧ rest ≡ₚ before
    ∧ (NoDup (map createdAt (tasks w)) → rest = before).
Proof.
  intros Hcons Hl0 Hnew Hact Hload.
  destruct (loader_Returned env0 w _ w0 Hcons Hl0)
    as (_ & _ & _ & [= ->] & Ht0 & Hcons0).
  destruct (action_described envA w0 Hcons0)
    as (c & w' & Hact' & HconsA & [(-> & _)|[(-> & _)|(-> & _ & Hdoc)]]);
    rewrite Hact in Hact'; try done.
  injection Hact' as <-.
  destruct Hdoc as (fd & t & doc & _ & _ & _ & Ht & _ & _ & Hcreated & _).
  destruct (loader_Returned envL wA _ wL HconsA Hload) as (_ & _ & Hv & [= ->] & _).
  rewrite Ht0 in Ht.
  exists doc, (serialized doc),
         (map serialized (sort_createdAt_desc (tie_break envL) (tasks w))).
  split; [done|]. split; [done|]. split.
  { apply represents_serialized. unfold all_valid in Hv. rewrite Forall_forall in Hv.
    apply Hv. rewrite Ht. apply elem_of_app. right. by apply list_elem_of_singleton. }
  split; [rewrite Ht, sort_newest_last; [done|by rewrite Hcreated]|].
  split; [by rewrite !sort_createdAt_desc_Permutation|].
  intros Hnd. f_equal. by apply sort_createdAt_desc_no_tie.
Qed.

Lemma newest_listed_first_witness :
  ∃ doc new rest,
    tasks world_A_read_B = tasks world_A ++ [doc]
    ∧ createdAt doc = now task_B
    ∧ represents doc new
    ∧ map serialized (sort_createdAt_desc (tie_break reading) (tasks world_A_read_B))
      = new :: rest
    ∧ rest ≡ₚ map serialized (sort_createdAt_desc (tie_break reading) (tasks world_A))
    ∧ (NoDup (map createdAt (tasks world_A)) →
       rest = map serialized (sort_createdAt_desc (tie_break reading) (tasks world_A))).
Proof.
  destruct (loader reading world_A_read_B) as [[c wL]|] eqn:El; [|by vm_compute in El].
  assert (c = Returned (json (tasks_body
            (map serialized (sort_createdAt_desc (tie_break reading)
                               (tasks world_A_read_B)))) 200)) as ->.
  { vm_compute in El. injection El as <- _. by vm_compute. }
  apply (newest_listed_first reading task_B reading world_A world_A_read
           world_A_read_B wL).
  - destruct (action_completes task_A fresh_world (cache_consistent_fresh _))
      as (c & w' & Ha & Hc).
    unfold world_A. by rewrite Ha.
  - by vm_compute.
  - repeat constructor.
  - by vm_compute.
  - exact El.
Defined.

End requests.

(** ** The page *)

Section the_page.

Variable toLocaleString : option Z → jsstring.
Variable other_formats : jsstring → option Z.

Implicit Types (tasks : list SerializableTask) (actionData : option json_body).

Lemma texts_element t p cs : texts (element t p cs) = flat_map texts cs.
Proof. cbn [texts]. induction cs as [|c cs IH]; [done|]. cbn. by rewrite IH. Qed.

Lemma descendants_text tag s : descendants tag (text s) = [].
Proof. done. Qed.

Lemma descendants_element tag t p cs :
  descendants tag (element t p cs)
  = (if decide (t = tag) then [element t p cs] else [])
    ++ flat_map (descendants tag) cs.
Proof.
  cbn [descendants].
  assert ((fix go (cs : list node) : list node :=
             match cs with
             | [] => []
             | c :: cs' => descendants tag c ++ go cs'
             end) cs = flat_map (descendants tag) cs) as ->.
  { induction cs as [|c cs IH]; [done|]. cbn. by rewrite IH. }
  by destruct (decide (t = tag)).
Qed.

Lemma row_descendants_tr task :
  descendants "tr" (task_row toLocaleString other_formats task)
  = [task_row toLocaleString other_formats task].
Proof. reflexivity. Qed.

Lemma row_descendants_other tag task :
  not_in_rows tag →
  descendants tag (task_row toLocaleString other_formats task) = [].
Proof. intros [-> | [-> | [-> | [-> | [-> | ->]]]]]; reflexivity. Qed.

Lemma rows_descendants_tr tasks :
  flat_map (descendants "tr") (map (task_row toLocaleString other_formats) tasks)
  = map (task_row toLocaleString other_formats) tasks.
Proof.
  induction tasks as [|task tasks IH]; [done|].
  cbn [map flat_map]. by rewrite row_descendants_tr, IH.
Qed.

Lemma rows_descendants_other tag tasks :
  not_in_rows tag →
  flat_map (descendants tag) (map (task_row toLocaleString other_formats) tasks) = [].
Proof.
  intros H. induction tasks as [|task tasks IH]; [done|].
  cbn [map flat_map]. by rewrite row_descendants_other, IH.
Qed.

(** The cells of a row. *)
Lemma row_cells task :
  map texts (children (task_row toLocaleString other_formats task))
  = [[s_title task];
     [if bool_decide (s_description task = []) then lit "-" else s_description task];
     [toLocaleString (new_Date other_formats (s_createdAt task))]].
Proof. reflexivity. Qed.

(** The table, with its rows set apart. *)
Lemma table_body_rows rows :
  flat_map (descendants "tbody") rows = [] →
  flat_map (descendants "tr") (descendants "tbody" (task_table rows))
  = flat_map (descendants "tr") rows.
Proof.
  intros H.
  transitivity (flat_map (descendants "tr") rows
                ++ flat_map (descendants "tr")
                     ((flat_map (descendants "tbody") rows ++ []) ++ []));
    [reflexivity|]. by rewrite H, app_nil_r.
Qed.

Lemma table_tables rows :
  flat_map (descendants "table") rows = [] →
  length (descendants "table" (task_table rows)) = 1%nat.
Proof.
  intros H.
  transitivity (S (length ((flat_map (descendants "table") rows ++ []) ++ [])));
    [reflexivity|]. by rewrite H.
Qed.

Lemma table_other tag rows :
  tag = "Form"%string ∨ tag = "input"%string ∨ tag = "textarea"%string
  ∨ tag = "button"%string →
  descendants tag (task_table rows) = flat_map (descendants tag) rows.
Proof.
  intros Htag.
  transitivity ((flat_map (descendants tag) rows ++ []) ++ []);
    [by destruct Htag as [-> | [-> | [-> | ->]]]|]. by rewrite !app_nil_r.
Qed.

Lemma form_no_table actionData isSubmitting :
  descendants "tbody" (task_form actionData isSubmitting) = []
  ∧ descendants "table" (task_form actionData isSubmitting) = [].
Proof.
  split; by destruct actionData as [[l|[|c t]|[|c m]]|].
Qed.

Lemma form_controls actionData isSubmitting :
  map (node_prop "disabled") (controls (task_form actionData isSubmitting))
  = replicate 3 (Some (PBool isSubmitting)).
Proof. by destruct actionData as [[l|[|c t]|[|c m]]|]. Qed.

Lemma form_forms actionData isSubmitting :
  descendants "Form" (task_form actionData isSubmitting)
  = [task_form actionData isSubmitting].
Proof. by destruct actionData as [[l|[|c t]|[|c m]]|]. Qed.

(** The list part has no form and no control. *)
Lemma list_other tag tasks :
  tag = "Form"%string ∨ tag = "input"%string ∨ tag = "textarea"%string
  ∨ tag = "button"%string →
  descendants tag (task_list toLocaleString other_formats tasks) = [].
Proof.
  intros Htag. unfold task_list. destruct tasks as [|task tasks].
  { by destruct Htag as [-> | [-> | [-> | ->]]]. }
  rewrite bool_decide_eq_false_2 by done. rewrite table_other by done.
  apply rows_descendants_other. unfold not_in_rows. tauto.
Qed.

(** The page is the form and the list, as far as these tags go. *)
Lemma page_descendants tag tasks actionData state :
  not_in_rows tag →
  descendants tag (Index toLocaleString other_formats tasks actionData state)
  = descendants tag (task_form actionData (is_submitting state))
    ++ descendants tag (task_list toLocaleString other_formats tasks).
Proof.
  intros Htag.
  transitivity
    (((descendants tag (task_form actionData (is_submitting state)) ++ [])
      ++ (descendants tag (task_list toLocaleString other_formats tasks) ++ []) ++ [])
     ++ []);
    [by destruct Htag as [-> | [-> | [-> | [-> | [-> | ->]]]]]|].
  by rewrite !app_nil_r.
Qed.

Lemma page_table_rows tasks actionData state :
  table_rows (Index toLocaleString other_formats tasks actionData state)
  = map (λ task,
           [[s_title task];
            [if bool_decide (s_description task = []) then lit "-"
             else s_description task];
            [toLocaleString (new_Date other_formats (s_createdAt task))]])
      tasks.
Proof.
  unfold table_rows. rewrite page_descendants by (unfold not_in_rows; tauto).
  rewrite (proj1 (form_no_table _ _)). cbn [app]. unfold task_list.
  destruct tasks as [|task tasks]; [done|].
  rewrite bool_decide_eq_false_2 by done.
  rewrite table_body_rows
    by (apply rows_descendants_other; unfold not_in_rows; tauto).
  rewrite rows_descendants_tr, map_map. apply map_ext. intros t. apply row_cells.
Qed.

Lemma page_tables tasks actionData state :
  length (descendants "table" (Index toLocaleString other_formats tasks actionData state))
  = if bool_decide (tasks = []) then 0%nat else 1%nat.
Proof.
  rewrite page_descendants by (unfold not_in_rows; tauto).
  rewrite (proj2 (form_no_table _ _)). cbn [app]. unfold task_list.
  destruct tasks as [|task tasks]; [done|].
  rewrite bool_decide_eq_false_2 by done.
  rewrite (bool_decide_eq_false_2 (_ = [])) by done.
  apply table_tables, rows_descendants_other. unfold not_in_rows. tauto.
Qed.

Lemma new_Date_serialized d :
  valid_time (createdAt d) = true →
  new_Date other_formats (s_createdAt (serialized d)) = Some (createdAt d).
Proof.
  intros Hv. destruct (toISOString_valid _ Hv) as [iso Hiso].
  unfold serialized. cbn [s_createdAt]. rewrite Hiso.
  rewrite (toISOString_text _ _ Hiso). unfold new_Date.
  by rewrite (parse_iso_text _ Hv), Hv.
Qed.

(** The rows the page makes of the records of documents. *)
Lemma page_rows_serialized docs actionData state :
  all_valid docs →
  table_rows (Index toLocaleString other_formats (map serialized docs) actionData state)
  = map (shown_cells toLocaleString) docs.
Proof.
  intros Hv. rewrite page_table_rows, map_map. unfold all_valid in Hv.
  induction Hv as [|d docs Hd _ IH]; [done|]. cbn [map]. rewrite IH. f_equal.
  unfold shown_cells. by rewrite (new_Date_serialized d Hd).
Qed.

(** What the loader returns is what the page lists: the table has one body
    row per stored task, newest first, showing its title, its description
    or a dash when that is empty, and its creation time, read back from the
    ISO string, in the locale's form; and there is a table exactly when
    there are tasks. *)
Theorem page_lists_stored_tasks env w ser w' actionData state :
  cache_consistent (proc w) →
  loader env w = Some (Returned (json (tasks_body ser) 200), w') →
  table_rows (Index toLocaleString other_formats ser actionData state)
  = map (shown_cells toLocaleString) (sort_createdAt_desc (tie_break env) (tasks w))
  ∧ length (descendants "table" (Index toLocaleString other_formats ser actionData state))
    = (if bool_decide (tasks w = []) then 0%nat else 1%nat).
Proof.
  intros Hcons Hl.
  destruct (loader_Returned env w _ w' Hcons Hl) as (_ & _ & Hv & [= ->] & _).
  split.
  - apply page_rows_serialized. by apply (all_valid_sort (tie_break env)).
  - rewrite page_tables.
    assert (map serialized (sort_createdAt_desc (tie_break env) (tasks w)) = []
            ↔ tasks w = []) as Hiff.
    { split; intros H.
      - apply (f_equal length) in H.
        rewrite length_map, sort_createdAt_desc_Permutation in H.
        by apply nil_length_inv.
      - by rewrite H. }
    destruct (decide (tasks w = [])) as [He|Hne].
    + rewrite (bool_decide_eq_true_2 _ He).
      by rewrite bool_decide_eq_true_2 by by apply Hiff.
    + rewrite (bool_decide_eq_false_2 _ Hne).
      by rewrite bool_decide_eq_false_2 by (intros H; by apply Hne, Hiff).
Qed.

(** While a submission is under way the three controls of the page, the
    title input, the description and the button, are all disabled, and
    otherwise none is. *)
Theorem controls_follow_navigation tasks actionData state :
  map (node_prop "disabled")
    (controls (Index toLocaleString other_formats tasks actionData state))
  = replicate 3 (Some (PBool (is_submitting state))).
Proof.
  unfold controls. rewrite !page_descendants by (unfold not_in_rows; tauto).
  rewrite !list_other by tauto. rewrite !app_nil_r.
  apply form_controls.
Qed.

Lemma page_form_texts tasks actionData state :
  form_texts (Index toLocaleString other_formats tasks actionData state)
  = texts (task_form actionData (is_submitting state)).
Proof.
  unfold form_texts. rewrite page_descendants by (unfold not_in_rows; tauto).
  rewrite form_forms, list_other by tauto. cbn [app flat_map]. apply app_nil_r.
Qed.

(** Membership in a list that is known. *)
Ltac is_member := apply (bool_decide_unpack _); vm_compute; exact I.
Ltac no_member :=
  let H := fresh in
  intros H; apply (bool_decide_pack _) in H; vm_compute in H; exact H.

Ltac settle :=
  split;
  [ first [ (intros _; reflexivity)
          | (let H := fresh in intros H; exfalso; revert H; no_member) ]
  | first [ (intros _; is_member)
          | (let H := fresh in intros H; discriminate H) ] ].

(** The page shows what the action answered: the form carries the text
    "Title is required." exactly after the 400 answer, and the text "Failed
    to add task. Please try again." exactly after the 500 answer; after a
    redirect it carries neither. *)
Theorem page_shows_action_answer env w c w' tasks state :
  cache_consistent (proc w) →
  action env w = Some (c, w') →
  (lit "Title is required."
     ∈ form_texts (Index toLocaleString other_formats tasks (action_data c) state)
   ↔ c = Returned title_required)
  ∧ (lit "Failed to add task. Please try again."
       ∈ form_texts (Index toLocaleString other_formats tasks (action_data c) state)
     ↔ c = Returned add_failed).
Proof.
  intros Hcons Hact. rewrite page_form_texts.
  destruct (action_described env w Hcons)
    as (c1 & w1 & Hact1 & _ & [(-> & _)|[(-> & _)|(-> & _)]]);
    rewrite Hact in Hact1; injection Hact1 as -> _;
    unfold title_required, add_failed; destruct state; split; settle.
Qed.

(** The key of each row is the identifier of its task. *)
Lemma row_key task :
  node_prop "key" (task_row toLocaleString other_formats task) = Some (PKey (s_id task)).
Proof. reflexivity. Qed.

Lemma page_body_rows tasks actionData state :
  flat_map (descendants "tr")
    (descendants "tbody" (Index toLocaleString other_formats tasks actionData state))
  = map (task_row toLocaleString other_formats) tasks.
Proof.
  rewrite page_descendants by (unfold not_in_rows; tauto).
  rewrite (proj1 (form_no_table _ _)). cbn [app]. unfold task_list.
  destruct tasks as [|task tasks]; [done|].
  rewrite bool_decide_eq_false_2 by done.
  rewrite table_body_rows
    by (apply rows_descendants_other; unfold not_in_rows; tauto).
  apply rows_descendants_tr.
Qed.

Lemma hex_digit_inj a b :
  (a < 16)%N → (b < 16)%N → hex_digit a = hex_digit b → a = b.
Proof.
  unfold hex_digit. intros Ha Hb.
  destruct (a <? 10)%N eqn:Ea; destruct (b <? 10)%N eqn:Eb;
    try apply N.ltb_lt in Ea; try apply N.ltb_ge in Ea;
    try apply N.ltb_lt in Eb; try apply N.ltb_ge in Eb; lia.
Qed.

Lemma byte_hex_inj a b :
  (a < 256)%N → (b < 256)%N →
  hex_digit (a / 16 mod 16) = hex_digit (b / 16 mod 16) →
  hex_digit (a mod 16) = hex_digit (b mod 16) → a = b.
Proof.
  intros Ha Hb H1 H2.
  pose proof (N.div_mod a 16 ltac:(done)) as Hda.
  pose proof (N.div_mod b 16 ltac:(done)) as Hdb.
  pose proof (N.mod_lt a 16 ltac:(done)) as Hma.
  pose proof (N.mod_lt b 16 ltac:(done)) as Hmb.
  assert (a / 16 < 16)%N as Hqa by (apply N.Div0.div_lt_upper_bound; lia).
  assert (b / 16 < 16)%N as Hqb by (apply N.Div0.div_lt_upper_bound; lia).
  rewrite !N.mod_small in H1 by done.
  apply hex_digit_inj in H1; [|done..]. apply hex_digit_inj in H2; [|done..].
  lia.
Qed.

Lemma ObjectId_toString_inj o1 o2 :
  well_formed_id o1 → well_formed_id o2 →
  ObjectId_toString o1 = ObjectId_toString o2 → o1 = o2.
Proof.
  destruct o1 as [l1], o2 as [l2]. unfold well_formed_id, ObjectId_toString.
  cbn [id_bytes]. intros H1 H2 H. f_equal. revert l2 H2 H.
  induction H1 as [|a l1 Ha _ IH]; intros l2 H2 H.
  - destruct H2; [done|discriminate H].
  - destruct H2 as [|b l2 Hb H2]; [discriminate H|].
    cbn [flat_map app] in H. injection H as Hh Hl Ht.
    f_equal; [by apply byte_hex_inj|by apply IH].
Qed.

(** Rows have distinct keys when tasks have distinct identifiers: the keys
    of the body rows are the hexadecimal strings of the identifiers, and the
    hexadecimal form tells identifiers apart. *)
Theorem row_keys_distinct env w ser w' actionData state :
  cache_consistent (proc w) →
  loader env w = Some (Returned (json (tasks_body ser) 200), w') →
  Forall (λ d, well_formed_id (_id d)) (tasks w) →
  NoDup (map _id (tasks w)) →
  row_keys (Index toLocaleString other_formats ser actionData state)
  = map (λ d, Some (PKey (ObjectId_toString (_id d))))
      (sort_createdAt_desc (tie_break env) (tasks w))
  ∧ NoDup (row_keys (Index toLocaleString other_formats ser actionData state)).
Proof.
  intros Hcons Hl Hwf Hnd.
  destruct (loader_Returned env w _ w' Hcons Hl) as (_ & _ & _ & [= ->] & _).
  assert (row_keys (Index toLocaleString other_formats
                      (map serialized (sort_createdAt_desc (tie_break env) (tasks w)))
                      actionData state)
          = map (λ d, Some (PKey (ObjectId_toString (_id d))))
              (sort_createdAt_desc (tie_break env) (tasks w))) as Hkeys.
  { unfold row_keys. rewrite page_body_rows, !map_map. by apply map_ext. }
  split; [exact Hkeys|]. rewrite Hkeys. clear Hkeys Hl.
  rewrite <- (sort_createdAt_desc_Permutation (tie_break env) (tasks w)) in Hwf, Hnd.
  induction (sort_createdAt_desc (tie_break env) (tasks w)) as [|d docs IH]; [constructor|].
  cbn [map] in *. apply Forall_cons in Hwf as [Hd Hwf].
  apply NoDup_cons in Hnd as [Hnot Hnd]. apply NoDup_cons. split; [|by apply IH].
  intros Hin. apply Hnot. apply list_elem_of_fmap in Hin as (d' & Heq & Hd').
  injection Heq as Heq. apply list_elem_of_fmap. exists d'. split; [|done].
  apply ObjectId_toString_inj; [done| |done].
  rewrite Forall_forall in Hwf. by apply Hwf.
Qed.

End the_page.

Lemma world_AB_consistent : cache_consistent (proc world_AB).
Proof.
  unfold world_AB.
  destruct (action_completes task_A fresh_world (cache_consistent_fresh _))
    as (c1 & w1 & -> & Hc1).
  by destruct (action_completes task_B w1 Hc1) as (c2 & w2 & -> & Hc2).
Qed.

Lemma page_lists_stored_tasks_witness :
  ∃ ser, fst <$> loader reading world_AB = Some (Returned (json (tasks_body ser) 200))
    ∧ table_rows (Index plain_locale (λ _, None) ser None idle)
      = map (shown_cells plain_locale) (sort_createdAt_desc (tie_break reading) (tasks world_AB))
    ∧ map (hd []) (table_rows (Index plain_locale (λ _, None) ser None idle))
      = [[lit "B"]; [lit "A"]].
Proof.
  destruct (loader reading world_AB) as [[c wL]|] eqn:El; [|by vm_compute in El].
  assert (c = Returned (json (tasks_body
            (map serialized (sort_createdAt_desc (tie_break reading)
                               (tasks world_AB)))) 200)) as ->.
  { vm_compute in El. injection El as <- _. by vm_compute. }
  destruct (page_lists_stored_tasks plain_locale (λ _, None) reading world_AB
              (map serialized (sort_createdAt_desc (tie_break reading) (tasks world_AB)))
              wL None idle
              world_AB_consistent El) as [Hrows _].
  eexists. split; [done|]. split; [exact Hrows|]. rewrite Hrows. by vm_compute.
Defined.

Lemma page_shows_action_answer_witness :
  lit "Title is required."
  ∈ form_texts (Index plain_locale (λ _, None) []
                  (action_data (Returned title_required)) idle).
Proof.
  destruct (action blank_title_reachable fresh_world) as [[c w']|] eqn:Ea;
    [|by vm_compute in Ea].
  assert (c = Returned title_required) as ->
    by (vm_compute in Ea; by injection Ea as <- _).
  apply (page_shows_action_answer plain_locale (λ _, None) blank_title_reachable
           fresh_world (Returned title_required) w' [] idle
           (cache_consistent_fresh _) Ea).
  reflexivity.
Defined.

Lemma row_keys_distinct_witness :
  NoDup (row_keys (Index plain_locale (λ _, None)
                     (map serialized (sort_createdAt_desc (tie_break reading)
                                        (tasks world_AB))) None idle)).
Proof.
  destruct (loader reading world_AB) as [[c wL]|] eqn:El; [|by vm_compute in El].
  assert (c = Returned (json (tasks_body
            (map serialized (sort_createdAt_desc (tie_break reading)
                               (tasks world_AB)))) 200)) as ->.
  { vm_compute in El. injection El as <- _. by vm_compute. }
  apply (row_keys_distinct plain_locale (λ _, None) reading world_AB _ wL None idle
           world_AB_consistent El).
  - repeat constructor; vm_compute; done.
  - vm_compute. apply NoDup_cons. split; [|apply NoDup_singleton].
    intros H. inversion H as [|? ? ? H']; inversion H'.
Defined.

(** A task submitted without a description, or with one made of white space
    only, is stored with the empty description; and the page made of the
    next list has, at the place of that task in the list, a row that shows
    its trimmed title, a dash where the description goes, and its date. *)
Theorem blank_description_shown_as_dash
    toLocaleString other_formats env envL w w' wL fd ser actionData state :
  cache_consistent (proc w) →
  action env w = Some (Returned (redirect "/"), w') →
  form_data env = Return fd →
  (formData_get "description" fd = None
   ∨ ∃ d, formData_get "description" fd = Some (FString d) ∧ blank d) →
  loader envL w' = Some (Returned (json (tasks_body ser) 200), wL) →
  ∃ doc t (i : nat),
    tasks w' = tasks w ++ [doc]
    ∧ description doc = []
    ∧ formData_get "title" fd = Some (FString t)
    ∧ sort_createdAt_desc (tie_break envL) (tasks w') !! i = Some doc
    ∧ table_rows (Index toLocaleString other_formats ser actionData state) !! i
      = Some [[trim t]; [lit "-"]; [toLocaleString (Some (now env))]].
Proof.
  intros Hcons Hact Hfd Hdesc Hload.
  destruct (action_described env w Hcons)
    as (c & w1 & Hact1 & _ & [(-> & _)|[(-> & _)|(-> & Hs & Hdoc)]]);
    rewrite Hact in Hact1; try done. injection Hact1 as <-.
  destruct Hdoc as (fd' & t & _ & Hfd' & Ht & Hnb & _).
  rewrite Hfd in Hfd'. injection Hfd' as <-.
  assert (textual (formData_get "description" fd)) as Htext.
  { intros f Hf. destruct Hdesc as [Hd|(d & Hd & _)]; congruence. }
  destruct (connect_result env w) as [c|e] eqn:Ec.
  2:{ destruct (await_connectToDatabase_spec env w Hcons) as (w1 & Ha & _).
      rewrite (action_cases env w w1 Ha), Ec in Hact. by destruct (form_data env). }
  destruct (action_saves env w fd t c Hcons Hfd Ht)
    as (w2 & doc & Hact2 & Ht2 & Hcons2 & _ & Htitle & Hd2 & Hcreated);
    [by rewrite trim_blank|done..|].
  rewrite Hact in Hact2. injection Hact2 as <-.
  assert (description doc = []) as Hempty.
  { rewrite Hd2. destruct Hdesc as [->|(d & -> & Hb)]; [done|]. by apply trim_blank. }
  destruct (loader_Returned envL w' _ wL Hcons2 Hload) as (_ & _ & Hv & [= ->] & _).
  assert (doc ∈ sort_createdAt_desc (tie_break envL) (tasks w')) as Hin.
  { rewrite sort_createdAt_desc_Permutation, Ht2.
    apply elem_of_app. right. by apply list_elem_of_singleton. }
  apply list_elem_of_lookup in Hin as [i Hi].
  exists doc, t, i. split; [done|]. split; [done|]. split; [done|]. split; [done|].
  rewrite page_rows_serialized by by apply (all_valid_sort (tie_break envL)).
  rewrite list_lookup_fmap, Hi. cbn [fmap option_fmap option_map].
  unfold shown_cells. rewrite Htitle, Hempty, Hcreated.
  by rewrite bool_decide_eq_true_2.
Qed.

Lemma blank_description_shown_as_dash_witness :
  ∃ doc t (i : nat),
    tasks world_A = tasks fresh_world ++ [doc]
    ∧ description doc = []
    ∧ formData_get "title" [("title"%string, FString (lit "A"))] = Some (FString t)
    ∧ sort_createdAt_desc (tie_break reading) (tasks world_A) !! i = Some doc
    ∧ table_rows (Index plain_locale (λ _, None)
                    (map serialized (sort_createdAt_desc (tie_break reading)
                                       (tasks world_A))) None idle) !! i
      = Some [[trim t]; [lit "-"]; [plain_locale (Some (now task_A))]].
Proof.
  destruct (loader reading world_A) as [[c wL]|] eqn:El; [|by vm_compute in El].
  assert (c = Returned (json (tasks_body
            (map serialized (sort_createdAt_desc (tie_break reading)
                               (tasks world_A)))) 200)) as ->.
  { vm_compute in El. injection El as <- _. by vm_compute. }
  apply (blank_description_shown_as_dash plain_locale (λ _, None) task_A reading
           fresh_world world_A wL [("title"%string, FString (lit "A"))]).
  - apply cache_consistent_fresh.
  - by vm_compute.
  - reflexivity.
  - by left.
  - exact El.
Defined.
